(** * Box-delivery dataset adapters: a shallow embedding

    The Python module [box_delivery_dataset.py] defines two dataset adapters,
    [BoxDeliveryImageDataset] and [BoxDeliveryLowdimDataset].  Both wire a
    replay buffer, an episode mask and a sequence sampler together and
    post-process the sampled window into the record a training loop consumes.

    Layout of this development:
    - [NumPy]: the handful of array operations the adapters use
      (slicing, [reshape], [concatenate], [moveaxis], [astype], division);
    - the external collaborators ([ReplayBuffer], [SequenceSampler],
      [get_val_mask], [downsample_mask], [LinearNormalizer]) as interfaces;
    - [Heap]: Python objects with identity, for [copy.copy] and attribute
      assignment;
    - one module per adapter class, then the properties. *)

From Stdlib Require Import QArith Qabs Qround Qminmax.
From stdpp Require Import gmap strings list fin_maps.

Local Open Scope nat_scope.

(** ** Arrays *)

(** The element types of the model: those that occur in the stores the
    adapters read.  The other types of NumPy (16-bit and extended floats,
    complex numbers, the remaining integer widths) are not modelled, and the
    statements below speak of arrays of these five types only. *)
Inductive dtype := Bool | UInt8 | Int64 | Float32 | Float64.

Global Instance dtype_eq_dec : EqDecision dtype.
Proof. solve_decision. Defined.

(** A C-contiguous [numpy.ndarray]: element type, shape and the elements in
    row-major order.  Elements are rationals; what a floating-point type
    loses is accounted for by the [round] operation below. *)
Record ndarray := NDArray {
  arr_dtype : dtype;
  arr_shape : list nat;
  arr_data : list Q
}.

(** Rounding of an exact value into a given element type.  It is the only
    place where floating point enters, and is kept abstract. *)
Class Rounding := round : dtype → Q → Q.

(** What is used of IEEE rounding: it is monotone, and 0 and 1 are
    representable in every floating-point type. *)
Class RoundingLaws `{Rounding} := {
  round_mono dt x y : (x <= y)%Q → (round dt x <= round dt y)%Q;
  round_0 dt : (round dt 0 == 0)%Q;
  round_1 dt : (round dt 1 == 1)%Q
}.

Module NumPy.

Definition prod_list (l : list nat) : nat := foldr Nat.mul 1 l.

(** [a.size] *)
Definition size (a : ndarray) : nat := prod_list (arr_shape a).

(** [a.ndim] *)
Definition ndim (a : ndarray) : nat := length (arr_shape a).

(** The invariant numpy maintains between shape and buffer. *)
Definition wf (a : ndarray) : Prop := length (arr_data a) = size a.

(** Cut [l] into [n] consecutive pieces of [len] elements. *)
Fixpoint chunks {A} (n len : nat) (l : list A) : list (list A) :=
  match n with
  | 0 => []
  | S n' => take len l :: chunks n' len (drop len l)
  end.

(** Row-major [rows] x [cols] matrix to row-major [cols] x [rows]. *)
Definition transpose_flat {A} (rows cols : nat) (l : list A) : list A :=
  c ← seq 0 cols; r ← seq 0 rows; option_list (l !! (r * cols + c)).

(** Split a shape into its leading axes and its last axis. *)
Definition split_last (s : list nat) : option (list nat * nat) :=
  match reverse s with
  | [] => None
  | d :: rinit => Some (reverse rinit, d)
  end.

(** [a[:, :k]]: needs two axes; keeps the first [k] entries of axis 1. *)
Definition slice_axis1 (k : nat) (a : ndarray) : option ndarray :=
  match arr_shape a with
  | d0 :: d1 :: rest =>
      let inner := prod_list rest in
      Some {| arr_dtype := arr_dtype a;
              arr_shape := d0 :: Nat.min d1 k :: rest;
              arr_data := concat (take (Nat.min d1 k * inner)
                                    <$> chunks d0 (d1 * inner) (arr_data a)) |}
  | _ => None
  end.

(** [a[..., :k]]: needs one axis; keeps the first [k] entries of the last
    axis. *)
Definition slice_last (k : nat) (a : ndarray) : option ndarray :=
  '(lead, d) ← split_last (arr_shape a);
  Some {| arr_dtype := arr_dtype a;
          arr_shape := lead ++ [Nat.min d k];
          arr_data := concat (take (Nat.min d k)
                                <$> chunks (prod_list lead) d (arr_data a)) |}.

(** [a.reshape(a.shape[0], -1)].  [a.shape[0]] fails on a 0-d array, and
    the unknown dimension cannot be inferred when the known one is 0. *)
Definition reshape_rows (a : ndarray) : option ndarray :=
  match arr_shape a with
  | [] => None
  | 0 :: _ => None
  | S n :: _ =>
      Some {| arr_dtype := arr_dtype a;
              arr_shape := [S n; size a `div` S n];
              arr_data := arr_data a |}
  end.

(** [numpy.promote_types] on the element types above. *)
Definition promote_types (s t : dtype) : dtype :=
  match s, t with
  | Bool, t => t
  | s, Bool => s
  | Float64, _ | _, Float64 => Float64
  | Int64, Float32 | Float32, Int64 => Float64
  | Int64, _ | _, Int64 => Int64
  | Float32, _ | _, Float32 => Float32
  | UInt8, UInt8 => UInt8
  end.

Section with_rounding.
Context `{Rounding}.

(** Conversion of the elements to [dt]; nothing happens to an array
    that has this type already. *)
Definition cast_data (dt : dtype) (a : ndarray) : list Q :=
  if decide (arr_dtype a = dt) then arr_data a
  else round dt <$> arr_data a.

(** [a.astype(dt)] *)
Definition astype (dt : dtype) (a : ndarray) : ndarray :=
  {| arr_dtype := dt; arr_shape := arr_shape a; arr_data := cast_data dt a |}.

(** [numpy.concatenate([a, b], axis=-1)]: both arrays need the same
    number of axes (at least one) and equal leading axes. *)
Definition concatenate_last (a b : ndarray) : option ndarray :=
  '(lead_a, da) ← split_last (arr_shape a);
  '(lead_b, db) ← split_last (arr_shape b);
  if decide (lead_a = lead_b) then
    let dt := promote_types (arr_dtype a) (arr_dtype b) in
    let n := prod_list lead_a in
    Some {| arr_dtype := dt;
            arr_shape := lead_a ++ [da + db];
            arr_data := concat (zip_with app (chunks n da (cast_data dt a))
                                             (chunks n db (cast_data dt b))) |}
  else None.

(** Element type of [a / 255] (true division): a floating-point array
    keeps its type, an integer or boolean array is divided as 64-bit
    floats. *)
Definition true_divide_dtype (dt : dtype) : dtype :=
  match dt with
  | Float32 => Float32
  | Float64 => Float64
  | Bool | UInt8 | Int64 => Float64
  end.

(** The largest magnitude up to which every integer is a 64-bit float. *)
Definition float64_exact : Q := inject_Z (2 ^ 53).

(** The operand of a true division: an element of a floating-point array
    is taken as it is; an element of an integer or boolean array is first
    converted to a 64-bit float, exactly up to [2^53] in magnitude (so for
    every bool and uint8) and by rounding above. *)
Definition true_divide_operand (src : dtype) (x : Q) : Q :=
  match src with
  | Float32 | Float64 => x
  | Bool | UInt8 | Int64 =>
      if Qle_bool (Qabs x) float64_exact then x else round Float64 x
  end.

(** [a / c] for a Python scalar [c] that the result type represents
    exactly, as 255 is: the converted elements are divided and the
    quotients rounded. *)
Definition divide_scalar (a : ndarray) (c : Q) : ndarray :=
  let dt := true_divide_dtype (arr_dtype a) in
  {| arr_dtype := dt;
     arr_shape := arr_shape a;
     arr_data := (λ x, round dt (true_divide_operand (arr_dtype a) x / c)%Q)
                   <$> arr_data a |}.
End with_rounding.

(** [numpy.moveaxis(a, -1, 1)]: needs two axes; the last axis becomes
    axis 1 and the axes in between shift right. *)
Definition moveaxis_last_to_1 (a : ndarray) : option ndarray :=
  match arr_shape a with
  | [] => None
  | d0 :: rest =>
      '(mid, c) ← split_last rest;
      let inner := prod_list mid in
      Some {| arr_dtype := arr_dtype a;
              arr_shape := d0 :: c :: mid;
              arr_data := concat (transpose_flat inner c
                                    <$> chunks d0 (inner * c) (arr_data a)) |}
  end.

End NumPy.

(** A [torch.Tensor] as produced by [torch.from_numpy]: same element type,
    shape and elements as the array it wraps. *)
Record Tensor := mkTensor {
  t_dtype : dtype;
  t_shape : list nat;
  t_data : list Q
}.

Module torch.
Definition from_numpy (a : ndarray) : Tensor :=
  {| t_dtype := arr_dtype a; t_shape := arr_shape a; t_data := arr_data a |}.
End torch.

(** ** Python dictionaries *)

(** A dictionary whose values are leaves or dictionaries again, as in the
    record [{'obs': {'image': .., 'agent_pos': ..}, 'action': ..}]. *)
#[warnings="-register-all"]
Inductive nested (A : Type) :=
  | Leaf (a : A)
  | Dict (d : gmap string (nested A)).
Arguments Leaf {A} a.
Arguments Dict {A} d.

(** [x[k]]: [KeyError] on a missing key, [TypeError] on a leaf. *)
Definition item {A} (k : string) (x : nested A) : option (nested A) :=
  match x with
  | Dict d => d !! k
  | Leaf _ => None
  end.

(** [diffusion_policy.common.pytorch_util.dict_apply]: apply [f] to every
    leaf and keep the nesting. *)
Fixpoint dict_apply {A B} (f : A → B) (x : nested A) : nested B :=
  match x with
  | Leaf a => Leaf (f a)
  | Dict d => Dict (dict_apply f <$> d)
  end.

(** ** External collaborators *)

(** Modelled from the spec: [ReplayBuffer]
    (diffusion_policy.common.replay_buffer) is the store of episodes, a set
    of named per-timestep fields together with the episode boundaries.  The
    same record stands for the store on disk. *)
Record ReplayBuffer := mkReplayBuffer {
  rb_data : gmap string ndarray;
  episode_ends : list nat
}.

Module ReplayBuffer.
Definition n_episodes (rb : ReplayBuffer) : nat := length (episode_ends rb).

(** [rb[key]] *)
Definition get (rb : ReplayBuffer) (key : string) : option ndarray :=
  rb_data rb !! key.

(** One step of the loading loop: copy field [k] of the store. *)
Definition load (store : ReplayBuffer) (acc : option (gmap string ndarray))
    (k : string) : option (gmap string ndarray) :=
  d ← acc; a ← rb_data store !! k; Some (<[k := a]> d).

(** Modelled from the spec: [ReplayBuffer.copy_from_path(path, keys)] loads
    only the fields named in [keys]; a field that the store lacks is a
    failure. *)
Definition copy_from_path (store : ReplayBuffer) (keys : list string)
    : option ReplayBuffer :=
  d ← foldl (load store) (Some ∅) keys;
  Some {| rb_data := d; episode_ends := episode_ends store |}.
End ReplayBuffer.

(** [diffusion_policy.common.sampler]: the split masks and the sequence
    sampler.  The sampler is an abstract object; building it and every call
    on it may fail. *)
Class SamplerLib := {
  get_val_mask : nat → Q → Z → option (list bool);
  downsample_mask : list bool → option Z → Z → option (list bool);
  SequenceSampler : Type;
  (** [SequenceSampler(replay_buffer, sequence_length, pad_before, pad_after,
      episode_mask)] *)
  new_sampler :
    ReplayBuffer → Z → Z → Z → list bool → option SequenceSampler;
  (** [len(sampler)] *)
  sampler_len : SequenceSampler → nat;
  (** [sampler.sample_sequence(idx)] *)
  sample_sequence : SequenceSampler → Z → option (gmap string ndarray)
}.

(** [diffusion_policy.normalizer.LinearNormalizer] and
    [get_image_range_normalizer].  A normalizer is a dictionary from field
    name to the parameters of that field; [fit] updates the normalizer it is
    called on. *)
Class NormalizerLib := {
  field_normalizer : Type;
  kwargs : Type;
  fit : gmap string field_normalizer → nested ndarray → nat → string → kwargs
        → option (gmap string field_normalizer);
  get_image_range_normalizer : field_normalizer
}.

(** [~mask] on a boolean array. *)
Definition invert (mask : list bool) : list bool := negb <$> mask.

(** Two masks that select no common episode and together select all. *)
Definition partition_masks (m1 m2 : list bool) : Prop :=
  length m1 = length m2 ∧
  ∀ i a b, m1 !! i = Some a → m2 !! i = Some b →
           a && b = false ∧ a || b = true.

(** ** Objects *)

(** Instances live in a heap and are referred to by location, so that
    [copy.copy] and attribute assignment act on one object and are seen
    through every reference to it. *)
Module Heap.
Definition loc := positive.

Section heap.
Context {O : Type}.

(** A computation over the heap of objects that may raise. *)
Definition M (A : Type) : Type := gmap loc O → option (A * gmap loc O).

Definition ret {A} (a : A) : M A := λ h, Some (a, h).

Definition bind {A B} (m : M A) (k : A → M B) : M B :=
  λ h, match m h with
       | Some (a, h') => k a h'
       | None => None
       end.

(** An external call: no access to the objects. *)
Definition call {A} (o : option A) : M A :=
  λ h, match o with
       | Some a => Some (a, h)
       | None => None
       end.

(** [Class(...)]: a new object. *)
Definition new (o : O) : M loc :=
  λ h, let l := fresh (dom h) in Some (l, <[l := o]> h).

(** [copy.copy(l)]: a new object with the attributes of [l]. *)
Definition copy (l : loc) : M loc :=
  λ h, match h !! l with
       | Some o => new o h
       | None => None
       end.

(** [l.attr] *)
Definition getattr {A} (l : loc) (attr : O → A) : M A :=
  λ h, match h !! l with
       | Some o => Some (attr o, h)
       | None => None
       end.

(** [l.attr = v] *)
Definition setattr (l : loc) (upd : O → O) : M unit :=
  λ h, match h !! l with
       | Some o => Some (tt, <[l := upd o]> h)
       | None => None
       end.
End heap.
Global Arguments M : clear implicits.
End Heap.

Declare Scope heap_scope.
Delimit Scope heap_scope with heap.
Notation "x ⇐ m ; k" := (Heap.bind m (λ x, k))
  (at level 20, m at level 100, k at level 200, only parsing) : heap_scope.
Notation "m ;;; k" := (Heap.bind m (λ _, k))
  (at level 100, k at level 200, right associativity, only parsing) : heap_scope.

(** ** The image adapter *)

Module BoxDeliveryImageDataset.
Section defs.
Context `{Rounding} `{SamplerLib} `{NormalizerLib}.
Local Open Scope heap_scope.

(** The attributes of an instance. *)
Record t := mk {
  replay_buffer : ReplayBuffer;
  sampler : SequenceSampler;
  train_mask : list bool;
  horizon : Z;
  pad_before : Z;
  pad_after : Z
}.

Definition set_sampler (s : SequenceSampler) (o : t) : t :=
  {| replay_buffer := replay_buffer o; sampler := s;
     train_mask := train_mask o; horizon := horizon o;
     pad_before := pad_before o; pad_after := pad_after o |}.

Definition set_train_mask (m : list bool) (o : t) : t :=
  {| replay_buffer := replay_buffer o; sampler := sampler o;
     train_mask := m; horizon := horizon o;
     pad_before := pad_before o; pad_after := pad_after o |}.

(** The mask computed in [__init__], lines 28-36. *)
Definition init_train_mask (rb : ReplayBuffer) (seed : Z) (val_ratio : Q)
    (max_train_episodes : option Z) : option (list bool) :=
  val_mask ← get_val_mask (ReplayBuffer.n_episodes rb) val_ratio seed;
  let train_mask := invert val_mask in
  downsample_mask train_mask max_train_episodes seed.

(** [BoxDeliveryImageDataset(zarr_path, horizon, pad_before, pad_after,
    seed, val_ratio, max_train_episodes)]; [store] is what [zarr_path]
    holds. *)
Definition init (store : ReplayBuffer) (horizon pad_before pad_after seed : Z)
    (val_ratio : Q) (max_train_episodes : option Z) : Heap.M t Heap.loc :=
  rb ⇐ Heap.call (ReplayBuffer.copy_from_path store
                    ["img"; "state"; "action"]);
  train_mask ⇐ Heap.call (init_train_mask rb seed val_ratio
                            max_train_episodes);
  s ⇐ Heap.call (new_sampler rb horizon pad_before pad_after train_mask);
  Heap.new {| replay_buffer := rb; sampler := s; train_mask := train_mask;
              horizon := horizon; pad_before := pad_before;
              pad_after := pad_after |}.

Definition get_validation_dataset (self : Heap.loc) : Heap.M t Heap.loc :=
  val_set ⇐ Heap.copy self;
  rb ⇐ Heap.getattr self replay_buffer;
  h ⇐ Heap.getattr self horizon;
  pb ⇐ Heap.getattr self pad_before;
  pa ⇐ Heap.getattr self pad_after;
  m ⇐ Heap.getattr self train_mask;
  s ⇐ Heap.call (new_sampler rb h pb pa (invert m));
  Heap.setattr val_set (set_sampler s);;;
  m ⇐ Heap.getattr self train_mask;
  Heap.setattr val_set (set_train_mask (invert m));;;
  Heap.ret val_set.

(** The dictionary handed to [LinearNormalizer.fit]. *)
Definition normalizer_data (self : t) : option (nested ndarray) :=
  action ← ReplayBuffer.get (replay_buffer self) "action";
  state ← ReplayBuffer.get (replay_buffer self) "state";
  agent_pos ← NumPy.slice_last 2 state;
  Some (Dict (<["action" := Leaf action]>
             (<["agent_pos" := Leaf agent_pos]> ∅))).

Definition get_normalizer (self : t) (mode : string) (kw : kwargs)
    : option (gmap string field_normalizer) :=
  data ← normalizer_data self;
  let normalizer := ∅ in
  normalizer ← fit normalizer data 1 mode kw;
  let normalizer := <["image" := get_image_range_normalizer]> normalizer in
  Some normalizer.

(** [__len__] *)
Definition len (self : t) : nat := sampler_len (sampler self).

(** The invariant of the instances: the sampler is the one built over
    the instance's own buffer, windowing parameters and mask. *)
Definition sampler_consistent (self : t) : Prop :=
  new_sampler (replay_buffer self) (horizon self) (pad_before self)
    (pad_after self) (train_mask self) = Some (sampler self).

(** [_sample_to_data] *)
Definition sample_to_data (sample : gmap string ndarray)
    : option (nested ndarray) :=
  state ← sample !! "state";
  agent_pos ← NumPy.astype Float32 <$> NumPy.slice_axis1 2 state;
  img ← sample !! "img";
  moved ← NumPy.moveaxis_last_to_1 img;
  let image := NumPy.divide_scalar moved 255 in
  action ← sample !! "action";
  Some (Dict (<["obs" := Dict (<["image" := Leaf image]>
                               (<["agent_pos" := Leaf agent_pos]> ∅))]>
             (<["action" := Leaf (NumPy.astype Float32 action)]> ∅))).

(** [__getitem__] *)
Definition getitem (self : t) (idx : Z) : option (nested Tensor) :=
  sample ← sample_sequence (sampler self) idx;
  data ← sample_to_data sample;
  let torch_data := dict_apply torch.from_numpy data in
  Some torch_data.
End defs.
Global Arguments t {_}.
End BoxDeliveryImageDataset.

(** ** The low-dimensional adapter *)

Module BoxDeliveryLowdimDataset.
Section defs.
Context `{Rounding} `{SamplerLib} `{NormalizerLib}.
Local Open Scope heap_scope.

(** The attributes of an instance; [mask_key] is not among them. *)
Record t := mk {
  replay_buffer : ReplayBuffer;
  sampler : SequenceSampler;
  obs_key : string;
  state_key : string;
  action_key : string;
  train_mask : list bool;
  horizon : Z;
  pad_before : Z;
  pad_after : Z
}.

Definition set_sampler (s : SequenceSampler) (o : t) : t :=
  {| replay_buffer := replay_buffer o; sampler := s;
     obs_key := obs_key o; state_key := state_key o;
     action_key := action_key o;
     train_mask := train_mask o; horizon := horizon o;
     pad_before := pad_before o; pad_after := pad_after o |}.

Definition set_train_mask (m : list bool) (o : t) : t :=
  {| replay_buffer := replay_buffer o; sampler := sampler o;
     obs_key := obs_key o; state_key := state_key o;
     action_key := action_key o;
     train_mask := m; horizon := horizon o;
     pad_before := pad_before o; pad_after := pad_after o |}.

(** The mask computed in [__init__], lines 111-119. *)
Definition init_train_mask (rb : ReplayBuffer) (seed : Z) (val_ratio : Q)
    (max_train_episodes : option Z) : option (list bool) :=
  val_mask ← get_val_mask (ReplayBuffer.n_episodes rb) val_ratio seed;
  let train_mask := invert val_mask in
  downsample_mask train_mask max_train_episodes seed.

(** [BoxDeliveryLowdimDataset(zarr_path, horizon, pad_before, pad_after,
    obs_key, state_key, action_key, mask_key, seed, val_ratio,
    max_train_episodes)]; [store] is what [zarr_path] holds. *)
Definition init (store : ReplayBuffer) (horizon pad_before pad_after : Z)
    (obs_key state_key action_key mask_key : string) (seed : Z)
    (val_ratio : Q) (max_train_episodes : option Z) : Heap.M t Heap.loc :=
  rb ⇐ Heap.call (ReplayBuffer.copy_from_path store
                    [obs_key; state_key; action_key; mask_key]);
  train_mask ⇐ Heap.call (init_train_mask rb seed val_ratio
                            max_train_episodes);
  s ⇐ Heap.call (new_sampler rb horizon pad_before pad_after train_mask);
  Heap.new {| replay_buffer := rb; sampler := s;
              obs_key := obs_key; state_key := state_key;
              action_key := action_key; train_mask := train_mask;
              horizon := horizon; pad_before := pad_before;
              pad_after := pad_after |}.

Definition get_validation_dataset (self : Heap.loc) : Heap.M t Heap.loc :=
  val_set ⇐ Heap.copy self;
  rb ⇐ Heap.getattr self replay_buffer;
  h ⇐ Heap.getattr self horizon;
  pb ⇐ Heap.getattr self pad_before;
  pa ⇐ Heap.getattr self pad_after;
  m ⇐ Heap.getattr self train_mask;
  s ⇐ Heap.call (new_sampler rb h pb pa (invert m));
  Heap.setattr val_set (set_sampler s);;;
  m ⇐ Heap.getattr self train_mask;
  Heap.setattr val_set (set_train_mask (invert m));;;
  Heap.ret val_set.

(** [_sample_to_data]; [sample] is a sampled window or the fields of the
    replay buffer, both are read with [sample[key]]. *)
Definition sample_to_data (self : t) (sample : gmap string ndarray)
    : option (nested ndarray) :=
  state ← sample !! obs_key self;
  goal ← sample !! state_key self;
  flat ← NumPy.reshape_rows state;
  obs ← NumPy.concatenate_last flat goal;
  action ← sample !! action_key self;
  Some (Dict (<["obs" := Leaf obs]> (<["action" := Leaf action]> ∅))).

Definition get_normalizer (self : t) (mode : string) (kw : kwargs)
    : option (gmap string field_normalizer) :=
  data ← sample_to_data self (rb_data (replay_buffer self));
  let normalizer := ∅ in
  fit normalizer data 1 mode kw.

Definition get_all_actions (self : t) : option Tensor :=
  torch.from_numpy <$> ReplayBuffer.get (replay_buffer self) (action_key self).

(** [__len__] *)
Definition len (self : t) : nat := sampler_len (sampler self).

(** The invariant of the instances: the sampler is the one built over
    the instance's own buffer, windowing parameters and mask. *)
Definition sampler_consistent (self : t) : Prop :=
  new_sampler (replay_buffer self) (horizon self) (pad_before self)
    (pad_after self) (train_mask self) = Some (sampler self).

(** [__getitem__] *)
Definition getitem (self : t) (idx : Z) : option (nested Tensor) :=
  sample ← sample_sequence (sampler self) idx;
  data ← sample_to_data self sample;
  let torch_data := dict_apply torch.from_numpy data in
  Some torch_data.
End defs.
Global Arguments t {_}.
End BoxDeliveryLowdimDataset.

(** ** Contracts of the external collaborators *)

(** Number of episodes a mask selects. *)
Definition n_selected (mask : list bool) : nat := length (filter Is_true mask).

(** [downsample_mask] only drops episodes, and keeps at most [max_n] when a
    bound is given. *)
Class DownsampleContract `{SamplerLib} := {
  downsample_subset mask max_n seed mask' i :
    downsample_mask mask max_n seed = Some mask' →
    mask' !! i = Some true → mask !! i = Some true;
  downsample_bound mask n seed mask' :
    downsample_mask mask (Some n) seed = Some mask' →
    (Z.of_nat (n_selected mask') ≤ n)%Z
}.

(** Every element of a sampled window is an element of the stored field of
    the same name: windows are cut out of the store and padded by
    repetition. *)
Class SamplerValues `{SamplerLib} :=
  sample_values rb len pb pa mask s idx w k a :
    new_sampler rb len pb pa mask = Some s →
    sample_sequence s idx = Some w →
    w !! k = Some a →
    ∃ b, rb_data rb !! k = Some b ∧ arr_data a ⊆ arr_data b.

(** Two buffers with the same episodes and the same fields, equal except for
    the elements of field [key]. *)
Definition same_except (key : string) (rb1 rb2 : ReplayBuffer) : Prop :=
  episode_ends rb1 = episode_ends rb2 ∧
  (∀ k, k ≠ key → rb_data rb1 !! k = rb_data rb2 !! k) ∧
  option_Forall2
    (λ a b, arr_dtype a = arr_dtype b ∧ arr_shape a = arr_shape b)
    (rb_data rb1 !! key) (rb_data rb2 !! key).

(** The sampler treats the fields independently: the elements of one field
    decide neither whether a sampler can be built, nor how many windows it
    has, nor whether a window can be drawn, nor what the window holds for
    another field. *)
Class SamplerFrame `{SamplerLib} := {
  new_sampler_frame key rb1 rb2 len pb pa mask :
    same_except key rb1 rb2 →
    is_Some (new_sampler rb1 len pb pa mask) ↔
    is_Some (new_sampler rb2 len pb pa mask);
  sampler_len_frame key rb1 rb2 len pb pa mask s1 s2 :
    same_except key rb1 rb2 →
    new_sampler rb1 len pb pa mask = Some s1 →
    new_sampler rb2 len pb pa mask = Some s2 →
    sampler_len s1 = sampler_len s2;
  sample_sequence_frame key rb1 rb2 len pb pa mask s1 s2 idx :
    same_except key rb1 rb2 →
    new_sampler rb1 len pb pa mask = Some s1 →
    new_sampler rb2 len pb pa mask = Some s2 →
    option_Forall2 (λ w1 w2 : gmap string ndarray,
                      ∀ k, k ≠ key → w1 !! k = w2 !! k)
                   (sample_sequence s1 idx) (sample_sequence s2 idx)
}.

(** ** A reference instance of the collaborators

    A small executable instance of the interfaces above, on which the
    statements below are run on concrete stores. *)
Module Reference.

(** Fixed-point stand-in for the floating-point types: 24 and 53
    fractional bits, rounding downwards; the other types are exact. *)
Definition fraction_bits (dt : dtype) : option Z :=
  match dt with
  | Float32 => Some 24%Z
  | Float64 => Some 53%Z
  | _ => None
  end.

Definition to_grid (bits : Z) (x : Q) : Q :=
  (inject_Z (Qfloor (x * inject_Z (2 ^ bits))) / inject_Z (2 ^ bits))%Q.

Definition rounding : Rounding := λ dt x,
  match fraction_bits dt with
  | Some bits => to_grid bits x
  | None => x
  end.

(** Modelled from the spec: [get_val_mask(n_episodes, val_ratio, seed)] is
    a boolean mask over episodes, deterministic given a seed and ratio.
    Here the validation episodes are a run of consecutive episodes that
    starts at [seed mod n_episodes]; at least one episode is left for
    training. *)
Definition ref_get_val_mask (n : nat) (val_ratio : Q) (seed : Z)
    : option (list bool) :=
  if Qle_bool val_ratio 0 then Some (replicate n false)
  else if decide (n = 0) then None
  else
    let want := Qfloor (inject_Z (Z.of_nat n) * val_ratio + (1 # 2))%Q in
    let n_val := Z.min (Z.max 1 want) (Z.of_nat n - 1) in
    Some ((λ i, bool_decide (((Z.of_nat i - seed) `mod` Z.of_nat n) < n_val)%Z)
            <$> seq 0 n).

(** Keep the first [n] selected episodes of a mask. *)
Fixpoint keep_first (n : nat) (mask : list bool) : list bool :=
  match mask with
  | [] => []
  | false :: mask' => false :: keep_first n mask'
  | true :: mask' =>
      match n with
      | 0 => false :: keep_first 0 mask'
      | S n' => true :: keep_first n' mask'
      end
  end.

(** Modelled from the spec: [downsample_mask(mask, max_n, seed)] reduces
    the train mask to a maximum episode count, deterministically. *)
Definition ref_downsample_mask (mask : list bool) (max_n : option Z) (seed : Z)
    : option (list bool) :=
  match max_n with
  | None => Some mask
  | Some n =>
      if decide (Z.of_nat (n_selected mask) ≤ n)%Z then Some mask
      else if decide (n < 0)%Z then None
      else Some (keep_first (Z.to_nat n) mask)
  end.

(** A window: the timestep it starts at (before the episode when padded)
    and the episode [first, stop) it is cut from. *)
Record window := mkWindow { w_start : Z; w_first : nat; w_stop : nat }.

(** Modelled from the spec: [SequenceSampler] yields fixed-length, padded
    sub-sequences indexed by a linear index, respecting an episode
    inclusion mask. *)
Record ref_sampler := mkSampler {
  rs_buffer : ReplayBuffer;
  rs_length : nat;
  rs_windows : list window
}.

(** The windows of the selected episodes, episode by episode. *)
Fixpoint create_windows (first : nat) (ends : list nat) (mask : list bool)
    (len : nat) (pb pa : Z) : list window :=
  match ends, mask with
  | stop :: ends', selected :: mask' =>
      let lo := (Z.of_nat first - pb)%Z in
      let hi := (Z.of_nat stop - Z.of_nat len + pa)%Z in
      let here :=
        if selected
        then (λ i, mkWindow (lo + Z.of_nat i) first stop)
               <$> seq 0 (Z.to_nat (hi - lo + 1))
        else [] in
      here ++ create_windows stop ends' mask' len pb pa
  | _, _ => []
  end.

Definition clip (lo hi x : Z) : Z := Z.min (Z.max x lo) hi.

Definition ref_new_sampler (rb : ReplayBuffer) (len pb pa : Z)
    (mask : list bool) : option ref_sampler :=
  if decide (1 ≤ len)%Z then
    let pb := clip 0 (len - 1) pb in
    let pa := clip 0 (len - 1) pa in
    Some {| rs_buffer := rb;
            rs_length := Z.to_nat len;
            rs_windows := create_windows 0 (episode_ends rb) mask
                            (Z.to_nat len) pb pa |}
  else None.

(** Timestep read at position [j] of a window: outside the episode the
    first or last timestep is repeated. *)
Definition timestep (w : window) (j : nat) : nat :=
  Z.to_nat (clip (Z.of_nat (w_first w)) (Z.of_nat (w_stop w) - 1)
                 (w_start w + Z.of_nat j)).

(** The window cut out of one field. *)
Definition cut (w : window) (len : nat) (a : ndarray) : ndarray :=
  let inner := NumPy.prod_list (tail (arr_shape a)) in
  {| arr_dtype := arr_dtype a;
     arr_shape := len :: tail (arr_shape a);
     arr_data := j ← seq 0 len;
                 take inner (drop (timestep w j * inner) (arr_data a)) |}.

Definition ref_sample_sequence (s : ref_sampler) (idx : Z)
    : option (gmap string ndarray) :=
  if decide (0 ≤ idx)%Z then
    w ← rs_windows s !! Z.to_nat idx;
    Some (cut w (rs_length s) <$> rb_data (rs_buffer s))
  else None.

Definition sampler_lib : SamplerLib := {|
  get_val_mask := ref_get_val_mask;
  downsample_mask := ref_downsample_mask;
  SequenceSampler := ref_sampler;
  new_sampler := ref_new_sampler;
  sampler_len s := length (rs_windows s);
  sample_sequence := ref_sample_sequence
|}.

Definition list_min (l : list Q) : Q := foldr Qmin (default 0%Q (head l)) l.
Definition list_max (l : list Q) : Q := foldr Qmax (default 0%Q (head l)) l.

(** Scale and offset that send the observed range of a field to [-1, 1]. *)
Definition fit_field (x : nested ndarray) : Q * Q :=
  match x with
  | Leaf a =>
      let lo := list_min (arr_data a) in
      let hi := list_max (arr_data a) in
      let scale := if Qeq_bool lo hi then 1%Q else (2 / (hi - lo))%Q in
      (scale, (- 1 - scale * lo)%Q)
  | Dict _ => (1%Q, 0%Q)
  end.

(** Modelled from the spec: [LinearNormalizer.fit] fits a per-feature
    affine normalization and [get_image_range_normalizer] is a fixed-range
    normalizer, not fit from data. *)
Definition normalizer_lib : NormalizerLib := {|
  field_normalizer := Q * Q;
  kwargs := unit;
  fit normalizer data last_n_dims mode kw :=
    match data with
    | Dict d => Some ((fit_field <$> d) ∪ normalizer)
    | Leaf _ => Some (<["_default" := fit_field data]> normalizer)
    end;
  get_image_range_normalizer := (2%Q, (-1)%Q)
|}.

(** A store with two episodes of two and one timesteps: 1x1 RGB images,
    five state columns and two action columns. *)
Definition image_store : ReplayBuffer :=
  {| rb_data :=
       <["img" := NDArray UInt8 [3; 1; 1; 3]
                    [0; 128; 255; 10; 20; 30; 255; 255; 0]%Q]>
       (<["state" := NDArray Float64 [3; 5]
                       [1; 2; 3; 4; 5; 6; 7; 8; 9; 10; 11; 12; 13; 14; 15]%Q]>
       (<["action" := NDArray Float64 [3; 2] [1 # 2; 1 # 3; 0; 1; 2; 3]%Q]> ∅));
     episode_ends := [2; 3] |}.

(** The same store with a single state column. *)
Definition narrow_store : ReplayBuffer :=
  {| rb_data := <["state" := NDArray Float64 [3; 1] [1; 2; 3]%Q]>
                  (rb_data image_store);
     episode_ends := [2; 3] |}.

(** A store for the low-dimensional adapter: two boxes with two
    coordinates each as observation, a goal of three numbers. *)
Definition lowdim_store (valid : list Q) : ReplayBuffer :=
  {| rb_data :=
       <["valid_obs_mask" := NDArray Bool [3; 2] valid]>
       (<["state_positions" := NDArray Float64 [3; 2; 2]
                                 [1; 2; 3; 4; 5; 6; 7; 8; 9; 10; 11; 12]%Q]>
       (<["goal" := NDArray Float64 [3; 3] [0; 0; 1; 0; 1; 0; 1; 0; 0]%Q]>
       (<["action" := NDArray Float64 [3; 2] [1 # 2; 1 # 3; 0; 1; 2; 3]%Q]> ∅)));
     episode_ends := [2; 3] |}.

(** No further options for [fit]. *)
Definition no_kwargs : @kwargs normalizer_lib := tt.

(** The sampler with windows of length 2 and one step of padding on
    either side. *)
Definition sampler_over (store : ReplayBuffer) (mask : list bool)
    : ref_sampler :=
  {| rs_buffer := store; rs_length := 2;
     rs_windows := create_windows 0 (episode_ends store) mask 2 1 1 |}.

(** The image dataset that [__init__] builds over [store] with
    [horizon = 2], [pad_before = pad_after = 1] and train mask [mask]. *)
Definition image_dataset (store : ReplayBuffer) (mask : list bool)
    : @BoxDeliveryImageDataset.t sampler_lib :=
  @BoxDeliveryImageDataset.mk sampler_lib store (sampler_over store mask)
    mask 2 1 1.

(** The same for the low-dimensional adapter with its default keys. *)
Definition lowdim_dataset (store : ReplayBuffer) (mask : list bool)
    : @BoxDeliveryLowdimDataset.t sampler_lib :=
  @BoxDeliveryLowdimDataset.mk sampler_lib store (sampler_over store mask)
    "state_positions" "goal" "action" mask 2 1 1.

End Reference.

(** [downsample_mask] returns a mask over the same episodes. *)
Class DownsampleLength `{SamplerLib} :=
  downsample_length mask max_n seed mask' :
    downsample_mask mask max_n seed = Some mask' →
    length mask' = length mask.

(** ** Elements by index *)

Module Indexing.

(** Offset of the element with index [idx] in the row-major buffer of an
    array of shape [shape]: the stride of an axis is the product of the
    axes after it. *)
Fixpoint ravel (shape idx : list nat) : nat :=
  match shape, idx with
  | _ :: shape', i :: idx' => i * NumPy.prod_list shape' + ravel shape' idx'
  | _, _ => 0
  end.

(** One index per axis, each below the length of its axis. *)
Definition in_bounds (shape idx : list nat) : Prop := Forall2 lt idx shape.

Global Instance in_bounds_dec shape idx : Decision (in_bounds shape idx).
Proof. unfold in_bounds. apply _. Defined.

(** The element at [idx], [IndexError] out of bounds. *)
Definition element (shape : list nat) (data : list Q) (idx : list nat)
    : option Q :=
  if decide (in_bounds shape idx) then data !! ravel shape idx else None.

(** [a[i0, .., ik]] for non-negative indices. *)
Definition array_at (a : ndarray) (idx : list nat) : option Q :=
  element (arr_shape a) (arr_data a) idx.

(** [t[i0, .., ik]] for non-negative indices. *)
Definition tensor_at (t : Tensor) (idx : list nat) : option Q :=
  element (t_shape t) (t_data t) idx.

(** What conversion to [dt] does to one element of type [src]. *)
Definition cast `{Rounding} (src dt : dtype) (x : Q) : Q :=
  if decide (src = dt) then x else round dt x.

End Indexing.

(** ** Datasets a program can build *)

(** The heaps of image datasets that arise from the empty heap by
    constructing datasets and deriving validation views. *)
Inductive image_reachable `{SamplerLib}
    : gmap Heap.loc BoxDeliveryImageDataset.t → Prop :=
  | image_reach_empty : image_reachable ∅
  | image_reach_init h store horizon pad_before pad_after seed val_ratio
        max_train_episodes l h' :
      image_reachable h →
      BoxDeliveryImageDataset.init store horizon pad_before pad_after seed
        val_ratio max_train_episodes h = Some (l, h') →
      image_reachable h'
  | image_reach_validation h self val_set h' :
      image_reachable h →
      BoxDeliveryImageDataset.get_validation_dataset self h
        = Some (val_set, h') →
      image_reachable h'.

(** The same for the low-dimensional adapter. *)
Inductive lowdim_reachable `{SamplerLib}
    : gmap Heap.loc BoxDeliveryLowdimDataset.t → Prop :=
  | lowdim_reach_empty : lowdim_reachable ∅
  | lowdim_reach_init h store horizon pad_before pad_after obs_key state_key
        action_key mask_key seed val_ratio max_train_episodes l h' :
      lowdim_reachable h →
      BoxDeliveryLowdimDataset.init store horizon pad_before pad_after obs_key
        state_key action_key mask_key seed val_ratio max_train_episodes h
        = Some (l, h') →
      lowdim_reachable h'
  | lowdim_reach_validation h self val_set h' :
      lowdim_reachable h →
      BoxDeliveryLowdimDataset.get_validation_dataset self h
        = Some (val_set, h') →
      lowdim_reachable h'.

(** * Properties *)

(** ** Objects and attribute assignment *)

Section heap_facts.
Context {O : Type}.
Implicit Types (h : gmap Heap.loc O) (l : Heap.loc) (o : O).

Lemma fresh_loc_unused h : h !! fresh (dom h) = None.
Proof. apply not_elem_of_dom, is_fresh. Qed.

Lemma fresh_loc_ne h l o : h !! l = Some o → fresh (dom h) ≠ l.
Proof. intros Hl Heq. rewrite <- Heq, fresh_loc_unused in Hl. done. Qed.

Lemma copy_run h l o :
  h !! l = Some o →
  Heap.copy l h = Some (fresh (dom h), <[fresh (dom h) := o]> h).
Proof. intros Hl. unfold Heap.copy, Heap.new. by rewrite Hl. Qed.

Lemma getattr_run {A} h l o (attr : O → A) :
  h !! l = Some o → Heap.getattr l attr h = Some (attr o, h).
Proof. intros Hl. unfold Heap.getattr. by rewrite Hl. Qed.

Lemma setattr_run h l o (upd : O → O) :
  h !! l = Some o → Heap.setattr l upd h = Some (tt, <[l := upd o]> h).
Proof. intros Hl. unfold Heap.setattr. by rewrite Hl. Qed.
End heap_facts.

(** ** Masks *)

Section masks.
Implicit Types mask : list bool.

Lemma invert_involutive mask : invert (invert mask) = mask.
Proof.
  unfold invert. induction mask as [|b mask IH]; [done|].
  rewrite !fmap_cons, IH. by destruct b.
Qed.

Lemma invert_lookup mask i : invert mask !! i = negb <$> mask !! i.
Proof. apply list_lookup_fmap. Qed.

Lemma invert_length mask : length (invert mask) = length mask.
Proof. apply length_fmap. Qed.

End masks.

(** Runs the next read, write or copy of a heap computation whose [bind]s
    are unfolded. *)
Ltac heap_step :=
  match goal with
  | |- context [Heap.getattr ?l ?f ?h] =>
      erewrite (getattr_run h l _ f) by (simplify_map_eq; done)
  | |- context [Heap.setattr ?l ?f ?h] =>
      erewrite (setattr_run h l _ f) by (simplify_map_eq; done)
  | |- context [Heap.copy ?l ?h] =>
      erewrite (copy_run h l) by (simplify_map_eq; done)
  end; cbv beta iota.

Section image_validation_view.
Context `{SamplerLib}.
Import BoxDeliveryImageDataset.

(** What [get_validation_dataset] of the image adapter does to the heap. *)
Lemma image_get_validation_dataset_run (h : gmap Heap.loc t) self ds :
  h !! self = Some ds →
  get_validation_dataset self h =
    (s ← new_sampler (replay_buffer ds) (horizon ds) (pad_before ds)
           (pad_after ds) (invert (train_mask ds));
     Some (fresh (dom h),
           <[fresh (dom h) := set_train_mask (invert (train_mask ds))
                                (set_sampler s ds)]> h)).
Proof.
  intros Hself. pose proof (fresh_loc_ne _ _ _ Hself) as Hne.
  unfold get_validation_dataset, Heap.bind, Heap.ret, Heap.call.
  repeat heap_step.
  destruct (new_sampler _ _ _ _ _) as [s|]; cbn [mbind option_bind]; [|done].
  repeat heap_step.
  by rewrite !insert_insert_eq.
Qed.
End image_validation_view.

Section lowdim_validation_view.
Context `{SamplerLib}.
Import BoxDeliveryLowdimDataset.

(** The same for the low-dimensional adapter. *)
Lemma lowdim_get_validation_dataset_run (h : gmap Heap.loc t) self ds :
  h !! self = Some ds →
  get_validation_dataset self h =
    (s ← new_sampler (replay_buffer ds) (horizon ds) (pad_before ds)
           (pad_after ds) (invert (train_mask ds));
     Some (fresh (dom h),
           <[fresh (dom h) := set_train_mask (invert (train_mask ds))
                                (set_sampler s ds)]> h)).
Proof.
  intros Hself. pose proof (fresh_loc_ne _ _ _ Hself) as Hne.
  unfold get_validation_dataset, Heap.bind, Heap.ret, Heap.call.
  repeat heap_step.
  destruct (new_sampler _ _ _ _ _) as [s|]; cbn [mbind option_bind]; [|done].
  repeat heap_step.
  by rewrite !insert_insert_eq.
Qed.
End lowdim_validation_view.

Lemma invert_partition mask : partition_masks mask (invert mask).
Proof.
  split; [by rewrite invert_length|].
  intros i a b Ha. rewrite invert_lookup, Ha. intros [= <-]. by destruct a.
Qed.

(** C1. For a dataset object of either adapter, [get_validation_dataset]
    returns a new object whose [train_mask] is the element-wise complement of
    the caller's, so that the two masks are disjoint and cover all episodes;
    the caller, and every other object, is as it was before the call.  The
    call fails only when the sampler over the complement cannot be built. *)
Theorem get_validation_dataset_complement `{SamplerLib} :
  (∀ (h : gmap Heap.loc BoxDeliveryImageDataset.t) self ds,
     h !! self = Some ds →
     match BoxDeliveryImageDataset.get_validation_dataset self h with
     | Some (val_set, h') =>
         val_set ≠ self ∧ h !! val_set = None ∧
         h' !! self = Some ds ∧
         (∀ l, l ≠ val_set → h' !! l = h !! l) ∧
         ∃ vs, h' !! val_set = Some vs ∧
               BoxDeliveryImageDataset.train_mask vs
                 = invert (BoxDeliveryImageDataset.train_mask ds) ∧
               partition_masks (BoxDeliveryImageDataset.train_mask ds)
                               (BoxDeliveryImageDataset.train_mask vs)
     | None =>
         new_sampler (BoxDeliveryImageDataset.replay_buffer ds)
           (BoxDeliveryImageDataset.horizon ds)
           (BoxDeliveryImageDataset.pad_before ds)
           (BoxDeliveryImageDataset.pad_after ds)
           (invert (BoxDeliveryImageDataset.train_mask ds)) = None
     end) ∧
  (∀ (h : gmap Heap.loc BoxDeliveryLowdimDataset.t) self ds,
     h !! self = Some ds →
     match BoxDeliveryLowdimDataset.get_validation_dataset self h with
     | Some (val_set, h') =>
         val_set ≠ self ∧ h !! val_set = None ∧
         h' !! self = Some ds ∧
         (∀ l, l ≠ val_set → h' !! l = h !! l) ∧
         ∃ vs, h' !! val_set = Some vs ∧
               BoxDeliveryLowdimDataset.train_mask vs
                 = invert (BoxDeliveryLowdimDataset.train_mask ds) ∧
               partition_masks (BoxDeliveryLowdimDataset.train_mask ds)
                               (BoxDeliveryLowdimDataset.train_mask vs)
     | None =>
         new_sampler (BoxDeliveryLowdimDataset.replay_buffer ds)
           (BoxDeliveryLowdimDataset.horizon ds)
           (BoxDeliveryLowdimDataset.pad_before ds)
           (BoxDeliveryLowdimDataset.pad_after ds)
           (invert (BoxDeliveryLowdimDataset.train_mask ds)) = None
     end).
Proof.
  split; intros h self ds Hself.
  - rewrite (image_get_validation_dataset_run h self ds Hself).
    destruct (new_sampler _ _ _ _ _) as [s|]; cbn; [|done].
    pose proof (fresh_loc_ne _ _ _ Hself) as Hne.
    repeat split.
    + done.
    + apply fresh_loc_unused.
    + by rewrite lookup_insert_ne.
    + intros l Hl. by rewrite lookup_insert_ne.
    + eexists. rewrite lookup_insert_eq. split; [done|]. cbn.
      split; [done|]. apply invert_partition.
  - rewrite (lowdim_get_validation_dataset_run h self ds Hself).
    destruct (new_sampler _ _ _ _ _) as [s|]; cbn; [|done].
    pose proof (fresh_loc_ne _ _ _ Hself) as Hne.
    repeat split.
    + done.
    + apply fresh_loc_unused.
    + by rewrite lookup_insert_ne.
    + intros l Hl. by rewrite lookup_insert_ne.
    + eexists. rewrite lookup_insert_eq. split; [done|]. cbn.
      split; [done|]. apply invert_partition.
Qed.

(** C10. Deriving the validation view of a validation view gives back the
    original mask: the second view has the [train_mask] of the dataset one
    started from and a sampler built over that mask with the same replay
    buffer, [horizon], [pad_before] and [pad_after]; the second call fails
    only when that sampler cannot be built. *)
Theorem get_validation_dataset_twice `{SamplerLib} :
  (∀ (h : gmap Heap.loc BoxDeliveryImageDataset.t) self ds val_set h1,
     h !! self = Some ds →
     BoxDeliveryImageDataset.get_validation_dataset self h = Some (val_set, h1) →
     let again :=
       new_sampler (BoxDeliveryImageDataset.replay_buffer ds)
         (BoxDeliveryImageDataset.horizon ds)
         (BoxDeliveryImageDataset.pad_before ds)
         (BoxDeliveryImageDataset.pad_after ds)
         (BoxDeliveryImageDataset.train_mask ds) in
     match BoxDeliveryImageDataset.get_validation_dataset val_set h1 with
     | Some (back, h2) =>
         ∃ bs, h2 !! back = Some bs ∧
               BoxDeliveryImageDataset.train_mask bs
                 = BoxDeliveryImageDataset.train_mask ds ∧
               again = Some (BoxDeliveryImageDataset.sampler bs) ∧
               BoxDeliveryImageDataset.replay_buffer bs
                 = BoxDeliveryImageDataset.replay_buffer ds ∧
               BoxDeliveryImageDataset.horizon bs
                 = BoxDeliveryImageDataset.horizon ds ∧
               BoxDeliveryImageDataset.pad_before bs
                 = BoxDeliveryImageDataset.pad_before ds ∧
               BoxDeliveryImageDataset.pad_after bs
                 = BoxDeliveryImageDataset.pad_after ds
     | None => again = None
     end) ∧
  (∀ (h : gmap Heap.loc BoxDeliveryLowdimDataset.t) self ds val_set h1,
     h !! self = Some ds →
     BoxDeliveryLowdimDataset.get_validation_dataset self h = Some (val_set, h1) →
     let again :=
       new_sampler (BoxDeliveryLowdimDataset.replay_buffer ds)
         (BoxDeliveryLowdimDataset.horizon ds)
         (BoxDeliveryLowdimDataset.pad_before ds)
         (BoxDeliveryLowdimDataset.pad_after ds)
         (BoxDeliveryLowdimDataset.train_mask ds) in
     match BoxDeliveryLowdimDataset.get_validation_dataset val_set h1 with
     | Some (back, h2) =>
         ∃ bs, h2 !! back = Some bs ∧
               BoxDeliveryLowdimDataset.train_mask bs
                 = BoxDeliveryLowdimDataset.train_mask ds ∧
               again = Some (BoxDeliveryLowdimDataset.sampler bs) ∧
               BoxDeliveryLowdimDataset.replay_buffer bs
                 = BoxDeliveryLowdimDataset.replay_buffer ds ∧
               BoxDeliveryLowdimDataset.horizon bs
                 = BoxDeliveryLowdimDataset.horizon ds ∧
               BoxDeliveryLowdimDataset.pad_before bs
                 = BoxDeliveryLowdimDataset.pad_before ds ∧
               BoxDeliveryLowdimDataset.pad_after bs
                 = BoxDeliveryLowdimDataset.pad_after ds
     | None => again = None
     end).
Proof.
  split; intros h self ds val_set h1 Hself Hfirst again; subst again.
  - rewrite (image_get_validation_dataset_run h self ds Hself) in Hfirst.
    destruct (new_sampler _ _ _ _ (invert _)) as [s|]; [|done].
    injection Hfirst as <- <-.
    erewrite image_get_validation_dataset_run by apply lookup_insert_eq.
    cbn. rewrite invert_involutive.
    destruct (new_sampler _ _ _ _ _) as [s'|]; cbn; [|done].
    eexists. rewrite lookup_insert_eq. by repeat split.
  - rewrite (lowdim_get_validation_dataset_run h self ds Hself) in Hfirst.
    destruct (new_sampler _ _ _ _ (invert _)) as [s|]; [|done].
    injection Hfirst as <- <-.
    erewrite lowdim_get_validation_dataset_run by apply lookup_insert_eq.
    cbn. rewrite invert_involutive.
    destruct (new_sampler _ _ _ _ _) as [s'|]; cbn; [|done].
    eexists. rewrite lookup_insert_eq. by repeat split.
Qed.

(** ** Loading the replay buffer *)

Section copy_from_path.
Implicit Types (store rb : ReplayBuffer) (keys : list string).

Import ReplayBuffer.

Lemma load_failed store keys : foldl (load store) None keys = None.
Proof. by induction keys. Qed.

Lemma load_lookup store keys d0 d k :
  foldl (load store) (Some d0) keys = Some d →
  d !! k = if decide (k ∈ keys) then rb_data store !! k else d0 !! k.
Proof.
  revert d0. induction keys as [|k' keys IH]; intros d0; cbn.
  - intros [= <-]. by rewrite decide_False by apply not_elem_of_nil.
  - destruct (rb_data store !! k') as [a|] eqn:Hk'; cbn.
    + intros Hd. rewrite (IH _ Hd).
      destruct (decide (k ∈ keys)) as [Hin|Hin].
      * by rewrite decide_True by (by right).
      * destruct (decide (k = k')) as [->|Hne].
        -- rewrite decide_True by (by left). by rewrite lookup_insert_eq.
        -- rewrite decide_False by (by apply not_elem_of_cons).
           by rewrite lookup_insert_ne.
    + by rewrite load_failed.
Qed.

Lemma load_is_Some store keys d0 :
  is_Some (foldl (load store) (Some d0) keys) ↔
  Forall (λ k, is_Some (rb_data store !! k)) keys.
Proof.
  revert d0. induction keys as [|k' keys IH]; intros d0; cbn.
  - split; [constructor | eauto].
  - rewrite Forall_cons. destruct (rb_data store !! k') as [a|]; cbn.
    + rewrite IH. split; [eauto | tauto].
    + rewrite load_failed. split; [by intros [? [=]] | by intros [[? [=]] _]].
Qed.

(** The loaded buffer has the episodes of the store... *)
Lemma copy_from_path_episode_ends store keys rb :
  ReplayBuffer.copy_from_path store keys = Some rb →
  episode_ends rb = episode_ends store.
Proof.
  unfold ReplayBuffer.copy_from_path.
  destruct (foldl _ _ _); cbn; [|done]. by intros [= <-].
Qed.

(** ... and exactly the requested fields. *)
Lemma copy_from_path_lookup store keys rb k :
  ReplayBuffer.copy_from_path store keys = Some rb →
  rb_data rb !! k = if decide (k ∈ keys) then rb_data store !! k else None.
Proof.
  unfold ReplayBuffer.copy_from_path.
  destruct (foldl _ _ _) as [d|] eqn:Hd; cbn; [|done]. intros [= <-]. cbn.
  by rewrite (load_lookup _ _ _ _ k Hd), lookup_empty.
Qed.

Lemma copy_from_path_is_Some store keys :
  is_Some (ReplayBuffer.copy_from_path store keys) ↔
  Forall (λ k, is_Some (rb_data store !! k)) keys.
Proof.
  rewrite <- (load_is_Some store keys ∅).
  unfold ReplayBuffer.copy_from_path.
  destruct (foldl _ _ _); cbn; split; eauto; by intros [? [=]].
Qed.

Lemma copy_from_path_n_episodes store keys rb :
  ReplayBuffer.copy_from_path store keys = Some rb →
  ReplayBuffer.n_episodes rb = ReplayBuffer.n_episodes store.
Proof.
  intros Hrb. unfold ReplayBuffer.n_episodes.
  by rewrite (copy_from_path_episode_ends _ _ _ Hrb).
Qed.
End copy_from_path.

(** ** Construction *)

Section construction.
Context `{SamplerLib}.

(** The result of [__init__] of the image adapter. *)
Lemma image_init_run store horizon pad_before pad_after seed val_ratio
    max_train_episodes (h : gmap Heap.loc BoxDeliveryImageDataset.t) :
  BoxDeliveryImageDataset.init store horizon pad_before pad_after seed
    val_ratio max_train_episodes h =
  (rb ← ReplayBuffer.copy_from_path store ["img"; "state"; "action"];
   train_mask ← BoxDeliveryImageDataset.init_train_mask rb seed val_ratio
                  max_train_episodes;
   s ← new_sampler rb horizon pad_before pad_after train_mask;
   Some (fresh (dom h),
         <[fresh (dom h) :=
             BoxDeliveryImageDataset.mk rb s train_mask horizon pad_before
               pad_after]> h)).
Proof.
  unfold BoxDeliveryImageDataset.init, Heap.bind, Heap.call, Heap.new.
  destruct (ReplayBuffer.copy_from_path _ _) as [rb|]; cbn; [|done].
  destruct (BoxDeliveryImageDataset.init_train_mask _ _ _ _); cbn; [|done].
  by destruct (new_sampler _ _ _ _ _).
Qed.

(** The result of [__init__] of the low-dimensional adapter. *)
Lemma lowdim_init_run store horizon pad_before pad_after obs_key state_key
    action_key mask_key seed val_ratio max_train_episodes
    (h : gmap Heap.loc BoxDeliveryLowdimDataset.t) :
  BoxDeliveryLowdimDataset.init store horizon pad_before pad_after obs_key
    state_key action_key mask_key seed val_ratio max_train_episodes h =
  (rb ← ReplayBuffer.copy_from_path store
          [obs_key; state_key; action_key; mask_key];
   train_mask ← BoxDeliveryLowdimDataset.init_train_mask rb seed val_ratio
                  max_train_episodes;
   s ← new_sampler rb horizon pad_before pad_after train_mask;
   Some (fresh (dom h),
         <[fresh (dom h) :=
             BoxDeliveryLowdimDataset.mk rb s obs_key state_key action_key
               train_mask horizon pad_before pad_after]> h)).
Proof.
  unfold BoxDeliveryLowdimDataset.init, Heap.bind, Heap.call, Heap.new.
  destruct (ReplayBuffer.copy_from_path _ _) as [rb|]; cbn; [|done].
  destruct (BoxDeliveryLowdimDataset.init_train_mask _ _ _ _); cbn; [|done].
  by destruct (new_sampler _ _ _ _ _).
Qed.
End construction.

Section construction_inv.
Context `{SamplerLib}.

Lemma image_init_Some store horizon pad_before pad_after seed val_ratio
    max_train_episodes (h : gmap Heap.loc BoxDeliveryImageDataset.t) l h' :
  BoxDeliveryImageDataset.init store horizon pad_before pad_after seed
    val_ratio max_train_episodes h = Some (l, h') →
  ∃ rb train_mask s,
    ReplayBuffer.copy_from_path store ["img"; "state"; "action"] = Some rb ∧
    BoxDeliveryImageDataset.init_train_mask rb seed val_ratio
      max_train_episodes = Some train_mask ∧
    new_sampler rb horizon pad_before pad_after train_mask = Some s ∧
    h !! l = None ∧
    h' = <[l := BoxDeliveryImageDataset.mk rb s train_mask horizon
                  pad_before pad_after]> h.
Proof.
  rewrite image_init_run. intros Hinit.
  destruct (ReplayBuffer.copy_from_path _ _) as [rb|] eqn:Hrb; [|done].
  cbn in Hinit.
  destruct (BoxDeliveryImageDataset.init_train_mask _ _ _ _) as [m|] eqn:Hm; [|done].
  cbn in Hinit.
  destruct (new_sampler _ _ _ _ _) as [s|] eqn:Hs; [|done].
  injection Hinit as <- <-.
  exists rb, m, s. repeat split; try done. apply fresh_loc_unused.
Qed.

Lemma lowdim_init_Some store horizon pad_before pad_after obs_key state_key
    action_key mask_key seed val_ratio max_train_episodes
    (h : gmap Heap.loc BoxDeliveryLowdimDataset.t) l h' :
  BoxDeliveryLowdimDataset.init store horizon pad_before pad_after obs_key
    state_key action_key mask_key seed val_ratio max_train_episodes h
    = Some (l, h') →
  ∃ rb train_mask s,
    ReplayBuffer.copy_from_path store
      [obs_key; state_key; action_key; mask_key] = Some rb ∧
    BoxDeliveryLowdimDataset.init_train_mask rb seed val_ratio
      max_train_episodes = Some train_mask ∧
    new_sampler rb horizon pad_before pad_after train_mask = Some s ∧
    h !! l = None ∧
    h' = <[l := BoxDeliveryLowdimDataset.mk rb s obs_key state_key
                  action_key train_mask horizon pad_before pad_after]> h.
Proof.
  rewrite lowdim_init_run. intros Hinit.
  destruct (ReplayBuffer.copy_from_path _ _) as [rb|] eqn:Hrb; [|done].
  cbn in Hinit.
  destruct (BoxDeliveryLowdimDataset.init_train_mask _ _ _ _) as [m|] eqn:Hm; [|done].
  cbn in Hinit.
  destruct (new_sampler _ _ _ _ _) as [s|] eqn:Hs; [|done].
  injection Hinit as <- <-.
  exists rb, m, s. repeat split; try done. apply fresh_loc_unused.
Qed.
End construction_inv.

(** C4. The [train_mask] set up by [__init__] is determined by the number of
    episodes, [val_ratio], [seed] and [max_train_episodes]: two constructions
    of the same adapter with equal values for these yield the same mask,
    whatever the windowing parameters, the field names, the contents of the
    stores and the objects that exist already. *)
Theorem init_train_mask_deterministic `{SamplerLib} :
  (∀ store1 store2 horizon1 horizon2 pad_before1 pad_before2
     pad_after1 pad_after2 seed val_ratio max_train_episodes
     (h1 h2 : gmap Heap.loc BoxDeliveryImageDataset.t) l1 l2 h1' h2',
     ReplayBuffer.n_episodes store1 = ReplayBuffer.n_episodes store2 →
     BoxDeliveryImageDataset.init store1 horizon1 pad_before1 pad_after1 seed
       val_ratio max_train_episodes h1 = Some (l1, h1') →
     BoxDeliveryImageDataset.init store2 horizon2 pad_before2 pad_after2 seed
       val_ratio max_train_episodes h2 = Some (l2, h2') →
     ∃ ds1 ds2, h1' !! l1 = Some ds1 ∧ h2' !! l2 = Some ds2 ∧
                BoxDeliveryImageDataset.train_mask ds1
                  = BoxDeliveryImageDataset.train_mask ds2) ∧
  (∀ store1 store2 horizon1 horizon2 pad_before1 pad_before2
     pad_after1 pad_after2 obs_key1 obs_key2 state_key1 state_key2
     action_key1 action_key2 mask_key1 mask_key2
     seed val_ratio max_train_episodes
     (h1 h2 : gmap Heap.loc BoxDeliveryLowdimDataset.t) l1 l2 h1' h2',
     ReplayBuffer.n_episodes store1 = ReplayBuffer.n_episodes store2 →
     BoxDeliveryLowdimDataset.init store1 horizon1 pad_before1 pad_after1
       obs_key1 state_key1 action_key1 mask_key1 seed val_ratio
       max_train_episodes h1 = Some (l1, h1') →
     BoxDeliveryLowdimDataset.init store2 horizon2 pad_before2 pad_after2
       obs_key2 state_key2 action_key2 mask_key2 seed val_ratio
       max_train_episodes h2 = Some (l2, h2') →
     ∃ ds1 ds2, h1' !! l1 = Some ds1 ∧ h2' !! l2 = Some ds2 ∧
                BoxDeliveryLowdimDataset.train_mask ds1
                  = BoxDeliveryLowdimDataset.train_mask ds2).
Proof.
  split; intros until h2'; intros Hn Hinit1 Hinit2.
  - apply image_init_Some in Hinit1 as (rb1 & m1 & s1 & Hrb1 & Hm1 & _ & _ & ->).
    apply image_init_Some in Hinit2 as (rb2 & m2 & s2 & Hrb2 & Hm2 & _ & _ & ->).
    do 2 eexists. rewrite !lookup_insert_eq. repeat split. cbn.
    unfold BoxDeliveryImageDataset.init_train_mask in *.
    rewrite (copy_from_path_n_episodes _ _ _ Hrb1) in Hm1.
    rewrite (copy_from_path_n_episodes _ _ _ Hrb2), <- Hn in Hm2.
    congruence.
  - apply lowdim_init_Some in Hinit1 as (rb1 & m1 & s1 & Hrb1 & Hm1 & _ & _ & ->).
    apply lowdim_init_Some in Hinit2 as (rb2 & m2 & s2 & Hrb2 & Hm2 & _ & _ & ->).
    do 2 eexists. rewrite !lookup_insert_eq. repeat split. cbn.
    unfold BoxDeliveryLowdimDataset.init_train_mask in *.
    rewrite (copy_from_path_n_episodes _ _ _ Hrb1) in Hm1.
    rewrite (copy_from_path_n_episodes _ _ _ Hrb2), <- Hn in Hm2.
    congruence.
Qed.

(** C5. [__init__] of either adapter computes the train mask by inverting
    the mask of [get_val_mask] and passing the result through
    [downsample_mask] with [max_train_episodes] and [seed].  Under the
    contract of [downsample_mask], every episode of the train mask is
    outside the validation mask and, when [max_train_episodes] is given, at
    most that many episodes are selected. *)
Theorem init_train_mask_downsampled_complement {S : SamplerLib}
    {DC : DownsampleContract} :
  (∀ store horizon pad_before pad_after seed val_ratio max_train_episodes
     (h : gmap Heap.loc BoxDeliveryImageDataset.t) l h',
     BoxDeliveryImageDataset.init store horizon pad_before pad_after seed
       val_ratio max_train_episodes h = Some (l, h') →
     ∃ ds val_mask,
       h' !! l = Some ds ∧
       get_val_mask (ReplayBuffer.n_episodes store) val_ratio seed
         = Some val_mask ∧
       downsample_mask (invert val_mask) max_train_episodes seed
         = Some (BoxDeliveryImageDataset.train_mask ds) ∧
       (∀ i, BoxDeliveryImageDataset.train_mask ds !! i = Some true →
             val_mask !! i = Some false) ∧
       (∀ n, max_train_episodes = Some n →
             (Z.of_nat (n_selected (BoxDeliveryImageDataset.train_mask ds)) ≤ n)%Z)) ∧
  (∀ store horizon pad_before pad_after obs_key state_key action_key mask_key
     seed val_ratio max_train_episodes
     (h : gmap Heap.loc BoxDeliveryLowdimDataset.t) l h',
     BoxDeliveryLowdimDataset.init store horizon pad_before pad_after obs_key
       state_key action_key mask_key seed val_ratio max_train_episodes h
       = Some (l, h') →
     ∃ ds val_mask,
       h' !! l = Some ds ∧
       get_val_mask (ReplayBuffer.n_episodes store) val_ratio seed
         = Some val_mask ∧
       downsample_mask (invert val_mask) max_train_episodes seed
         = Some (BoxDeliveryLowdimDataset.train_mask ds) ∧
       (∀ i, BoxDeliveryLowdimDataset.train_mask ds !! i = Some true →
             val_mask !! i = Some false) ∧
       (∀ n, max_train_episodes = Some n →
             (Z.of_nat (n_selected (BoxDeliveryLowdimDataset.train_mask ds)) ≤ n)%Z)).
Proof.
  assert (Houtside : ∀ val_mask max_n seed mask i,
            downsample_mask (invert val_mask) max_n seed = Some mask →
            mask !! i = Some true → val_mask !! i = Some false).
  { intros val_mask max_n seed mask i Hdown Hi.
    pose proof (downsample_subset _ _ _ _ _ Hdown Hi) as Hinv.
    rewrite invert_lookup in Hinv.
    destruct (val_mask !! i) as [[]|]; by inversion Hinv. }
  split; intros until h'; intros Hinit.
  - apply image_init_Some in Hinit as (rb & m & s & Hrb & Hm & _ & _ & ->).
    unfold BoxDeliveryImageDataset.init_train_mask in Hm.
    rewrite (copy_from_path_n_episodes _ _ _ Hrb) in Hm.
    destruct (get_val_mask _ _ _) as [val_mask|]; [|done]. cbn in Hm.
    eexists _, val_mask. rewrite lookup_insert_eq. cbn.
    split; [done|]. split; [done|]. split; [done|]. split.
    + intros i. by eapply Houtside.
    + intros n ->. by eapply downsample_bound.
  - apply lowdim_init_Some in Hinit as (rb & m & s & Hrb & Hm & _ & _ & ->).
    unfold BoxDeliveryLowdimDataset.init_train_mask in Hm.
    rewrite (copy_from_path_n_episodes _ _ _ Hrb) in Hm.
    destruct (get_val_mask _ _ _) as [val_mask|]; [|done]. cbn in Hm.
    eexists _, val_mask. rewrite lookup_insert_eq. cbn.
    split; [done|]. split; [done|]. split; [done|]. split.
    + intros i. by eapply Houtside.
    + intros n ->. by eapply downsample_bound.
Qed.

(** ** Arrays *)

Section numpy_facts.
Import NumPy.

Lemma split_last_snoc lead d : split_last (lead ++ [d]) = Some (lead, d).
Proof.
  unfold split_last. by rewrite reverse_snoc, reverse_involutive.
Qed.

Lemma split_last_Some s lead d :
  split_last s = Some (lead, d) ↔ s = lead ++ [d].
Proof.
  split; [|intros ->; apply split_last_snoc].
  unfold split_last. destruct (reverse s) as [|d' r] eqn:Hr; [done|].
  intros [= <- <-]. rewrite <- (reverse_involutive s), Hr.
  by rewrite reverse_cons.
Qed.

Lemma split_last_None s : split_last s = None ↔ s = [].
Proof.
  unfold split_last. split; [|by intros ->].
  destruct (reverse s) as [|d r] eqn:Hr; [|done]. intros _.
  by rewrite <- (reverse_involutive s), Hr.
Qed.

Lemma prod_list_app l1 l2 : prod_list (l1 ++ l2) = prod_list l1 * prod_list l2.
Proof.
  unfold prod_list. induction l1 as [|x l1 IH]; cbn; [lia|].
  rewrite IH. lia.
Qed.

Section elements.
Context {A : Type} (P : A → Prop).

Lemma chunks_length n len (l : list A) : length (chunks n len l) = n.
Proof.
  revert l. induction n as [|n IH]; intros l; cbn; [done|]. by rewrite IH.
Qed.

Lemma chunks_Forall n len (l : list A) :
  Forall P l → Forall (Forall P) (chunks n len l).
Proof.
  revert l. induction n as [|n IH]; intros l Hl; cbn; constructor.
  - by apply Forall_take.
  - by apply IH, Forall_drop.
Qed.

Lemma transpose_flat_Forall rows cols (l : list A) :
  Forall P l → Forall P (transpose_flat rows cols l).
Proof.
  intros Hl. unfold transpose_flat.
  apply Forall_bind, Forall_forall. intros c _.
  apply Forall_bind, Forall_forall. intros r _. cbn.
  destruct (l !! (r * cols + c)) as [x|] eqn:Hx; cbn; [|constructor].
  repeat constructor. by eapply (Forall_lookup_1 P l).
Qed.

Lemma concat_fmap_Forall {B} (f : list A → list B) (Q : B → Prop)
    (ls : list (list A)) :
  (∀ l, Forall P l → Forall Q (f l)) →
  Forall (Forall P) ls → Forall Q (concat (f <$> ls)).
Proof.
  intros Hf Hls. apply Forall_concat.
  apply Forall_fmap. eapply Forall_impl; [done|]. intros l. apply Hf.
Qed.
End elements.

(** [moveaxis] permutes the elements and invents none. *)
Lemma moveaxis_last_to_1_Forall (P : Q → Prop) a b :
  moveaxis_last_to_1 a = Some b →
  Forall P (arr_data a) → Forall P (arr_data b).
Proof.
  unfold moveaxis_last_to_1. destruct (arr_shape a) as [|d0 rest]; [done|].
  destruct (split_last rest) as [[mid c]|]; cbn; [|done].
  intros [= <-] Ha. cbn.
  eapply concat_fmap_Forall; [|by apply chunks_Forall].
  intros l. apply transpose_flat_Forall.
Qed.

Lemma moveaxis_last_to_1_is_Some a :
  is_Some (moveaxis_last_to_1 a) ↔ 2 ≤ ndim a.
Proof.
  unfold moveaxis_last_to_1, ndim.
  destruct (arr_shape a) as [|d0 rest]; cbn.
  - split; [by intros [? [=]] | lia].
  - destruct (split_last rest) as [[mid c]|] eqn:Hrest; cbn.
    + apply split_last_Some in Hrest as ->. rewrite length_app. cbn.
      split; [lia | eauto].
    + apply split_last_None in Hrest as ->. cbn.
      split; [by intros [? [=]] | lia].
Qed.

Lemma slice_axis1_Some k a b :
  slice_axis1 k a = Some b →
  ∃ d0 d1 rest, arr_shape a = d0 :: d1 :: rest ∧
                arr_shape b = d0 :: Nat.min d1 k :: rest ∧
                arr_dtype b = arr_dtype a.
Proof.
  unfold slice_axis1. destruct (arr_shape a) as [|d0 [|d1 rest]]; try done.
  intros [= <-]. by exists d0, d1, rest.
Qed.

Lemma slice_axis1_is_Some k a : is_Some (slice_axis1 k a) ↔ 2 ≤ ndim a.
Proof.
  unfold slice_axis1, ndim. destruct (arr_shape a) as [|d0 [|d1 rest]]; cbn.
  - split; [by intros [? [=]] | lia].
  - split; [by intros [? [=]] | lia].
  - split; [lia | eauto].
Qed.

Lemma reshape_rows_Some a b :
  reshape_rows a = Some b ↔
  ∃ n rest, arr_shape a = S n :: rest ∧
            b = NDArray (arr_dtype a) [S n; prod_list rest] (arr_data a).
Proof.
  unfold reshape_rows, size. destruct (arr_shape a) as [|[|n] rest] eqn:Hs.
  - split; [done | by intros (? & ? & [=] & _)].
  - split; [done | by intros (? & ? & [=] & _)].
  - assert (prod_list (S n :: rest) `div` S n = prod_list rest) as ->.
    { change (prod_list (S n :: rest)) with (S n * prod_list rest).
      rewrite Nat.mul_comm. by apply Nat.div_mul. }
    split.
    + intros [= <-]. by exists n, rest.
    + by intros (? & ? & [= <- <-] & ->).
Qed.

Section with_rounding.
Context `{Rounding}.

Lemma concatenate_last_Some a b c :
  concatenate_last a b = Some c →
  ∃ lead da db, arr_shape a = lead ++ [da] ∧ arr_shape b = lead ++ [db] ∧
                arr_shape c = lead ++ [da + db] ∧
                arr_dtype c = promote_types (arr_dtype a) (arr_dtype b).
Proof.
  unfold concatenate_last.
  destruct (split_last (arr_shape a)) as [[lead_a da]|] eqn:Ha; [|done].
  destruct (split_last (arr_shape b)) as [[lead_b db]|] eqn:Hb; [|done].
  cbn. case_decide as Hlead; [|done]. subst lead_b. intros [= <-].
  apply split_last_Some in Ha, Hb. by exists lead_a, da, db.
Qed.

Lemma concatenate_last_is_Some a b :
  is_Some (concatenate_last a b) ↔
  ∃ lead da db, arr_shape a = lead ++ [da] ∧ arr_shape b = lead ++ [db].
Proof.
  split.
  - intros [c Hc]. apply concatenate_last_Some in Hc
      as (lead & da & db & ? & ? & _). by exists lead, da, db.
  - intros (lead & da & db & Ha & Hb). unfold concatenate_last.
    rewrite Ha, Hb, !split_last_snoc. cbn. rewrite decide_True by done. eauto.
Qed.
End with_rounding.

(** An element of magnitude at most [2^53] is its own operand. *)
Lemma true_divide_operand_exact `{Rounding} src (x : Q) :
  (Qabs x <= float64_exact)%Q → true_divide_operand src x = x.
Proof.
  intros Hx%Qle_bool_iff. unfold true_divide_operand.
  rewrite Hx. by destruct src.
Qed.

(** Division of values between 0 and [c] by [c] gives values between 0
    and 1, also after rounding. *)
Lemma divide_scalar_unit `{RoundingLaws} a (c : Q) :
  (0 < c)%Q → (c <= float64_exact)%Q →
  Forall (λ x, 0 <= x <= c)%Q (arr_data a) →
  Forall (λ x, 0 <= x <= 1)%Q (arr_data (divide_scalar a c)).
Proof.
  intros Hc Hc' Ha. cbn. apply Forall_fmap. eapply Forall_impl; [done|].
  intros x [Hlo Hhi]. cbn.
  rewrite true_divide_operand_exact
    by (rewrite Qabs_pos by done; by apply Qle_trans with c).
  set (dt := true_divide_dtype (arr_dtype a)). split.
  - apply Qle_trans with (round dt 0).
    + rewrite round_0. apply Qle_refl.
    + apply round_mono, Qle_shift_div_l; [done|]. by rewrite Qmult_0_l.
  - apply Qle_trans with (round dt 1).
    + apply round_mono, Qle_shift_div_r; [done|]. by rewrite Qmult_1_l.
    + rewrite round_1. apply Qle_refl.
Qed.
End numpy_facts.

(** ** Well-formed arrays

    The operations keep the number of elements equal to the product of the
    shape. *)

Section numpy_wf.
Import NumPy.

Lemma chunks_pieces {A} n len (l : list A) :
  length l = n * len → Forall (λ c, length c = len) (chunks n len l).
Proof.
  revert l. induction n as [|n IH]; intros l Hl; cbn; constructor.
  - rewrite length_take. lia.
  - apply IH. rewrite length_drop. lia.
Qed.

Lemma concat_pieces_length {A} k (ls : list (list A)) :
  Forall (λ c, length c = k) ls → length (concat ls) = length ls * k.
Proof.
  induction 1 as [|c ls Hc _ IH]; cbn; [done|].
  rewrite length_app, IH, Hc. lia.
Qed.

Lemma concat_fmap_length {A B} (f : list A → list B) len k n (l : list A) :
  (∀ c, length c = len → length (f c) = k) →
  length l = n * len →
  length (concat (f <$> chunks n len l)) = n * k.
Proof.
  intros Hf Hl. rewrite (concat_pieces_length k).
  - by rewrite length_fmap, chunks_length.
  - apply Forall_fmap. eapply Forall_impl; [by apply chunks_pieces|].
    intros c. apply Hf.
Qed.

Lemma bind_const_length {A B} (f : A → list B) k (l : list A) :
  (∀ x, x ∈ l → length (f x) = k) → length (l ≫= f) = length l * k.
Proof.
  induction l as [|x l IH]; intros Hf; cbn; [done|].
  rewrite length_app, IH, Hf; [lia|by left|].
  intros y Hy. apply Hf. by right.
Qed.

Lemma transpose_flat_length {A} rows cols (l : list A) :
  length l = rows * cols → length (transpose_flat rows cols l) = cols * rows.
Proof.
  intros Hl. unfold transpose_flat.
  rewrite (bind_const_length _ rows); [by rewrite length_seq|].
  intros c Hc%elem_of_seq.
  rewrite (bind_const_length _ 1); [rewrite length_seq; lia|].
  intros r Hr%elem_of_seq.
  destruct (lookup_lt_is_Some_2 l (r * cols + c)) as [x ->]; [nia|done].
Qed.

Lemma slice_axis1_wf k a b : slice_axis1 k a = Some b → wf a → wf b.
Proof.
  unfold slice_axis1, wf, size.
  destruct (arr_shape a) as [|d0 [|d1 rest]]; try done.
  intros [= <-] Ha. cbn in *.
  apply (concat_fmap_length _ (d1 * prod_list rest)); [|done].
  intros c Hc. rewrite length_take, Hc.
  apply Nat.min_l, Nat.mul_le_mono_r. lia.
Qed.

Lemma moveaxis_last_to_1_wf a b :
  moveaxis_last_to_1 a = Some b → wf a → wf b.
Proof.
  unfold moveaxis_last_to_1, wf, size.
  destruct (arr_shape a) as [|d0 rest]; [done|].
  destruct (split_last rest) as [[mid c]|] eqn:Hrest; cbn; [|done].
  apply split_last_Some in Hrest as ->. rewrite prod_list_app.
  intros [= <-] Ha. cbn in *. rewrite Nat.mul_1_r in Ha.
  apply (concat_fmap_length _ (prod_list mid * c)); [|done].
  intros l Hl. by apply transpose_flat_length.
Qed.

Lemma reshape_rows_wf a b : reshape_rows a = Some b → wf a → wf b.
Proof.
  intros (n & rest & Hs & ->)%reshape_rows_Some. unfold wf, size.
  rewrite Hs. cbn. fold (prod_list rest). lia.
Qed.

Section with_rounding.
Context `{Rounding}.

Lemma cast_data_length dt a : length (cast_data dt a) = length (arr_data a).
Proof. unfold cast_data. case_decide; [done|]. apply length_fmap. Qed.

Lemma astype_wf dt a : wf a → wf (astype dt a).
Proof. unfold wf, size. cbn. by rewrite cast_data_length. Qed.

Lemma divide_scalar_wf a c : wf a → wf (divide_scalar a c).
Proof. unfold wf, size. cbn. by rewrite length_fmap. Qed.

Lemma zip_with_app_pieces {A} ka kb (la lb : list (list A)) :
  length la = length lb →
  Forall (λ c, length c = ka) la → Forall (λ c, length c = kb) lb →
  Forall (λ c, length c = ka + kb) (zip_with app la lb).
Proof.
  intros Hlen Ha. revert lb Hlen.
  induction Ha as [|x la Hx _ IH]; intros [|y lb]; cbn; try done.
  intros [= Hlen] [Hy Hb]%Forall_cons. constructor; [|by apply IH].
  rewrite length_app. lia.
Qed.

Lemma concatenate_last_wf a b c :
  concatenate_last a b = Some c → wf a → wf b → wf c.
Proof.
  unfold concatenate_last, wf, size.
  destruct (split_last (arr_shape a)) as [[lead_a da]|] eqn:Ha; [|done].
  destruct (split_last (arr_shape b)) as [[lead_b db]|] eqn:Hb; [|done].
  cbn. case_decide as Hlead; [|done]. subst lead_b. intros [= <-].
  apply split_last_Some in Ha, Hb. cbn [arr_shape arr_data].
  rewrite Ha, Hb, !prod_list_app. intros Hla Hlb.
  rewrite (concat_pieces_length (da + db)).
  - rewrite length_zip_with, !chunks_length, Nat.min_id.
    f_equal. unfold prod_list. cbn. lia.
  - apply zip_with_app_pieces.
    + by rewrite !chunks_length.
    + apply chunks_pieces. rewrite cast_data_length, Hla.
      f_equal. unfold prod_list. cbn. lia.
    + apply chunks_pieces. rewrite cast_data_length, Hlb.
      f_equal. unfold prod_list. cbn. lia.
Qed.
End with_rounding.
End numpy_wf.

(** ** Elements of sliced, moved and concatenated arrays *)

Section element_facts.
Import NumPy Indexing.

Lemma chunks_lookup {A} n len (l : list A) i :
  i < n → chunks n len l !! i = Some (take len (drop (i * len) l)).
Proof.
  revert l i. induction n as [|n IH]; intros l i Hi; [lia|].
  destruct i as [|i]; cbn; [done|].
  rewrite IH by lia. by rewrite drop_drop.
Qed.

Lemma concat_lookup_piece {A} k (ls : list (list A)) i j :
  Forall (λ c, length c = k) ls → j < k →
  concat ls !! (i * k + j) = ls !! i ≫= (.!! j).
Proof.
  intros Hls Hj. revert i.
  induction Hls as [|c ls Hc _ IH]; intros i; cbn; [done|].
  destruct i as [|i]; cbn.
  - by rewrite lookup_app_l by lia.
  - rewrite lookup_app_r by lia.
    replace (k + i * k + j - length c) with (i * k + j) by lia. apply IH.
Qed.

Lemma bind_lookup_piece {A B} (f : A → list B) k (l : list A) i j :
  Forall (λ x, length (f x) = k) l → j < k →
  (l ≫= f) !! (i * k + j) = l !! i ≫= λ x, f x !! j.
Proof.
  intros Hl Hj. revert i.
  induction Hl as [|x l Hx _ IH]; intros i; cbn; [done|].
  destruct i as [|i]; cbn.
  - by rewrite lookup_app_l by lia.
  - rewrite lookup_app_r by lia.
    replace (k + i * k + j - length (f x)) with (i * k + j) by lia. apply IH.
Qed.

(** Entry [(c, r)] of the transposed matrix is entry [(r, c)] of the
    matrix. *)
Lemma transpose_flat_lookup {A} rows cols (l : list A) r c :
  length l = rows * cols → r < rows → c < cols →
  transpose_flat rows cols l !! (c * rows + r) = l !! (r * cols + c).
Proof.
  intros Hl Hr Hc. unfold transpose_flat.
  rewrite (bind_lookup_piece _ rows); [|
    apply Forall_forall; intros c' Hc'%elem_of_seq;
    rewrite (bind_const_length _ 1); [rewrite length_seq; lia|];
    intros r' Hr'%elem_of_seq;
    destruct (lookup_lt_is_Some_2 l (r' * cols + c')) as [x ->]; [nia|done]
  | done].
  rewrite lookup_seq_lt by done. cbn.
  replace r with (r * 1 + 0) at 1 by lia.
  rewrite (bind_lookup_piece _ 1); [| |lia].
  - rewrite lookup_seq_lt by done. cbn. by destruct (l !! (r * cols + c)).
  - apply Forall_forall. intros r' Hr'%elem_of_seq.
    destruct (lookup_lt_is_Some_2 l (r' * cols + c)) as [x ->]; [nia|done].
Qed.

Lemma ravel_bound shape idx :
  in_bounds shape idx → ravel shape idx < prod_list shape.
Proof.
  unfold in_bounds. intros Hb.
  induction Hb as [|i d idx shape Hi _ IH]; cbn; [lia|].
  fold (prod_list shape). nia.
Qed.

Lemma ravel_snoc shape idx d i :
  length idx = length shape →
  ravel (shape ++ [d]) (idx ++ [i]) = ravel shape idx * d + i.
Proof.
  revert idx. induction shape as [|d' shape IH]; intros [|i' idx] Hlen;
    try done; cbn in *; [lia|].
  rewrite IH by lia. rewrite prod_list_app. cbn. lia.
Qed.

Lemma in_bounds_length shape idx : in_bounds shape idx → length idx = length shape.
Proof. apply Forall2_length. Qed.

Lemma in_bounds_snoc shape idx d i :
  in_bounds shape idx → i < d → in_bounds (shape ++ [d]) (idx ++ [i]).
Proof. intros Hb Hi. apply Forall2_app; [done|]. by repeat constructor. Qed.

Lemma in_bounds_cons shape idx d i :
  i < d → in_bounds shape idx → in_bounds (d :: shape) (i :: idx).
Proof. intros Hi Hb. by constructor. Qed.

Lemma element_in_bounds shape data idx :
  in_bounds shape idx → element shape data idx = data !! ravel shape idx.
Proof. intros Hb. unfold element. by rewrite decide_True. Qed.

(** [moveaxis(a, -1, 1)[t, c, i..] = a[t, i.., c]]. *)
Lemma moveaxis_last_to_1_at a b d0 mid c t ch ridx :
  moveaxis_last_to_1 a = Some b → wf a →
  arr_shape a = d0 :: mid ++ [c] →
  t < d0 → ch < c → in_bounds mid ridx →
  array_at b (t :: ch :: ridx) = array_at a (t :: ridx ++ [ch]) ∧
  is_Some (array_at a (t :: ridx ++ [ch])).
Proof.
  unfold moveaxis_last_to_1, wf, size, array_at.
  intros Hb Hwf Hshape Ht Hch Hridx. rewrite Hshape in Hb, Hwf |- *.
  rewrite split_last_snoc in Hb. cbn in Hb. injection Hb as <-.
  cbn [arr_shape arr_data].
  pose proof (ravel_bound _ _ Hridx) as Hr.
  pose proof (in_bounds_length _ _ Hridx) as Hlen.
  change (prod_list (d0 :: mid ++ [c])) with (d0 * prod_list (mid ++ [c])) in Hwf.
  rewrite prod_list_app in Hwf.
  change (prod_list [c]) with (c * 1) in Hwf. rewrite Nat.mul_1_r in Hwf.
  rewrite !element_in_bounds
    by (repeat apply in_bounds_cons; try done; by apply in_bounds_snoc).
  cbn [ravel]. rewrite ravel_snoc by done.
  change (prod_list (c :: mid)) with (c * prod_list mid).
  rewrite prod_list_app. change (prod_list [c]) with (c * 1).
  rewrite Nat.mul_1_r. set (inner := prod_list mid) in *.
  set (r := ravel mid ridx) in *.
  assert (r * c + ch < inner * c) as Hlt by nia.
  split.
  - rewrite (concat_lookup_piece (c * inner)); [| |nia].
    + rewrite list_lookup_fmap, chunks_lookup by done. cbn.
      rewrite transpose_flat_lookup; [| |done|done].
      * rewrite lookup_take_lt by done. rewrite lookup_drop. f_equal; lia.
      * rewrite length_take, length_drop. nia.
    + apply Forall_fmap. eapply Forall_impl; [apply chunks_pieces; lia|].
      intros l Hl. cbn. by apply transpose_flat_length.
  - apply lookup_lt_is_Some_2. nia.
Qed.
End element_facts.

Section element_facts_2.
Import NumPy Indexing.
Context `{Rounding}.

(** [a[:, :k][t, j, i..] = a[t, j, i..]] for [j < k]. *)
Lemma slice_axis1_at k a b d0 d1 rest t j ridx :
  slice_axis1 k a = Some b → wf a →
  arr_shape a = d0 :: d1 :: rest →
  t < d0 → j < Nat.min d1 k → in_bounds rest ridx →
  array_at b (t :: j :: ridx) = array_at a (t :: j :: ridx) ∧
  is_Some (array_at a (t :: j :: ridx)).
Proof.
  unfold slice_axis1, wf, size, array_at.
  intros Hb Hwf Hshape Ht Hj Hridx. rewrite Hshape in Hb, Hwf |- *.
  injection Hb as <-. cbn [arr_shape arr_data].
  pose proof (ravel_bound _ _ Hridx) as Hr.
  change (prod_list (d0 :: d1 :: rest)) with (d0 * (d1 * prod_list rest)) in Hwf.
  assert (j < d1) as Hj' by (clear -Hj; lia).
  rewrite !element_in_bounds by (by repeat apply in_bounds_cons).
  cbn [ravel].
  change (prod_list (Nat.min d1 k :: rest)) with (Nat.min d1 k * prod_list rest).
  change (prod_list (d1 :: rest)) with (d1 * prod_list rest).
  set (inner := prod_list rest) in *. set (r := ravel rest ridx) in *.
  assert (j * inner + r < Nat.min d1 k * inner) as Hlt by nia.
  assert (Nat.min d1 k * inner ≤ d1 * inner) as Hle
    by (apply Nat.mul_le_mono_r; lia).
  split.
  - rewrite (concat_lookup_piece (Nat.min d1 k * inner)); [|
      apply Forall_fmap; eapply Forall_impl; [apply chunks_pieces; lia|];
      intros l Hl; cbn; rewrite length_take, Hl; by apply Nat.min_l
    | done].
    rewrite list_lookup_fmap, chunks_lookup by done. cbn.
    rewrite lookup_take_lt by done.
    rewrite lookup_take_lt by (eapply Nat.lt_le_trans; done).
    rewrite lookup_drop. f_equal; lia.
  - apply lookup_lt_is_Some_2. rewrite Hwf.
    assert (j * inner + r < d1 * inner) as Hlt'
      by (eapply Nat.lt_le_trans; done).
    clear -Ht Hlt'. nia.
Qed.

Lemma cast_data_lookup dt a i :
  cast_data dt a !! i = cast (arr_dtype a) dt <$> arr_data a !! i.
Proof.
  unfold cast_data, cast. case_decide.
  - by destruct (arr_data a !! i).
  - apply list_lookup_fmap.
Qed.

(** [a.astype(dt)[idx]] is the converted [a[idx]]. *)
Lemma astype_at dt a idx :
  array_at (astype dt a) idx = cast (arr_dtype a) dt <$> array_at a idx.
Proof.
  unfold array_at, element. cbn. case_decide; [|done]. apply cast_data_lookup.
Qed.

(** [(a / c)[idx]] is the rounded quotient of the converted [a[idx]]. *)
Lemma divide_scalar_at a c idx :
  array_at (divide_scalar a c) idx
  = (λ x, round (true_divide_dtype (arr_dtype a))
            (true_divide_operand (arr_dtype a) x / c)%Q) <$> array_at a idx.
Proof.
  unfold array_at, element. cbn. case_decide; [|done]. apply list_lookup_fmap.
Qed.

Lemma from_numpy_at a idx : tensor_at (torch.from_numpy a) idx = array_at a idx.
Proof. done. Qed.

(** [a.reshape(a.shape[0], -1)[t, j]] is the [j]-th element of row [t]. *)
Lemma reshape_rows_at a b d0 inner t ridx :
  reshape_rows a = Some b →
  arr_shape a = d0 :: inner →
  t < d0 → in_bounds inner ridx →
  array_at b [t; ravel inner ridx] = array_at a (t :: ridx).
Proof.
  intros (n & rest & Hs & ->)%reshape_rows_Some Hshape Ht Hridx.
  rewrite Hshape in Hs. injection Hs as -> ->.
  pose proof (ravel_bound _ _ Hridx) as Hr.
  unfold array_at. cbn [arr_shape arr_data]. rewrite Hshape.
  rewrite !element_in_bounds
    by (repeat apply in_bounds_cons; try done; constructor).
  cbn. f_equal. lia.
Qed.

(** The two halves of a row of [concatenate([a, b], axis=-1)]. *)
Lemma concatenate_last_at a b c lead da db lidx :
  concatenate_last a b = Some c → wf a → wf b →
  arr_shape a = lead ++ [da] → arr_shape b = lead ++ [db] →
  in_bounds lead lidx →
  (∀ j, j < da →
     array_at c (lidx ++ [j])
     = cast (arr_dtype a) (arr_dtype c) <$> array_at a (lidx ++ [j])) ∧
  (∀ j, j < db →
     array_at c (lidx ++ [da + j])
     = cast (arr_dtype b) (arr_dtype c) <$> array_at b (lidx ++ [j])).
Proof.
  unfold concatenate_last, wf, size, array_at.
  intros Hc Hwa Hwb Ha Hb Hlidx. rewrite Ha, Hb in Hc.
  rewrite Ha in Hwa. rewrite Hb in Hwb. rewrite Ha, Hb.
  rewrite !split_last_snoc in Hc. cbn in Hc.
  rewrite decide_True in Hc by done. injection Hc as <-.
  cbn [arr_shape arr_data arr_dtype].
  rewrite prod_list_app in Hwa, Hwb.
  change (prod_list [da]) with (da * 1) in Hwa.
  change (prod_list [db]) with (db * 1) in Hwb.
  rewrite Nat.mul_1_r in Hwa, Hwb.
  pose proof (ravel_bound _ _ Hlidx) as Hr.
  pose proof (in_bounds_length _ _ Hlidx) as Hlen.
  set (dt := promote_types (arr_dtype a) (arr_dtype b)).
  set (n := prod_list lead) in *. set (r := ravel lead lidx) in *.
  assert (Hpieces : Forall (λ l, length l = da + db)
            (zip_with app (chunks n da (cast_data dt a))
                          (chunks n db (cast_data dt b)))).
  { apply zip_with_app_pieces.
    - by rewrite !chunks_length.
    - apply chunks_pieces. by rewrite cast_data_length.
    - apply chunks_pieces. by rewrite cast_data_length. }
  assert (Hrow : zip_with app (chunks n da (cast_data dt a))
                              (chunks n db (cast_data dt b)) !! r
                 = Some (take da (drop (r * da) (cast_data dt a))
                         ++ take db (drop (r * db) (cast_data dt b)))).
  { rewrite lookup_zip_with, !chunks_lookup by done. done. }
  assert (Hla : length (take da (drop (r * da) (cast_data dt a))) = da).
  { rewrite length_take, length_drop, cast_data_length. nia. }
  split; intros j Hj.
  - rewrite !element_in_bounds by (by apply in_bounds_snoc; [|lia]).
    rewrite !ravel_snoc by done. fold r.
    rewrite (concat_lookup_piece (da + db)) by (done || lia).
    rewrite Hrow. cbn. rewrite lookup_app_l by lia.
    rewrite lookup_take_lt by done. rewrite lookup_drop.
    apply cast_data_lookup.
  - rewrite !element_in_bounds by (by apply in_bounds_snoc; [|lia]).
    rewrite !ravel_snoc by done. fold r.
    rewrite (concat_lookup_piece (da + db)) by (done || lia).
    rewrite Hrow. cbn. rewrite lookup_app_r by lia. rewrite Hla.
    replace (da + j - da) with j by lia.
    rewrite lookup_take_lt by done. rewrite lookup_drop.
    apply cast_data_lookup.
Qed.
End element_facts_2.

(** ** The sampler invariant *)

Section sampler_invariant.
Context `{SamplerLib}.

(** [__init__] establishes the invariant. *)
Lemma image_init_consistent store horizon pad_before pad_after seed val_ratio
    max_train_episodes (h : gmap Heap.loc BoxDeliveryImageDataset.t) l h' ds :
  BoxDeliveryImageDataset.init store horizon pad_before pad_after seed
    val_ratio max_train_episodes h = Some (l, h') →
  h' !! l = Some ds → BoxDeliveryImageDataset.sampler_consistent ds.
Proof.
  intros (rb & m & s & _ & _ & Hs & _ & ->)%image_init_Some.
  rewrite lookup_insert_eq. by intros [= <-].
Qed.

Lemma lowdim_init_consistent store horizon pad_before pad_after obs_key
    state_key action_key mask_key seed val_ratio max_train_episodes
    (h : gmap Heap.loc BoxDeliveryLowdimDataset.t) l h' ds :
  BoxDeliveryLowdimDataset.init store horizon pad_before pad_after obs_key
    state_key action_key mask_key seed val_ratio max_train_episodes h
    = Some (l, h') →
  h' !! l = Some ds → BoxDeliveryLowdimDataset.sampler_consistent ds.
Proof.
  intros (rb & m & s & _ & _ & Hs & _ & ->)%lowdim_init_Some.
  rewrite lookup_insert_eq. by intros [= <-].
Qed.

(** The validation view satisfies it whatever the caller looks like. *)
Lemma image_validation_consistent
    (h : gmap Heap.loc BoxDeliveryImageDataset.t) self ds val_set h' vs :
  h !! self = Some ds →
  BoxDeliveryImageDataset.get_validation_dataset self h = Some (val_set, h') →
  h' !! val_set = Some vs → BoxDeliveryImageDataset.sampler_consistent vs.
Proof.
  intros Hself. rewrite (image_get_validation_dataset_run h self ds Hself).
  destruct (new_sampler _ _ _ _ _) as [s|] eqn:Hs; [|done].
  intros [= <- <-]. rewrite lookup_insert_eq. by intros [= <-].
Qed.

Lemma lowdim_validation_consistent
    (h : gmap Heap.loc BoxDeliveryLowdimDataset.t) self ds val_set h' vs :
  h !! self = Some ds →
  BoxDeliveryLowdimDataset.get_validation_dataset self h = Some (val_set, h') →
  h' !! val_set = Some vs → BoxDeliveryLowdimDataset.sampler_consistent vs.
Proof.
  intros Hself. rewrite (lowdim_get_validation_dataset_run h self ds Hself).
  destruct (new_sampler _ _ _ _ _) as [s|] eqn:Hs; [|done].
  intros [= <- <-]. rewrite lookup_insert_eq. by intros [= <-].
Qed.
End sampler_invariant.

(** ** Records of the image adapter *)

Section image_records.
Context `{Rounding} `{SamplerLib}.
Import BoxDeliveryImageDataset.

(** When [_sample_to_data] returns, and what. *)
Lemma image_sample_to_data_Some sample out :
  sample_to_data sample = Some out ↔
  ∃ state sliced img moved action,
    sample !! "state" = Some state ∧
    NumPy.slice_axis1 2 state = Some sliced ∧
    sample !! "img" = Some img ∧
    NumPy.moveaxis_last_to_1 img = Some moved ∧
    sample !! "action" = Some action ∧
    out = Dict (<["obs" := Dict (<["image" := Leaf (NumPy.divide_scalar moved 255)]>
                                 (<["agent_pos" := Leaf (NumPy.astype Float32 sliced)]> ∅))]>
               (<["action" := Leaf (NumPy.astype Float32 action)]> ∅)).
Proof.
  unfold sample_to_data. split.
  - destruct (sample !! "state") as [state|]; [|done]. cbn.
    destruct (NumPy.slice_axis1 2 state) as [sliced|] eqn:Hs; [|done]. cbn.
    destruct (sample !! "img") as [img|]; [|done]. cbn.
    destruct (NumPy.moveaxis_last_to_1 img) as [moved|] eqn:Hm; [|done]. cbn.
    destruct (sample !! "action") as [action|]; [|done]. cbn.
    intros [= <-]. by exists state, sliced, img, moved, action.
  - intros (state & sliced & img & moved & action
            & -> & Hs & -> & Hm & -> & ->). cbn.
    rewrite Hs. cbn. by rewrite Hm.
Qed.

(** The three entries of a record returned by [__getitem__]. *)
Lemma image_getitem_Some self idx out :
  getitem self idx = Some out ↔
  ∃ sample data, sample_sequence (sampler self) idx = Some sample ∧
                 sample_to_data sample = Some data ∧
                 out = dict_apply torch.from_numpy data.
Proof.
  unfold getitem. split.
  - destruct (sample_sequence _ _) as [sample|]; [|done]. cbn.
    destruct (sample_to_data sample) as [data|] eqn:Hd; [|done]. cbn.
    intros [= <-]. by exists sample, data.
  - intros (sample & data & -> & Hd & ->). cbn. by rewrite Hd.
Qed.
End image_records.

(** C2. In a record returned by [__getitem__] of the image adapter every
    element of [obs.image] lies between 0 and 1, provided every stored pixel
    lies between 0 and 255.  It holds for every index for which a record is
    returned, and for every dataset that satisfies the sampler invariant. *)
Theorem getitem_image_in_unit_interval {R : Rounding} {RL : RoundingLaws}
    {S : SamplerLib} {SV : SamplerValues}
    (self : BoxDeliveryImageDataset.t) idx out image :
  BoxDeliveryImageDataset.sampler_consistent self →
  (∀ img, ReplayBuffer.get (BoxDeliveryImageDataset.replay_buffer self) "img"
            = Some img →
          Forall (λ x, 0 <= x <= 255)%Q (arr_data img)) →
  BoxDeliveryImageDataset.getitem self idx = Some out →
  item "obs" out ≫= item "image" = Some (Leaf image) →
  Forall (λ x, 0 <= x <= 1)%Q (t_data image).
Proof.
  intros Hinv Hstored Hitem Himage.
  apply image_getitem_Some in Hitem as (sample & data & Hsample & Hdata & ->).
  apply image_sample_to_data_Some in Hdata
    as (state & sliced & img & moved & action & _ & _ & Himg & Hmoved & _ & ->).
  cbn in Himage. rewrite !fmap_insert, lookup_insert_eq in Himage. cbn in Himage.
  rewrite !fmap_insert, lookup_insert_eq in Himage.
  injection Himage as <-. cbn [torch.from_numpy t_data].
  apply divide_scalar_unit; [done|done|].
  eapply moveaxis_last_to_1_Forall; [done|].
  destruct (sample_values _ _ _ _ _ _ _ _ _ _ Hinv Hsample Himg)
    as (stored & Hst & Hsub).
  apply Forall_forall. intros x Hx.
  eapply (proj1 (Forall_forall _ _) (Hstored stored Hst)), Hsub, Hx.
Qed.

(** C3 (amended). When the sampled window has a two-dimensional [state] with
    at least two columns and [horizon] rows, and an [action] with [horizon]
    rows, the record returned by [__getitem__] of the image adapter has
    [obs.agent_pos] of shape [(horizon, 2)] and an [action] with [horizon]
    rows, both of 32-bit float type.  No record is returned only when the
    window has no image with at least two axes. *)
Theorem getitem_agent_pos_action_shapes `{Rounding} `{SamplerLib}
    (self : BoxDeliveryImageDataset.t) idx sample state action
    (rows columns : nat) (action_dims : list nat) :
  sample_sequence (BoxDeliveryImageDataset.sampler self) idx = Some sample →
  sample !! "state" = Some state →
  sample !! "action" = Some action →
  Z.of_nat rows = BoxDeliveryImageDataset.horizon self →
  arr_shape state = [rows; columns] →
  2 ≤ columns →
  arr_shape action = rows :: action_dims →
  match BoxDeliveryImageDataset.getitem self idx with
  | Some out =>
      ∃ agent_pos act,
        item "obs" out ≫= item "agent_pos" = Some (Leaf agent_pos) ∧
        item "action" out = Some (Leaf act) ∧
        t_shape agent_pos = [rows; 2] ∧
        t_dtype agent_pos = Float32 ∧
        t_shape act = rows :: action_dims ∧
        t_dtype act = Float32
  | None =>
      ∀ img, sample !! "img" = Some img → NumPy.ndim img < 2
  end.
Proof.
  intros Hsample Hstate Haction Hrows Hshape Hcols Hact.
  unfold BoxDeliveryImageDataset.getitem,
    BoxDeliveryImageDataset.sample_to_data.
  rewrite Hsample. cbn. rewrite Hstate, Haction. cbn.
  unfold NumPy.slice_axis1 at 1. rewrite Hshape. cbn.
  destruct (sample !! "img") as [img|]; cbn; [|done].
  destruct (NumPy.moveaxis_last_to_1 img) as [moved|] eqn:Hmoved; cbn.
  - eexists _, _. rewrite !fmap_insert, lookup_insert_eq. cbn.
    rewrite !fmap_insert. rewrite lookup_insert_ne by done.
    rewrite !lookup_insert_eq. cbn.
    split; [done|]. split; [done|]. cbn.
    rewrite Nat.min_r by done. by rewrite Hact.
  - intros ? [= <-]. apply Nat.nle_gt. intros Hdim.
    apply moveaxis_last_to_1_is_Some in Hdim as [? Hdim]. congruence.
Qed.

(** ** The reference instance meets the contracts *)

Section reference_facts.
Import Reference.
Local Existing Instances rounding sampler_lib normalizer_lib.

Lemma to_grid_mono bits x y :
  (x <= y)%Q → (to_grid bits x <= to_grid bits y)%Q.
Proof.
  intros Hxy. unfold to_grid, Qdiv.
  assert (0 < 2 ^ bits ∨ 2 ^ bits = 0)%Z as [Hpos| ->].
  { pose proof (Z.pow_nonneg 2 bits). lia. }
  - apply Qmult_le_compat_r.
    + rewrite <- Zle_Qle. apply Qfloor_resp_le.
      apply Qmult_le_compat_r; [done|].
      change 0%Q with (inject_Z 0). rewrite <- Zle_Qle. lia.
    + apply Qlt_le_weak, Qinv_lt_0_compat.
      change 0%Q with (inject_Z 0). by rewrite <- Zlt_Qlt.
  - rewrite !Qmult_0_r. apply Qle_refl.
Qed.

Lemma rounding_laws : RoundingLaws.
Proof.
  split.
  - intros dt x y Hxy. unfold round, rounding.
    destruct (fraction_bits dt); [by apply to_grid_mono | done].
  - by intros [].
  - by intros [].
Qed.

Lemma n_selected_cons b mask :
  n_selected (b :: mask) = (if b then 1 else 0) + n_selected mask.
Proof. by destruct b. Qed.

Lemma keep_first_subset n mask i :
  keep_first n mask !! i = Some true → mask !! i = Some true.
Proof.
  revert n i. induction mask as [|[] mask IH]; intros n i; [done| |].
  - destruct n as [|n], i as [|i]; cbn; eauto.
  - destruct i as [|i]; cbn; eauto.
Qed.

Lemma keep_first_bound n mask : n_selected (keep_first n mask) ≤ n.
Proof.
  revert n. induction mask as [|[] mask IH]; intros n; cbn [keep_first].
  - cbn. lia.
  - destruct n as [|n]; rewrite n_selected_cons.
    + apply IH.
    + specialize (IH n). lia.
  - rewrite n_selected_cons. apply IH.
Qed.

Lemma downsample_contract : DownsampleContract.
Proof.
  split.
  - intros mask max_n seed mask' i. cbn. unfold ref_downsample_mask.
    destruct max_n as [n|]; [|by intros [= <-]].
    repeat case_decide; [by intros [= <-] | done |].
    intros [= <-]. apply keep_first_subset.
  - intros mask n seed mask'. cbn. unfold ref_downsample_mask.
    repeat case_decide; [by intros [= <-] | done |].
    intros [= <-]. pose proof (keep_first_bound (Z.to_nat n) mask). lia.
Qed.

Lemma cut_subseteq w len a : arr_data (cut w len a) ⊆ arr_data a.
Proof.
  intros x. cbn. rewrite list_elem_of_bind. intros (j & Hx & _).
  by eapply subseteq_drop, subseteq_take.
Qed.

Lemma sampler_values : SamplerValues.
Proof.
  intros rb len pb pa mask s idx w k a. cbn.
  unfold ref_new_sampler, ref_sample_sequence.
  case_decide; [|done]. intros [= <-]. cbn.
  case_decide; [|done].
  destruct (_ !! Z.to_nat idx) as [win|]; [|done]. cbn. intros [= <-].
  rewrite lookup_fmap. destruct (rb_data rb !! k) as [b|]; [|done].
  intros [= <-]. exists b. split; [done|]. apply cut_subseteq.
Qed.

Lemma sampler_frame : SamplerFrame.
Proof.
  split.
  - intros key rb1 rb2 len pb pa mask _. cbn. unfold ref_new_sampler.
    case_decide; split; eauto; by intros [? [=]].
  - intros key rb1 rb2 len pb pa mask s1 s2 (Hends & _). cbn.
    unfold ref_new_sampler. case_decide; [|done].
    intros [= <-] [= <-]. cbn. by rewrite Hends.
  - intros key rb1 rb2 len pb pa mask s1 s2 idx (Hends & Hsame & _). cbn.
    unfold ref_new_sampler, ref_sample_sequence. case_decide; [|done].
    intros [= <-] [= <-]. cbn. rewrite Hends.
    case_decide; [|constructor].
    destruct (_ !! Z.to_nat idx) as [win|]; cbn; constructor.
    intros k Hk. by rewrite !lookup_fmap, Hsame.
Qed.
End reference_facts.

(** ** Records of the low-dimensional adapter *)

Section lowdim_records.
Context `{Rounding} `{SamplerLib}.
Import BoxDeliveryLowdimDataset.

(** When [_sample_to_data] returns, and what. *)
Lemma lowdim_sample_to_data_Some self sample out :
  sample_to_data self sample = Some out ↔
  ∃ state goal flat obs action,
    sample !! obs_key self = Some state ∧
    sample !! state_key self = Some goal ∧
    NumPy.reshape_rows state = Some flat ∧
    NumPy.concatenate_last flat goal = Some obs ∧
    sample !! action_key self = Some action ∧
    out = Dict (<["obs" := Leaf obs]> (<["action" := Leaf action]> ∅)).
Proof.
  unfold sample_to_data. split.
  - destruct (sample !! obs_key self) as [state|]; [|done]. cbn.
    destruct (sample !! state_key self) as [goal|]; [|done]. cbn.
    destruct (NumPy.reshape_rows state) as [flat|] eqn:Hflat; [|done]. cbn.
    destruct (NumPy.concatenate_last flat goal) as [obs|] eqn:Hobs; [|done].
    cbn. destruct (sample !! action_key self) as [action|]; [|done]. cbn.
    intros [= <-]. by exists state, goal, flat, obs, action.
  - intros (state & goal & flat & obs & action
            & -> & -> & Hflat & Hobs & Hact & ->). cbn.
    rewrite Hflat. cbn. rewrite Hobs. cbn. by rewrite Hact.
Qed.

(** The transform reads the three fields named by the keys, and nothing
    else of the dataset or of the window. *)
Lemma lowdim_sample_to_data_ext self1 self2
    (sample1 sample2 : gmap string ndarray) :
  obs_key self1 = obs_key self2 →
  state_key self1 = state_key self2 →
  action_key self1 = action_key self2 →
  sample1 !! obs_key self1 = sample2 !! obs_key self1 →
  sample1 !! state_key self1 = sample2 !! state_key self1 →
  sample1 !! action_key self1 = sample2 !! action_key self1 →
  sample_to_data self1 sample1 = sample_to_data self2 sample2.
Proof.
  intros Ho Hs Ha Hobs Hstate Haction. unfold sample_to_data.
  by rewrite <- Ho, <- Hs, <- Ha, Hobs, Hstate, Haction.
Qed.

Lemma shape_snoc_pair (lead : list nat) d a b :
  lead ++ [d] = [a; b] → lead = [a] ∧ d = b.
Proof. intros Heq. by apply (app_inj_tail lead [a] d b). Qed.
End lowdim_records.

Section lowdim_rows.
Import NumPy Indexing.
Context `{Rounding}.

(** Row [t] of [concatenate([a.reshape(a.shape[0], -1), b], axis=-1)]: the
    elements of [a[t]] in row-major order, then those of [b[t]]. *)
Lemma reshape_concatenate_rows state goal flat obs time inner goal_dim :
  reshape_rows state = Some flat →
  concatenate_last flat goal = Some obs →
  arr_shape state = time :: inner →
  arr_shape goal = [time; goal_dim] →
  arr_dtype obs = promote_types (arr_dtype state) (arr_dtype goal) ∧
  (wf state → wf goal →
   ∀ t, t < time →
     (∀ ridx, in_bounds inner ridx →
        array_at obs [t; ravel inner ridx]
        = cast (arr_dtype state) (arr_dtype obs) <$> array_at state (t :: ridx)) ∧
     (∀ j, j < goal_dim →
        array_at obs [t; prod_list inner + j]
        = cast (arr_dtype goal) (arr_dtype obs) <$> array_at goal [t; j])).
Proof.
  intros Hflat Hcat Hss Hsg.
  pose proof Hflat as (n & rest & Hs & Hflat_eq)%reshape_rows_Some.
  rewrite Hss in Hs. injection Hs as -> ->.
  assert (arr_dtype flat = arr_dtype state) as Hdt by (by rewrite Hflat_eq).
  assert (arr_shape flat = [S n] ++ [prod_list rest]) as Hsf
    by (by rewrite Hflat_eq).
  pose proof (concatenate_last_Some _ _ _ Hcat) as (_ & _ & _ & _ & _ & _ & Hpt).
  rewrite Hdt in Hpt. split; [done|].
  intros Hws Hwg t Ht.
  pose proof (reshape_rows_wf _ _ Hflat Hws) as Hwf.
  destruct (concatenate_last_at flat goal obs [S n] (prod_list rest)
              goal_dim [t] Hcat Hwf Hwg Hsf Hsg) as [Hleft Hright].
  { constructor; [exact Ht | constructor]. }
  split.
  - intros ridx Hridx.
    specialize (Hleft _ (ravel_bound _ _ Hridx)). cbn in Hleft.
    rewrite Hleft, Hdt. f_equal.
    by apply (reshape_rows_at state flat (S n) rest).
  - intros j Hj. exact (Hright j Hj).
Qed.
End lowdim_rows.

(** C6. Whenever the record-building transform of the low-dimensional
    adapter returns, its [obs] is the concatenation along the last axis of
    the observation field reshaped to [(time, -1)] with the goal field: the
    time dimension is that of the two fields, and the feature dimension is
    the flattened per-timestep observation dimension plus the goal
    dimension.  Row [t] of [obs] holds the elements of timestep [t] of the
    observation field in row-major order, followed by row [t] of the goal
    field, converted to the promoted type of the two fields.  The transform
    returns exactly when the three fields are present, the observation field
    has a non-empty time axis and the goal field is two-dimensional with the
    same time axis. *)
Theorem lowdim_sample_to_data_obs `{Rounding} `{SamplerLib}
    (self : BoxDeliveryLowdimDataset.t) (sample : gmap string ndarray) :
  (∀ out, BoxDeliveryLowdimDataset.sample_to_data self sample = Some out →
     ∃ state goal flat obs time inner goal_dim,
       sample !! BoxDeliveryLowdimDataset.obs_key self = Some state ∧
       sample !! BoxDeliveryLowdimDataset.state_key self = Some goal ∧
       NumPy.reshape_rows state = Some flat ∧
       NumPy.concatenate_last flat goal = Some obs ∧
       item "obs" out = Some (Leaf obs) ∧
       item "action" out
         = Leaf <$> sample !! BoxDeliveryLowdimDataset.action_key self ∧
       arr_shape state = time :: inner ∧
       arr_shape goal = [time; goal_dim] ∧
       arr_shape flat = [time; NumPy.prod_list inner] ∧
       arr_shape obs = [time; NumPy.prod_list inner + goal_dim] ∧
       arr_dtype obs = NumPy.promote_types (arr_dtype state) (arr_dtype goal) ∧
       (NumPy.wf state → NumPy.wf goal →
        NumPy.wf obs ∧
        ∀ t, t < time →
          (∀ ridx, Indexing.in_bounds inner ridx →
             Indexing.array_at obs [t; Indexing.ravel inner ridx]
             = Indexing.cast (arr_dtype state) (arr_dtype obs)
                 <$> Indexing.array_at state (t :: ridx)) ∧
          (∀ j, j < goal_dim →
             Indexing.array_at obs [t; NumPy.prod_list inner + j]
             = Indexing.cast (arr_dtype goal) (arr_dtype obs)
                 <$> Indexing.array_at goal [t; j]))) ∧
  (is_Some (BoxDeliveryLowdimDataset.sample_to_data self sample) ↔
     ∃ state goal time inner goal_dim,
       sample !! BoxDeliveryLowdimDataset.obs_key self = Some state ∧
       sample !! BoxDeliveryLowdimDataset.state_key self = Some goal ∧
       is_Some (sample !! BoxDeliveryLowdimDataset.action_key self) ∧
       arr_shape state = S time :: inner ∧
       arr_shape goal = [S time; goal_dim]).
Proof.
  assert (Hshapes : ∀ state goal flat obs,
            NumPy.reshape_rows state = Some flat →
            NumPy.concatenate_last flat goal = Some obs →
            ∃ time inner goal_dim,
              arr_shape state = S time :: inner ∧
              arr_shape goal = [S time; goal_dim] ∧
              arr_shape flat = [S time; NumPy.prod_list inner] ∧
              arr_shape obs = [S time; NumPy.prod_list inner + goal_dim]).
  { intros state goal flat obs Hflat Hobs.
    apply reshape_rows_Some in Hflat as (time & inner & Hstate & ->).
    apply concatenate_last_Some in Hobs
      as (lead & da & db & Hlead & Hgoal & Hshape & _). cbn in Hlead.
    symmetry in Hlead. apply shape_snoc_pair in Hlead as [-> ->].
    by exists time, inner, db. }
  split.
  - intros out (state & goal & flat & obs & action & Hstate & Hgoal & Hflat
                & Hobs & Haction & ->)%lowdim_sample_to_data_Some.
    destruct (Hshapes _ _ _ _ Hflat Hobs)
      as (time & inner & goal_dim & Hss & Hsg & Hsf & Hso).
    destruct (reshape_concatenate_rows state goal flat obs (S time) inner
                goal_dim Hflat Hobs Hss Hsg) as [Hdt Hrows].
    exists state, goal, flat, obs, (S time), inner, goal_dim.
    rewrite Haction. cbn.
    rewrite lookup_insert_eq, lookup_insert_ne, lookup_insert_eq by done.
    do 11 (split; [done|]).
    intros Hws Hwg. split; [|by apply Hrows].
    eapply concatenate_last_wf; [exact Hobs| |exact Hwg].
    by eapply reshape_rows_wf.
  - split.
    + intros [out (state & goal & flat & obs & action & Hstate & Hgoal & Hflat
                   & Hobs & Haction & ->)%lowdim_sample_to_data_Some].
      destruct (Hshapes _ _ _ _ Hflat Hobs)
        as (time & inner & goal_dim & ? & ? & _).
      exists state, goal, time, inner, goal_dim. by rewrite Haction.
    + intros (state & goal & time & inner & goal_dim & Hstate & Hgoal
              & [action Haction] & Hs & Hg).
      set (flat := NDArray (arr_dtype state) [S time; NumPy.prod_list inner]
                     (arr_data state)).
      assert (NumPy.reshape_rows state = Some flat) as Hflat.
      { apply reshape_rows_Some. by exists time, inner. }
      destruct (proj2 (concatenate_last_is_Some flat goal)) as [obs Hobs].
      { exists [S time], (NumPy.prod_list inner), goal_dim. by rewrite Hg. }
      eexists. apply lowdim_sample_to_data_Some.
      by exists state, goal, flat, obs, action.
Qed.

(** ** Normalizers *)

Section normalizers.
Import NumPy.

Lemma slice_last_Some k a b :
  slice_last k a = Some b →
  ∃ lead d, arr_shape a = lead ++ [d] ∧ arr_shape b = lead ++ [Nat.min d k].
Proof.
  unfold slice_last.
  destruct (split_last (arr_shape a)) as [[lead d]|] eqn:Hs; [|done]. cbn.
  intros [= <-]. apply split_last_Some in Hs. by exists lead, d.
Qed.
End normalizers.

Section slice_last_facts.
Import NumPy Indexing.

Lemma slice_last_wf k a b : slice_last k a = Some b → wf a → wf b.
Proof.
  unfold slice_last, wf, size.
  destruct (split_last (arr_shape a)) as [[lead d]|] eqn:Hs; [|done]. cbn.
  apply split_last_Some in Hs. rewrite Hs.
  intros [= <-] Ha. cbn [arr_shape arr_data].
  rewrite prod_list_app in Ha |- *.
  change (prod_list [d]) with (d * 1) in Ha.
  change (prod_list [Nat.min d k]) with (Nat.min d k * 1).
  rewrite Nat.mul_1_r in Ha |- *.
  apply (concat_fmap_length _ d); [|done].
  intros c Hc. rewrite length_take, Hc. lia.
Qed.

(** [a[..., :k][i.., j] = a[i.., j]] for [j < k]. *)
Lemma slice_last_at k a b lead d idx j :
  slice_last k a = Some b → wf a →
  arr_shape a = lead ++ [d] →
  in_bounds lead idx → j < Nat.min d k →
  array_at b (idx ++ [j]) = array_at a (idx ++ [j]) ∧
  is_Some (array_at a (idx ++ [j])).
Proof.
  unfold slice_last, wf, size, array_at.
  intros Hb Hwf Hshape Hidx Hj. rewrite Hshape in Hb, Hwf |- *.
  rewrite split_last_snoc in Hb. cbn in Hb. injection Hb as <-.
  cbn [arr_shape arr_data].
  rewrite prod_list_app in Hwf. change (prod_list [d]) with (d * 1) in Hwf.
  rewrite Nat.mul_1_r in Hwf.
  pose proof (ravel_bound _ _ Hidx) as Hr.
  pose proof (in_bounds_length _ _ Hidx) as Hlen.
  assert (j < d) as Hj' by (clear -Hj; lia).
  rewrite !element_in_bounds by (by apply in_bounds_snoc).
  rewrite !ravel_snoc by done.
  set (n := prod_list lead) in *. set (r := ravel lead idx) in *.
  split.
  - rewrite (concat_lookup_piece (Nat.min d k)); [|
      apply Forall_fmap; eapply Forall_impl; [by apply chunks_pieces|];
      intros l Hl; cbn; rewrite length_take, Hl; clear; lia
    | done].
    rewrite list_lookup_fmap, chunks_lookup by done. cbn.
    rewrite !lookup_take_lt by done. by rewrite lookup_drop.
  - apply lookup_lt_is_Some_2. rewrite Hwf. clear -Hr Hj'. nia.
Qed.
End slice_last_facts.

(** C7. [get_normalizer] of the image adapter calls [fit] with
    [last_n_dims = 1] on a dictionary of exactly two entries: ['action'], the
    whole stored action array, and ['agent_pos'], the first two entries of
    the last axis of the whole stored state array:
    [agent_pos[i.., j] = state[i.., j]] for [j < 2], with the type of the
    state and nothing else.  The ['image'] entry of the result is the
    normalizer of [get_image_range_normalizer]; the result depends on the
    dataset only through the stored action and state arrays. *)
Theorem image_get_normalizer_fits_action_agent_pos `{SamplerLib}
    `{NormalizerLib} (self : BoxDeliveryImageDataset.t) (mode : string) (kw : kwargs) :
  (∀ normalizer,
     BoxDeliveryImageDataset.get_normalizer self mode kw = Some normalizer ↔
     ∃ action state agent_pos fitted,
       ReplayBuffer.get (BoxDeliveryImageDataset.replay_buffer self) "action"
         = Some action ∧
       ReplayBuffer.get (BoxDeliveryImageDataset.replay_buffer self) "state"
         = Some state ∧
       NumPy.slice_last 2 state = Some agent_pos ∧
       fit ∅ (Dict (<["action" := Leaf action]>
                    (<["agent_pos" := Leaf agent_pos]> ∅))) 1 mode kw
         = Some fitted ∧
       normalizer = <["image" := get_image_range_normalizer]> fitted) ∧
  (∀ normalizer,
     BoxDeliveryImageDataset.get_normalizer self mode kw = Some normalizer →
     normalizer !! "image" = Some get_image_range_normalizer) ∧
  (∀ data,
     BoxDeliveryImageDataset.normalizer_data self = Some data →
     ∃ d lead columns agent_pos,
       data = Dict d ∧ dom d = {["action"; "agent_pos"]} ∧
       d !! "action"
         = Leaf <$> rb_data (BoxDeliveryImageDataset.replay_buffer self) !! "action" ∧
       d !! "agent_pos" = Some (Leaf agent_pos) ∧
       arr_shape <$> rb_data (BoxDeliveryImageDataset.replay_buffer self) !! "state"
         = Some (lead ++ [columns]) ∧
       arr_shape agent_pos = lead ++ [Nat.min columns 2] ∧
       ∃ state,
         rb_data (BoxDeliveryImageDataset.replay_buffer self) !! "state"
           = Some state ∧
         arr_dtype agent_pos = arr_dtype state ∧
         (NumPy.wf state →
          NumPy.wf agent_pos ∧
          ∀ idx j,
            Indexing.in_bounds lead idx → j < Nat.min columns 2 →
            ∃ x, Indexing.array_at state (idx ++ [j]) = Some x ∧
                 Indexing.array_at agent_pos (idx ++ [j]) = Some x)) ∧
  (∀ other : BoxDeliveryImageDataset.t,
     rb_data (BoxDeliveryImageDataset.replay_buffer other) !! "action"
       = rb_data (BoxDeliveryImageDataset.replay_buffer self) !! "action" →
     rb_data (BoxDeliveryImageDataset.replay_buffer other) !! "state"
       = rb_data (BoxDeliveryImageDataset.replay_buffer self) !! "state" →
     BoxDeliveryImageDataset.get_normalizer other mode kw
       = BoxDeliveryImageDataset.get_normalizer self mode kw) ∧
  (∀ normalizer,
     BoxDeliveryImageDataset.get_normalizer self mode kw = Some normalizer ↔
     ∃ data fitted,
       BoxDeliveryImageDataset.normalizer_data self = Some data ∧
       fit ∅ data 1 mode kw = Some fitted ∧
       normalizer = <["image" := get_image_range_normalizer]> fitted).
Proof.
  unfold BoxDeliveryImageDataset.get_normalizer,
    BoxDeliveryImageDataset.normalizer_data, ReplayBuffer.get.
  set (rb := BoxDeliveryImageDataset.replay_buffer self).
  assert (Hiff : ∀ normalizer,
    (action ← rb_data rb !! "action";
     state ← rb_data rb !! "state";
     agent_pos ← NumPy.slice_last 2 state;
     Some (Dict (<["action" := Leaf action]> (<["agent_pos" := Leaf agent_pos]> ∅))))
    ≫= (λ data, fit ∅ data 1 mode kw ≫= λ fitted,
          Some (<["image" := get_image_range_normalizer]> fitted))
    = Some normalizer ↔
    ∃ action state agent_pos fitted,
      rb_data rb !! "action" = Some action ∧
      rb_data rb !! "state" = Some state ∧
      NumPy.slice_last 2 state = Some agent_pos ∧
      fit ∅ (Dict (<["action" := Leaf action]>
                   (<["agent_pos" := Leaf agent_pos]> ∅))) 1 mode kw
        = Some fitted ∧
      normalizer = <["image" := get_image_range_normalizer]> fitted).
  { intros normalizer. split.
    - destruct (rb_data rb !! "action") as [action|]; [|done]. cbn.
      destruct (rb_data rb !! "state") as [state|]; [|done]. cbn.
      destruct (NumPy.slice_last 2 state) as [agent_pos|] eqn:Hap; [|done]. cbn.
      destruct (fit _ _ _ _ _) as [fitted|] eqn:Hfit; [|done]. cbn.
      intros [= <-]. by exists action, state, agent_pos, fitted.
    - intros (action & state & agent_pos & fitted & -> & -> & Hap & Hfit & ->).
      cbn. rewrite Hap. cbn. by rewrite Hfit. }
  split; [exact Hiff|]. split; [|split; [|split]].
  - intros normalizer (? & ? & ? & fitted & _ & _ & _ & _ & ->)%Hiff.
    apply lookup_insert_eq.
  - intros data.
    destruct (rb_data rb !! "action") as [action|]; [|done]. cbn.
    destruct (rb_data rb !! "state") as [state|]; [|done]. cbn.
    destruct (NumPy.slice_last 2 state) as [agent_pos|] eqn:Hap; [|done]. cbn.
    intros [= <-].
    pose proof Hap as (lead & columns & Hs & Ha)%slice_last_Some.
    eexists _, lead, columns, agent_pos. split; [done|].
    rewrite !dom_insert_L, dom_empty_L, lookup_insert_eq.
    rewrite lookup_insert_ne, lookup_insert_eq by done.
    rewrite Hs. do 5 (split; [done|]).
    exists state. split; [done|]. split.
    + unfold NumPy.slice_last in Hap. rewrite Hs, split_last_snoc in Hap.
      cbn in Hap. by injection Hap as <-.
    + intros Hwf. split; [by eapply slice_last_wf|].
      intros idx j Hidx Hj.
      destruct (slice_last_at 2 state agent_pos lead columns idx j Hap Hwf Hs
                  Hidx Hj) as [Hat [x Hx]].
      exists x. by rewrite Hat.
  - intros other Haction Hstate. by rewrite Haction, Hstate.
  - intros normalizer. split.
    + match goal with
      | |- ?m ≫= _ = _ → _ => destruct m as [data|] eqn:Hdata; [|done]
      end. cbn.
      destruct (fit _ _ _ _ _) as [fitted|] eqn:Hfit; [|done]. cbn.
      intros [= <-]. by exists data, fitted.
    + intros (data & fitted & -> & Hfit & ->). cbn. by rewrite Hfit.
Qed.

(** C8. [get_normalizer] of the low-dimensional adapter calls [fit] with
    [last_n_dims = 1] on the record that [_sample_to_data] builds from the
    fields of the whole replay buffer: the sampler, the mask and the
    windowing parameters play no part in it. *)
Theorem lowdim_get_normalizer_fits_whole_buffer `{Rounding} `{SamplerLib}
    `{NormalizerLib} (self : BoxDeliveryLowdimDataset.t) (mode : string)
    (kw : kwargs) :
  (∀ normalizer,
     BoxDeliveryLowdimDataset.get_normalizer self mode kw = Some normalizer ↔
     ∃ state goal flat obs action,
       ReplayBuffer.get (BoxDeliveryLowdimDataset.replay_buffer self)
         (BoxDeliveryLowdimDataset.obs_key self) = Some state ∧
       ReplayBuffer.get (BoxDeliveryLowdimDataset.replay_buffer self)
         (BoxDeliveryLowdimDataset.state_key self) = Some goal ∧
       NumPy.reshape_rows state = Some flat ∧
       NumPy.concatenate_last flat goal = Some obs ∧
       ReplayBuffer.get (BoxDeliveryLowdimDataset.replay_buffer self)
         (BoxDeliveryLowdimDataset.action_key self) = Some action ∧
       fit ∅ (Dict (<["obs" := Leaf obs]> (<["action" := Leaf action]> ∅)))
           1 mode kw = Some normalizer) ∧
  (∀ other : BoxDeliveryLowdimDataset.t,
     BoxDeliveryLowdimDataset.replay_buffer other
       = BoxDeliveryLowdimDataset.replay_buffer self →
     BoxDeliveryLowdimDataset.obs_key other
       = BoxDeliveryLowdimDataset.obs_key self →
     BoxDeliveryLowdimDataset.state_key other
       = BoxDeliveryLowdimDataset.state_key self →
     BoxDeliveryLowdimDataset.action_key other
       = BoxDeliveryLowdimDataset.action_key self →
     BoxDeliveryLowdimDataset.get_normalizer other mode kw
       = BoxDeliveryLowdimDataset.get_normalizer self mode kw).
Proof.
  unfold BoxDeliveryLowdimDataset.get_normalizer, ReplayBuffer.get. split.
  - intros normalizer. split.
    + destruct (BoxDeliveryLowdimDataset.sample_to_data _ _) as [data|] eqn:Hd;
        [|done]. cbn. intros Hfit.
      apply lowdim_sample_to_data_Some in Hd
        as (state & goal & flat & obs & action & ? & ? & ? & ? & ? & ->).
      by exists state, goal, flat, obs, action.
    + intros (state & goal & flat & obs & action & ? & ? & ? & ? & ? & Hfit).
      erewrite (proj2 (lowdim_sample_to_data_Some _ _ _)); [exact Hfit|].
      by exists state, goal, flat, obs, action.
  - intros other Hrb Ho Hs Ha. rewrite Hrb.
    by rewrite (lowdim_sample_to_data_ext other self _ _ Ho Hs Ha eq_refl
                  eq_refl eq_refl).
Qed.

(** ** The mask field *)

Section mask_field.
Implicit Types (store : ReplayBuffer) (key k : string).

Lemma same_except_is_Some key store1 store2 k :
  same_except key store1 store2 →
  is_Some (rb_data store1 !! k) ↔ is_Some (rb_data store2 !! k).
Proof.
  intros (_ & Hother & Hkey). destruct (decide (k = key)) as [->|Hne].
  - destruct Hkey; split; eauto; by intros [? [=]].
  - by rewrite (Hother k Hne).
Qed.

(** Buffers loaded from stores that differ in one field differ in that
    field only, and one is loaded exactly when the other is. *)
Lemma same_except_copy_from_path key store1 store2 keys :
  same_except key store1 store2 →
  option_Forall2 (same_except key)
    (ReplayBuffer.copy_from_path store1 keys)
    (ReplayBuffer.copy_from_path store2 keys).
Proof.
  intros Hsame.
  destruct (ReplayBuffer.copy_from_path store1 keys) as [rb1|] eqn:Hcp1,
           (ReplayBuffer.copy_from_path store2 keys) as [rb2|] eqn:Hcp2.
  - constructor. destruct Hsame as (Hends & Hother & Hkey).
    split; [|split].
    + rewrite (copy_from_path_episode_ends _ _ _ Hcp1).
      by rewrite (copy_from_path_episode_ends _ _ _ Hcp2).
    + intros k Hk. rewrite (copy_from_path_lookup _ _ _ k Hcp1).
      rewrite (copy_from_path_lookup _ _ _ k Hcp2). by rewrite (Hother k Hk).
    + rewrite (copy_from_path_lookup _ _ _ key Hcp1).
      rewrite (copy_from_path_lookup _ _ _ key Hcp2).
      case_decide; [done | constructor].
  - exfalso. assert (is_Some (ReplayBuffer.copy_from_path store2 keys)) as [? ?];
      [|congruence].
    apply copy_from_path_is_Some.
    assert (is_Some (ReplayBuffer.copy_from_path store1 keys)) as Hs by eauto.
    apply copy_from_path_is_Some in Hs.
    eapply Forall_impl; [exact Hs|]. intros k. cbn.
    by rewrite (same_except_is_Some _ _ _ k Hsame).
  - exfalso. assert (is_Some (ReplayBuffer.copy_from_path store1 keys)) as [? ?];
      [|congruence].
    apply copy_from_path_is_Some.
    assert (is_Some (ReplayBuffer.copy_from_path store2 keys)) as Hs by eauto.
    apply copy_from_path_is_Some in Hs.
    eapply Forall_impl; [exact Hs|]. intros k. cbn.
    by rewrite (same_except_is_Some _ _ _ k Hsame).
  - constructor.
Qed.

(** Stores that differ in one field at most, and not in that one either,
    are the same store. *)
Lemma same_except_eq key store1 store2 :
  same_except key store1 store2 →
  rb_data store1 !! key = rb_data store2 !! key →
  store1 = store2.
Proof.
  intros (Hends & Hother & _) Hkey.
  destruct store1 as [d1 e1], store2 as [d2 e2]. cbn in *. f_equal; [|done].
  apply map_eq. intros k. destruct (decide (k = key)) as [->|Hne]; eauto.
Qed.
End mask_field.

(** C9. The field named by [mask_key] is loaded by [__init__] of the
    low-dimensional adapter and never read again.  Take two stores that
    differ at most in the elements of that field, the fields named by
    [obs_key], [state_key] and [action_key] being the same in both.  Then
    either construction fails on both or it succeeds on both; each dataset
    holds the mask field of its store, and the two datasets have the same
    length, the same [__getitem__] at every index, the same [get_normalizer]
    and the same [get_all_actions].  What is used of the sampler is that it
    treats the fields independently. *)
Theorem mask_key_noninterference {R : Rounding} {S : SamplerLib}
    {N : NormalizerLib} {SF : SamplerFrame} store1 store2
    horizon pad_before pad_after obs_key state_key action_key mask_key
    seed val_ratio max_train_episodes
    (h : gmap Heap.loc BoxDeliveryLowdimDataset.t) :
  same_except mask_key store1 store2 →
  rb_data store1 !! obs_key = rb_data store2 !! obs_key →
  rb_data store1 !! state_key = rb_data store2 !! state_key →
  rb_data store1 !! action_key = rb_data store2 !! action_key →
  option_Forall2
    (λ '(l1, h1) '(l2, h2),
       l1 = l2 ∧
       ∃ ds1 ds2,
         h1 !! l1 = Some ds1 ∧ h2 !! l2 = Some ds2 ∧
         rb_data (BoxDeliveryLowdimDataset.replay_buffer ds1) !! mask_key
           = rb_data store1 !! mask_key ∧
         rb_data (BoxDeliveryLowdimDataset.replay_buffer ds2) !! mask_key
           = rb_data store2 !! mask_key ∧
         BoxDeliveryLowdimDataset.len ds1 = BoxDeliveryLowdimDataset.len ds2 ∧
         (∀ idx, BoxDeliveryLowdimDataset.getitem ds1 idx
                 = BoxDeliveryLowdimDataset.getitem ds2 idx) ∧
         (∀ mode kw, BoxDeliveryLowdimDataset.get_normalizer ds1 mode kw
                     = BoxDeliveryLowdimDataset.get_normalizer ds2 mode kw) ∧
         BoxDeliveryLowdimDataset.get_all_actions ds1
           = BoxDeliveryLowdimDataset.get_all_actions ds2)
    (BoxDeliveryLowdimDataset.init store1 horizon pad_before pad_after obs_key
       state_key action_key mask_key seed val_ratio max_train_episodes h)
    (BoxDeliveryLowdimDataset.init store2 horizon pad_before pad_after obs_key
       state_key action_key mask_key seed val_ratio max_train_episodes h).
Proof.
  intros Hsame Hobs Hstate Haction.
  assert (Hloaded : ∀ store rb,
            ReplayBuffer.copy_from_path store
              [obs_key; state_key; action_key; mask_key] = Some rb →
            rb_data rb !! mask_key = rb_data store !! mask_key).
  { intros store rb Hrb. rewrite (copy_from_path_lookup _ _ _ mask_key Hrb).
    apply decide_True. rewrite !elem_of_cons. tauto. }
  destruct (decide (mask_key ∈ [obs_key; state_key; action_key])) as [Hin|Hout].
  - (* the mask field is one of the fields held fixed *)
    assert (store1 = store2) as <-.
    { apply (same_except_eq mask_key); [done|].
      rewrite !elem_of_cons, elem_of_nil in Hin.
      destruct Hin as [->|[->|[->|[]]]]; done. }
    destruct (BoxDeliveryLowdimDataset.init _ _ _ _ _ _ _ _ _ _ _ _)
      as [[l h']|] eqn:Hinit; constructor.
    apply lowdim_init_Some in Hinit as (rb & m & s & Hrb & _ & _ & _ & ->).
    split; [done|]. eexists _, _. rewrite lookup_insert_eq.
    split; [done|]. split; [done|].
    split; [by apply Hloaded|]. split; [by apply Hloaded|]. by repeat split.
  - rewrite !not_elem_of_cons in Hout. destruct Hout as (Ho & Hs & Ha & _).
    rewrite !lowdim_init_run.
    pose proof (same_except_copy_from_path mask_key store1 store2
                  [obs_key; state_key; action_key; mask_key] Hsame) as Hcp.
    destruct (ReplayBuffer.copy_from_path store1 _) as [rb1|] eqn:Hcp1,
             (ReplayBuffer.copy_from_path store2 _) as [rb2|] eqn:Hcp2;
      inversion Hcp as [? ? Hrb|]; subst; cbn; [|constructor].
    pose proof Hrb as (Hends & Hother & _).
    unfold BoxDeliveryLowdimDataset.init_train_mask, ReplayBuffer.n_episodes.
    rewrite Hends.
    destruct (get_val_mask _ _ _ ≫= _) as [mask|]; cbn; [|constructor].
    pose proof (new_sampler_frame mask_key rb1 rb2 horizon pad_before pad_after
                  mask Hrb) as Hnew.
    destruct (new_sampler rb1 _ _ _ _) as [s1|] eqn:Hs1,
             (new_sampler rb2 _ _ _ _) as [s2|] eqn:Hs2; cbn.
    + constructor. split; [done|]. eexists _, _.
      rewrite !lookup_insert_eq. split; [done|]. split; [done|]. cbn.
      split; [by apply Hloaded|]. split; [by apply Hloaded|].
      split; [|split; [|split]].
      * by eapply sampler_len_frame.
      * intros idx. unfold BoxDeliveryLowdimDataset.getitem. cbn.
        destruct (sample_sequence_frame mask_key rb1 rb2 horizon pad_before
                    pad_after mask s1 s2 idx Hrb Hs1 Hs2) as [w1 w2 Hw|];
          cbn; [|done].
        erewrite (lowdim_sample_to_data_ext _ _ w1 w2); cbn; eauto.
      * intros mode kw. unfold BoxDeliveryLowdimDataset.get_normalizer. cbn.
        erewrite (lowdim_sample_to_data_ext _ _ (rb_data rb1) (rb_data rb2));
          cbn; eauto.
      * unfold BoxDeliveryLowdimDataset.get_all_actions, ReplayBuffer.get. cbn.
        by rewrite (Hother action_key).
    + exfalso. destruct (proj1 Hnew) as [? [=]]. eauto.
    + exfalso. destruct (proj2 Hnew) as [? [=]]. eauto.
    + constructor.
Qed.

(** ** The statements on concrete stores *)

Section on_reference_stores.
Import Reference.
Local Existing Instances rounding sampler_lib normalizer_lib.

(** [__init__] over the reference stores builds the datasets of
    [Reference]. *)
Lemma image_init_eval :
  BoxDeliveryImageDataset.init image_store 2 1 1 42 (1 # 2) None ∅
    = Some (1%positive, {[1%positive := image_dataset image_store [false; true]]}).
Proof. reflexivity. Qed.

Lemma narrow_init_eval :
  BoxDeliveryImageDataset.init narrow_store 2 1 1 42 0 None ∅
    = Some (1%positive, {[1%positive := image_dataset narrow_store [true; true]]}).
Proof. reflexivity. Qed.

Lemma lowdim_init_eval valid :
  BoxDeliveryLowdimDataset.init (lowdim_store valid) 2 1 1 "state_positions"
    "goal" "action" "valid_obs_mask" 42 (1 # 2) None ∅
    = Some (1%positive,
            {[1%positive := lowdim_dataset (lowdim_store valid) [false; true]]}).
Proof. reflexivity. Qed.

(** Replacing the elements of one field gives a store that is the same
    except for this field. *)
Lemma same_except_insert key (a b : ndarray) d ends :
  arr_dtype a = arr_dtype b → arr_shape a = arr_shape b →
  same_except key (mkReplayBuffer (<[key := a]> d) ends)
                  (mkReplayBuffer (<[key := b]> d) ends).
Proof.
  intros Hdt Hshape. split; [done|]. cbn. split.
  - intros k Hk. by rewrite !lookup_insert_ne.
  - rewrite !lookup_insert_eq. by constructor.
Qed.

(** The image dataset over [image_store], split in the middle: its
    validation view has the mask [[true; false]], and the dataset is
    unchanged. *)
Lemma get_validation_dataset_complement_witness :
  let ds := image_dataset image_store [false; true] in
  let h : gmap Heap.loc BoxDeliveryImageDataset.t := {[1%positive := ds]} in
  h !! 1%positive = Some ds ∧
  ∃ val_set h' vs,
    BoxDeliveryImageDataset.get_validation_dataset 1%positive h
      = Some (val_set, h') ∧
    h' !! 1%positive = Some ds ∧
    h' !! val_set = Some vs ∧
    BoxDeliveryImageDataset.train_mask vs = [true; false].
Proof.
  intros ds h. split; [reflexivity|].
  pose proof (proj1 get_validation_dataset_complement h 1%positive ds eq_refl)
    as Hthm.
  destruct (BoxDeliveryImageDataset.get_validation_dataset 1%positive h)
    as [[val_set h']|]; [|discriminate Hthm].
  destruct Hthm as (_ & _ & Hkept & _ & vs & Hvs & Hcompl & _).
  exists val_set, h', vs. rewrite Hcompl.
  repeat split; first [assumption | reflexivity].
Defined.

(** The validation view of the validation view of the low-dimensional
    dataset over [lowdim_store] has the mask of the dataset again. *)
Lemma get_validation_dataset_twice_witness :
  let ds := lowdim_dataset (lowdim_store [1; 1; 1; 0; 0; 0]%Q) [false; true] in
  let h : gmap Heap.loc BoxDeliveryLowdimDataset.t := {[1%positive := ds]} in
  h !! 1%positive = Some ds ∧
  ∃ val_set h1 back h2 bs,
    BoxDeliveryLowdimDataset.get_validation_dataset 1%positive h
      = Some (val_set, h1) ∧
    BoxDeliveryLowdimDataset.get_validation_dataset val_set h1
      = Some (back, h2) ∧
    h2 !! back = Some bs ∧
    BoxDeliveryLowdimDataset.train_mask bs = [false; true].
Proof.
  intros ds h. split; [reflexivity|].
  destruct (BoxDeliveryLowdimDataset.get_validation_dataset 1%positive h)
    as [[val_set h1]|] eqn:Hfirst; [|discriminate Hfirst].
  pose proof (proj2 get_validation_dataset_twice h 1%positive ds val_set h1
                eq_refl Hfirst) as Hthm.
  cbv zeta in Hthm.
  destruct (BoxDeliveryLowdimDataset.get_validation_dataset val_set h1)
    as [[back h2]|] eqn:Hsecond; [|discriminate Hthm].
  destruct Hthm as (bs & Hbs & Hmask & _).
  exists val_set, h1, back, h2, bs. rewrite Hmask.
  repeat split; first [assumption | reflexivity].
Defined.

(** Two stores with two episodes each, same seed and ratio: same mask. *)
Lemma init_train_mask_deterministic_witness :
  let h1 : gmap Heap.loc BoxDeliveryImageDataset.t :=
    {[1%positive := image_dataset image_store [false; true]]} in
  let h2 : gmap Heap.loc BoxDeliveryImageDataset.t :=
    {[1%positive := image_dataset narrow_store [false; true]]} in
  ReplayBuffer.n_episodes image_store = ReplayBuffer.n_episodes narrow_store ∧
  BoxDeliveryImageDataset.init image_store 2 1 1 42 (1 # 2) None ∅
    = Some (1%positive, h1) ∧
  BoxDeliveryImageDataset.init narrow_store 2 1 1 42 (1 # 2) None ∅
    = Some (1%positive, h2) ∧
  ∃ ds1 ds2, h1 !! 1%positive = Some ds1 ∧ h2 !! 1%positive = Some ds2 ∧
             BoxDeliveryImageDataset.train_mask ds1
               = BoxDeliveryImageDataset.train_mask ds2.
Proof.
  intros h1 h2. split; [reflexivity|]. split; [reflexivity|].
  split; [reflexivity|].
  apply (proj1 init_train_mask_deterministic image_store narrow_store
           2%Z 2%Z 1%Z 1%Z 1%Z 1%Z 42%Z (1 # 2)%Q None ∅ ∅
           1%positive 1%positive h1 h2);
    reflexivity.
Defined.

(** Both episodes are train episodes, one is kept. *)
Lemma init_train_mask_downsampled_complement_witness :
  let h : gmap Heap.loc BoxDeliveryImageDataset.t :=
    {[1%positive := image_dataset image_store [true; false]]} in
  BoxDeliveryImageDataset.init image_store 2 1 1 42 0 (Some 1%Z) ∅
    = Some (1%positive, h) ∧
  ∃ ds val_mask,
    h !! 1%positive = Some ds ∧
    get_val_mask (ReplayBuffer.n_episodes image_store) 0 42 = Some val_mask ∧
    downsample_mask (invert val_mask) (Some 1%Z) 42
      = Some (BoxDeliveryImageDataset.train_mask ds) ∧
    (∀ i, BoxDeliveryImageDataset.train_mask ds !! i = Some true →
          val_mask !! i = Some false) ∧
    (∀ n, Some 1%Z = Some n →
          (Z.of_nat (n_selected (BoxDeliveryImageDataset.train_mask ds)) ≤ n)%Z).
Proof.
  intros h. split; [reflexivity|].
  apply (proj1 (init_train_mask_downsampled_complement
                  (DC := downsample_contract))
           image_store 2%Z 1%Z 1%Z 42%Z 0%Q (Some 1%Z) ∅ 1%positive h).
  reflexivity.
Defined.

(** The second train window of [image_store]: the pixels 255, 255, 0 of
    the last timestep, twice, divided by 255. *)
Lemma getitem_image_in_unit_interval_witness :
  let self := image_dataset image_store [false; true] in
  ∃ out image,
    BoxDeliveryImageDataset.sampler_consistent self ∧
    (∀ img, ReplayBuffer.get (BoxDeliveryImageDataset.replay_buffer self) "img"
              = Some img →
            Forall (λ x, 0 <= x <= 255)%Q (arr_data img)) ∧
    BoxDeliveryImageDataset.getitem self 0 = Some out ∧
    item "obs" out ≫= item "image" = Some (Leaf image) ∧
    t_shape image = [2; 3; 1; 1] ∧
    Forall (λ x, 0 <= x <= 1)%Q (t_data image).
Proof.
  intros self.
  assert (∀ img, ReplayBuffer.get (BoxDeliveryImageDataset.replay_buffer self)
                   "img" = Some img →
                 Forall (λ x, 0 <= x <= 255)%Q (arr_data img)) as Hstored.
  { intros img Himg.
    assert (ReplayBuffer.get (BoxDeliveryImageDataset.replay_buffer self) "img"
            = Some (NDArray UInt8 [3; 1; 1; 3]
                      [0; 128; 255; 10; 20; 30; 255; 255; 0]%Q)) as Heval
      by reflexivity.
    rewrite Heval in Himg. injection Himg as <-. cbn.
    repeat (constructor; [split; discriminate|]). constructor. }
  assert (BoxDeliveryImageDataset.sampler_consistent self) as Hinv
    by reflexivity.
  eexists _, _. split; [exact Hinv|]. split; [exact Hstored|].
  split; [reflexivity|]. split; [reflexivity|]. split; [reflexivity|].
  eapply (getitem_image_in_unit_interval (RL := rounding_laws)
            (SV := sampler_values) self 0%Z);
    [exact Hinv | exact Hstored | reflexivity | reflexivity].
Defined.

(** The same window: five state columns, of which two are kept. *)
Lemma getitem_agent_pos_action_shapes_witness :
  let self := image_dataset image_store [false; true] in
  ∃ sample state action out agent_pos,
    sample_sequence (BoxDeliveryImageDataset.sampler self) 0 = Some sample ∧
    sample !! "state" = Some state ∧
    sample !! "action" = Some action ∧
    Z.of_nat 2 = BoxDeliveryImageDataset.horizon self ∧
    arr_shape state = [2; 5] ∧
    arr_shape action = [2; 2] ∧
    BoxDeliveryImageDataset.getitem self 0 = Some out ∧
    item "obs" out ≫= item "agent_pos" = Some (Leaf agent_pos) ∧
    t_shape agent_pos = [2; 2] ∧
    t_dtype agent_pos = Float32.
Proof.
  intros self.
  pose proof (getitem_agent_pos_action_shapes (H := rounding) self 0%Z
                (cut (mkWindow 1 2 3) 2 <$> rb_data image_store)
                (cut (mkWindow 1 2 3) 2
                   (NDArray Float64 [3; 5]
                      [1; 2; 3; 4; 5; 6; 7; 8; 9; 10; 11; 12; 13; 14; 15]%Q))
                (cut (mkWindow 1 2 3) 2
                   (NDArray Float64 [3; 2] [1 # 2; 1 # 3; 0; 1; 2; 3]%Q))
                2 5 [2] eq_refl eq_refl eq_refl eq_refl eq_refl
                ltac:(lia) eq_refl) as Hthm.
  destruct (BoxDeliveryImageDataset.getitem self 0) as [out|] eqn:Hout.
  - destruct Hthm as (agent_pos & act & Hpos & _ & Hshape & Hdtype & _).
    eexists _, _, _, out, agent_pos.
    split; [reflexivity|]. split; [reflexivity|]. split; [reflexivity|].
    split; [reflexivity|]. split; [reflexivity|]. split; [reflexivity|].
    by repeat split.
  - discriminate Hout.
Defined.

(** C3 as the specification has it fails when the stored state has a
    single column: [state[:, :2]] then has one column.  The window below
    is the first one of [narrow_store]; its [state] and [action] have
    [horizon = 2] rows, and [obs.agent_pos] has shape [(2, 1)]. *)
Lemma getitem_agent_pos_shape_one_column :
  ¬ (∀ (R : Rounding) (S : SamplerLib) (self : BoxDeliveryImageDataset.t)
       idx sample state action rows state_dims action_dims out agent_pos,
       (0 ≤ idx < Z.of_nat (BoxDeliveryImageDataset.len self))%Z →
       sample_sequence (BoxDeliveryImageDataset.sampler self) idx
         = Some sample →
       sample !! "state" = Some state →
       sample !! "action" = Some action →
       Z.of_nat rows = BoxDeliveryImageDataset.horizon self →
       arr_shape state = rows :: state_dims →
       arr_shape action = rows :: action_dims →
       BoxDeliveryImageDataset.getitem self idx = Some out →
       item "obs" out ≫= item "agent_pos" = Some (Leaf agent_pos) →
       t_shape agent_pos = [rows; 2]).
Proof.
  intros Hclaim.
  assert (∃ agent_pos,
            (BoxDeliveryImageDataset.getitem
                 (image_dataset narrow_store [true; true]) 0
               ≫= λ out, item "obs" out ≫= item "agent_pos")
              = Some (Leaf agent_pos) ∧
            t_shape agent_pos = [2; 1]) as (agent_pos & Hpos & Hshape).
  { eexists. split; reflexivity. }
  destruct (BoxDeliveryImageDataset.getitem
              (image_dataset narrow_store [true; true]) 0)
    as [out|] eqn:Hout; [|discriminate Hpos].
  cbn [mbind option_bind] in Hpos.
  specialize (Hclaim rounding sampler_lib
                (image_dataset narrow_store [true; true]) 0%Z
                (cut (mkWindow (-1) 0 2) 2 <$> rb_data narrow_store)
                (cut (mkWindow (-1) 0 2) 2 (NDArray Float64 [3; 1] [1; 2; 3]%Q))
                (cut (mkWindow (-1) 0 2) 2
                   (NDArray Float64 [3; 2] [1 # 2; 1 # 3; 0; 1; 2; 3]%Q))
                2 [1] [2] out agent_pos).
  rewrite Hshape in Hclaim.
  discriminate Hclaim; first [reflexivity | assumption | by split].
Qed.

(** The whole buffer of [lowdim_store]: three timesteps, two boxes of two
    coordinates each and a goal of three numbers give seven features.  In
    row 1, feature 2 is coordinate 0 of box 1 and feature 5 is entry 1 of
    the goal. *)
Lemma lowdim_sample_to_data_obs_witness :
  let self := lowdim_dataset (lowdim_store [1; 1; 1; 0; 0; 0]%Q) [false; true] in
  let sample := rb_data (lowdim_store [1; 1; 1; 0; 0; 0]%Q) in
  ∃ out obs,
    BoxDeliveryLowdimDataset.sample_to_data self sample = Some out ∧
    item "obs" out = Some (Leaf obs) ∧
    arr_shape obs = [3; 7] ∧
    Indexing.array_at obs [1; 2] = Some 7%Q ∧
    Indexing.array_at obs [1; 5] = Some 1%Q.
Proof.
  intros self sample.
  destruct (lowdim_sample_to_data_obs (H := rounding) self sample)
    as [Hshape Hreturns].
  destruct (BoxDeliveryLowdimDataset.sample_to_data self sample)
    as [out|] eqn:Hout.
  - destruct (Hshape out eq_refl)
      as (state & goal & flat & obs & time & inner & goal_dim & Hstate
          & Hgoal & _ & _ & Hobs & _ & Hs & Hg & _ & Ho & Hdt & Hrows).
    exists out, obs. split; [reflexivity|]. split; [exact Hobs|].
    assert (sample !! BoxDeliveryLowdimDataset.obs_key self
            = Some (NDArray Float64 [3; 2; 2]
                      [1; 2; 3; 4; 5; 6; 7; 8; 9; 10; 11; 12]%Q)) as Hs'
      by reflexivity.
    assert (sample !! BoxDeliveryLowdimDataset.state_key self
            = Some (NDArray Float64 [3; 3] [0; 0; 1; 0; 1; 0; 1; 0; 0]%Q))
      as Hg' by reflexivity.
    rewrite Hs' in Hstate. rewrite Hg' in Hgoal.
    injection Hstate as <-. injection Hgoal as <-.
    cbn in Hs, Hg. injection Hs as <- <-. injection Hg as <-.
    split; [rewrite Ho; reflexivity|].
    destruct (Hrows eq_refl eq_refl) as [_ Hat].
    destruct (Hat 1 ltac:(lia)) as [Hleft Hright].
    cbn in Hdt. split.
    + specialize (Hleft [1; 0] ltac:(repeat constructor)).
      rewrite Hdt in Hleft. exact Hleft.
    + specialize (Hright 1 ltac:(lia)).
      rewrite Hdt in Hright. exact Hright.
  - discriminate Hout.
Defined.

(** The normalizer of the image dataset over [image_store]: the entry of
    the images, and two elements of the [agent_pos] that is fitted. *)
Lemma image_get_normalizer_fits_action_agent_pos_witness :
  let self := image_dataset image_store [false; true] in
  (∃ normalizer,
     BoxDeliveryImageDataset.get_normalizer self "limits" no_kwargs
       = Some normalizer ∧
     normalizer !! "image" = Some (2, -1)%Q) ∧
  ∃ data agent_pos,
    BoxDeliveryImageDataset.normalizer_data self = Some data ∧
    item "agent_pos" data = Some (Leaf agent_pos) ∧
    arr_shape agent_pos = [3; 2] ∧
    Indexing.array_at agent_pos [1; 1] = Some 7%Q ∧
    Indexing.array_at agent_pos [2; 0] = Some 11%Q.
Proof.
  intros self.
  destruct (image_get_normalizer_fits_action_agent_pos self "limits" no_kwargs)
    as (_ & Himage & Hdata & _).
  split.
  - destruct (BoxDeliveryImageDataset.get_normalizer self "limits" no_kwargs)
      as [normalizer|] eqn:Hn; [|discriminate Hn].
    exists normalizer. split; [reflexivity|]. exact (Himage normalizer eq_refl).
  - destruct (BoxDeliveryImageDataset.normalizer_data self) as [data|] eqn:Hd;
      [|discriminate Hd].
    destruct (Hdata data eq_refl)
      as (d & lead & columns & agent_pos & -> & _ & _ & Hap & Hshape & Hs
          & state & Hstate & _ & Hrows).
    exists (Dict d), agent_pos. split; [reflexivity|]. split; [exact Hap|].
    assert (rb_data (BoxDeliveryImageDataset.replay_buffer self) !! "state"
            = Some (NDArray Float64 [3; 5]
                      [1; 2; 3; 4; 5; 6; 7; 8; 9; 10; 11; 12; 13; 14; 15]%Q))
      as Heval by reflexivity.
    rewrite Heval in Hshape, Hstate. injection Hstate as <-.
    cbn in Hshape. injection Hshape as Hshape.
    change [3; 5] with ([3] ++ [5]) in Hshape.
    apply app_inj_tail in Hshape as [<- <-].
    destruct (Hrows eq_refl) as [_ Hat].
    split; [exact Hs|]. split.
    + destruct (Hat [1] 1) as (x & Hx & Hax); [repeat constructor | cbn; lia |].
      change ([1] ++ [1]) with [1; 1] in Hx, Hax.
      rewrite Hax, <- Hx. reflexivity.
    + destruct (Hat [2] 0) as (x & Hx & Hax); [repeat constructor | cbn; lia |].
      change ([2] ++ [0]) with [2; 0] in Hx, Hax.
      rewrite Hax, <- Hx. reflexivity.
Defined.

(** The normalizer of the low-dimensional dataset over [lowdim_store]. *)
Lemma lowdim_get_normalizer_fits_whole_buffer_witness :
  let store := lowdim_store [1; 1; 1; 0; 0; 0]%Q in
  let self := lowdim_dataset store [false; true] in
  ∃ normalizer state goal flat obs action,
    BoxDeliveryLowdimDataset.get_normalizer self "limits" no_kwargs
      = Some normalizer ∧
    ReplayBuffer.get store "state_positions" = Some state ∧
    ReplayBuffer.get store "goal" = Some goal ∧
    NumPy.reshape_rows state = Some flat ∧
    NumPy.concatenate_last flat goal = Some obs ∧
    ReplayBuffer.get store "action" = Some action ∧
    fit ∅ (Dict (<["obs" := Leaf obs]> (<["action" := Leaf action]> ∅)))
        1 "limits" no_kwargs = Some normalizer.
Proof.
  intros store self.
  destruct (BoxDeliveryLowdimDataset.get_normalizer self "limits" no_kwargs)
    as [normalizer|] eqn:Hn; [|discriminate Hn].
  destruct (proj1 (proj1 (lowdim_get_normalizer_fits_whole_buffer
                            (H := rounding) self "limits" no_kwargs) normalizer) Hn)
    as (state & goal & flat & obs & action & ? & ? & ? & ? & ? & ?).
  by exists normalizer, state, goal, flat, obs, action.
Defined.

(** Two stores that differ in the elements of [valid_obs_mask] only. *)
Lemma mask_key_noninterference_witness :
  let store1 := lowdim_store [1; 1; 1; 0; 0; 0]%Q in
  let store2 := lowdim_store [0; 0; 0; 0; 1; 1]%Q in
  let ds1 := lowdim_dataset store1 [false; true] in
  let ds2 := lowdim_dataset store2 [false; true] in
  same_except "valid_obs_mask" store1 store2 ∧
  BoxDeliveryLowdimDataset.len ds1 = BoxDeliveryLowdimDataset.len ds2 ∧
  (∀ idx, BoxDeliveryLowdimDataset.getitem ds1 idx
          = BoxDeliveryLowdimDataset.getitem ds2 idx) ∧
  (∀ mode kw, BoxDeliveryLowdimDataset.get_normalizer ds1 mode kw
              = BoxDeliveryLowdimDataset.get_normalizer ds2 mode kw) ∧
  BoxDeliveryLowdimDataset.get_all_actions ds1
    = BoxDeliveryLowdimDataset.get_all_actions ds2.
Proof.
  intros store1 store2 ds1 ds2.
  assert (same_except "valid_obs_mask" store1 store2) as Hsame
    by (by apply same_except_insert).
  split; [exact Hsame|].
  pose proof (mask_key_noninterference (R := rounding) (SF := sampler_frame)
                store1 store2 2%Z 1%Z 1%Z "state_positions" "goal" "action"
                "valid_obs_mask" 42%Z (1 # 2)%Q None ∅ Hsame
                eq_refl eq_refl eq_refl) as Hthm.
  unfold store1, store2 in Hthm. rewrite !lowdim_init_eval in Hthm.
  inversion Hthm as [? ? Hrel|]. cbv beta iota in Hrel.
  destruct Hrel as (_ & d1 & d2 & Hd1 & Hd2 & _ & _ & Hrest).
  rewrite lookup_singleton_eq in Hd1, Hd2.
  injection Hd1 as <-. injection Hd2 as <-. exact Hrest.
Defined.
End on_reference_stores.

(** ** More on the records of the image adapter *)

(** X1. A record returned by [__getitem__] of the image adapter is
    [{'obs': {'image', 'agent_pos'}, 'action'}] and nothing else.  The image
    is channel-first: a window image of shape [(T, .., C)] gives shape
    [(T, C, ..)]; it has the type of the division: a 32-bit float image gives
    32-bit floats, a 64-bit float, bool, uint8 or int64 image gives 64-bit
    floats (images of other types are not modelled).  [agent_pos] has at
    most two entries on axis 1, [action] the shape of the window's action;
    both are 32-bit float. *)
Theorem image_getitem_layout `{Rounding} `{SamplerLib}
    (self : BoxDeliveryImageDataset.t) idx out :
  BoxDeliveryImageDataset.getitem self idx = Some out →
  ∃ sample img state action image agent_pos act,
    sample_sequence (BoxDeliveryImageDataset.sampler self) idx = Some sample ∧
    sample !! "img" = Some img ∧
    sample !! "state" = Some state ∧
    sample !! "action" = Some action ∧
    out = Dict (<["obs" := Dict (<["image" := Leaf image]>
                                 (<["agent_pos" := Leaf agent_pos]> ∅))]>
               (<["action" := Leaf act]> ∅)) ∧
    (∃ d0 mid c, arr_shape img = d0 :: mid ++ [c] ∧
                 t_shape image = d0 :: c :: mid) ∧
    t_dtype image
      = match arr_dtype img with
        | Float32 => Float32
        | Float64 | Bool | UInt8 | Int64 => Float64
        end ∧
    (∃ d0 d1 rest, arr_shape state = d0 :: d1 :: rest ∧
                   t_shape agent_pos = d0 :: Nat.min d1 2 :: rest) ∧
    t_dtype agent_pos = Float32 ∧
    t_shape act = arr_shape action ∧
    t_dtype act = Float32.
Proof.
  intros (sample & data & Hsample & Hdata & ->)%image_getitem_Some.
  apply image_sample_to_data_Some in Hdata
    as (state & sliced & img & moved & action
        & Hstate & Hsliced & Himg & Hmoved & Haction & ->).
  cbn [dict_apply]. rewrite !fmap_insert, fmap_empty. cbn [dict_apply].
  rewrite !fmap_insert, fmap_empty. cbn [dict_apply].
  eexists sample, img, state, action, _, _, _.
  do 4 (split; [done|]). split; [reflexivity|]. cbn.
  apply slice_axis1_Some in Hsliced as (d0 & d1 & rest & Hs & Hs' & _).
  unfold NumPy.moveaxis_last_to_1 in Hmoved.
  destruct (arr_shape img) as [|e0 erest] eqn:Hshape; [done|].
  destruct (NumPy.split_last erest) as [[mid c]|] eqn:Hrest; [|done].
  cbn in Hmoved. injection Hmoved as <-. cbn.
  apply split_last_Some in Hrest as ->.
  split; [by exists e0, mid, c|].
  split; [by destruct (arr_dtype img)|].
  split; [by exists d0, d1, rest|]. done.
Qed.

(** X2. The image of a record holds the pixels of the window with the
    channel axis moved behind the time axis, each divided by 255:
    [image[t, c, i..] = img[t, i.., c] / 255].  A pixel of a floating-point
    image is divided in the type of the image.  A pixel of a bool, uint8 or
    int64 image is first converted to a 64-bit float, which changes it only
    when it exceeds [2^53] in magnitude, and is then divided. *)
Theorem image_getitem_pixels `{Rounding} `{SamplerLib}
    (self : BoxDeliveryImageDataset.t) idx sample img out image d0 mid c :
  sample_sequence (BoxDeliveryImageDataset.sampler self) idx = Some sample →
  sample !! "img" = Some img →
  NumPy.wf img →
  arr_shape img = d0 :: mid ++ [c] →
  BoxDeliveryImageDataset.getitem self idx = Some out →
  item "obs" out ≫= item "image" = Some (Leaf image) →
  ∀ t ch ridx,
    t < d0 → ch < c → Indexing.in_bounds mid ridx →
    ∃ x, Indexing.array_at img (t :: ridx ++ [ch]) = Some x ∧
         Indexing.tensor_at image (t :: ch :: ridx)
         = Some match arr_dtype img with
                | Float32 => round Float32 (x / 255)%Q
                | Float64 => round Float64 (x / 255)%Q
                | Bool | UInt8 | Int64 =>
                    if Qle_bool (Qabs x) (inject_Z (2 ^ 53))
                    then round Float64 (x / 255)%Q
                    else round Float64 (round Float64 x / 255)%Q
                end.
Proof.
  intros Hsample Himg Hwf Hshape Hout Himage t ch ridx Ht Hch Hridx.
  apply image_getitem_Some in Hout as (sample' & data & Hsample' & Hdata & ->).
  rewrite Hsample in Hsample'. injection Hsample' as <-.
  apply image_sample_to_data_Some in Hdata
    as (state & sliced & img' & moved & action
        & _ & _ & Himg' & Hmoved & _ & ->).
  rewrite Himg in Himg'. injection Himg' as <-.
  cbn in Himage. rewrite !fmap_insert, lookup_insert_eq in Himage.
  cbn in Himage. rewrite !fmap_insert, lookup_insert_eq in Himage.
  injection Himage as <-.
  destruct (moveaxis_last_to_1_at img moved d0 mid c t ch ridx Hmoved Hwf
              Hshape Ht Hch Hridx) as [Hat [x Hx]].
  exists x. split; [done|].
  rewrite from_numpy_at, divide_scalar_at, Hat, Hx. cbn.
  assert (arr_dtype moved = arr_dtype img) as ->.
  { unfold NumPy.moveaxis_last_to_1 in Hmoved. rewrite Hshape in Hmoved.
    rewrite split_last_snoc in Hmoved. cbn in Hmoved.
    by injection Hmoved as <-. }
  unfold NumPy.true_divide_operand, NumPy.float64_exact.
  destruct (arr_dtype img); cbn; try done;
    by destruct (Qle_bool (Qabs x) (inject_Z (2 ^ 53))).
Qed.

(** X3. [agent_pos] holds the first two entries of axis 1 of the window's
    state and [action] the window's action, element by element, converted
    to 32-bit float (unchanged when stored as 32-bit float). *)
Theorem image_getitem_agent_pos_action_elements `{Rounding} `{SamplerLib}
    (self : BoxDeliveryImageDataset.t) idx sample state action out
    agent_pos act d0 d1 rest :
  sample_sequence (BoxDeliveryImageDataset.sampler self) idx = Some sample →
  sample !! "state" = Some state →
  sample !! "action" = Some action →
  NumPy.wf state →
  arr_shape state = d0 :: d1 :: rest →
  BoxDeliveryImageDataset.getitem self idx = Some out →
  item "obs" out ≫= item "agent_pos" = Some (Leaf agent_pos) →
  item "action" out = Some (Leaf act) →
  (∀ t j ridx,
     t < d0 → j < Nat.min d1 2 → Indexing.in_bounds rest ridx →
     ∃ x, Indexing.array_at state (t :: j :: ridx) = Some x ∧
          Indexing.tensor_at agent_pos (t :: j :: ridx)
          = Some (Indexing.cast (arr_dtype state) Float32 x)) ∧
  (∀ index,
     Indexing.tensor_at act index
     = Indexing.cast (arr_dtype action) Float32
         <$> Indexing.array_at action index).
Proof.
  intros Hsample Hstate Haction Hwf Hshape Hout Hpos Hact.
  apply image_getitem_Some in Hout as (sample' & data & Hsample' & Hdata & ->).
  rewrite Hsample in Hsample'. injection Hsample' as <-.
  apply image_sample_to_data_Some in Hdata
    as (state' & sliced & img & moved & action'
        & Hstate' & Hsliced & _ & _ & Haction' & ->).
  rewrite Hstate in Hstate'. injection Hstate' as <-.
  rewrite Haction in Haction'. injection Haction' as <-.
  cbn in Hpos, Hact. rewrite !fmap_insert, lookup_insert_eq in Hpos.
  cbn in Hpos. rewrite !fmap_insert in Hpos.
  rewrite lookup_insert_ne, lookup_insert_eq in Hpos by done.
  rewrite !fmap_insert in Hact.
  rewrite lookup_insert_ne, lookup_insert_eq in Hact by done.
  injection Hpos as <-. injection Hact as <-. split.
  - intros t j ridx Ht Hj Hridx.
    destruct (slice_axis1_at 2 state sliced d0 d1 rest t j ridx Hsliced Hwf
                Hshape Ht Hj Hridx) as [Hat [x Hx]].
    exists x. split; [done|].
    rewrite from_numpy_at, astype_at, Hat, Hx. cbn.
    apply slice_axis1_Some in Hsliced as (? & ? & ? & _ & _ & ->). done.
  - intros index. by rewrite from_numpy_at, astype_at.
Qed.

(** X4. [_sample_to_data] of the image adapter returns exactly when the
    window has the three fields ['state'], ['img'] and ['action'] and both
    the state and the image have at least two axes; otherwise it fails
    (missing key, or too many indices for the slice or the axis move). *)
Theorem image_sample_to_data_returns `{Rounding}
    (sample : gmap string ndarray) :
  is_Some (BoxDeliveryImageDataset.sample_to_data sample) ↔
  ∃ state img action,
    sample !! "state" = Some state ∧
    sample !! "img" = Some img ∧
    sample !! "action" = Some action ∧
    2 ≤ NumPy.ndim state ∧ 2 ≤ NumPy.ndim img.
Proof.
  split.
  - intros [out (state & sliced & img & moved & action & Hstate & Hsliced
                 & Himg & Hmoved & Haction & _)%image_sample_to_data_Some].
    exists state, img, action. repeat split; try done.
    + apply (proj1 (slice_axis1_is_Some 2 state)). eauto.
    + apply (proj1 (moveaxis_last_to_1_is_Some img)). eauto.
  - intros (state & img & action & Hstate & Himg & Haction & Hs & Hi).
    destruct (proj2 (slice_axis1_is_Some 2 state) Hs) as [sliced Hsliced].
    destruct (proj2 (moveaxis_last_to_1_is_Some img) Hi) as [moved Hmoved].
    eexists. apply image_sample_to_data_Some.
    by exists state, sliced, img, moved, action.
Qed.

(** ** More on validation views *)

(** X5. The validation view shares the replay buffer and the windowing
    parameters (and, for the low-dimensional adapter, the field names) of
    the dataset it is derived from, and its sampler is the one built over
    that buffer, these parameters and the complement mask: the view
    satisfies the sampler invariant whatever the dataset looked like. *)
Theorem validation_view_attributes `{SamplerLib} :
  (∀ (h : gmap Heap.loc BoxDeliveryImageDataset.t) self ds val_set h' vs,
     h !! self = Some ds →
     BoxDeliveryImageDataset.get_validation_dataset self h
       = Some (val_set, h') →
     h' !! val_set = Some vs →
     BoxDeliveryImageDataset.replay_buffer vs
       = BoxDeliveryImageDataset.replay_buffer ds ∧
     BoxDeliveryImageDataset.horizon vs = BoxDeliveryImageDataset.horizon ds ∧
     BoxDeliveryImageDataset.pad_before vs
       = BoxDeliveryImageDataset.pad_before ds ∧
     BoxDeliveryImageDataset.pad_after vs
       = BoxDeliveryImageDataset.pad_after ds ∧
     new_sampler (BoxDeliveryImageDataset.replay_buffer ds)
       (BoxDeliveryImageDataset.horizon ds)
       (BoxDeliveryImageDataset.pad_before ds)
       (BoxDeliveryImageDataset.pad_after ds)
       (invert (BoxDeliveryImageDataset.train_mask ds))
       = Some (BoxDeliveryImageDataset.sampler vs) ∧
     BoxDeliveryImageDataset.sampler_consistent vs) ∧
  (∀ (h : gmap Heap.loc BoxDeliveryLowdimDataset.t) self ds val_set h' vs,
     h !! self = Some ds →
     BoxDeliveryLowdimDataset.get_validation_dataset self h
       = Some (val_set, h') →
     h' !! val_set = Some vs →
     BoxDeliveryLowdimDataset.replay_buffer vs
       = BoxDeliveryLowdimDataset.replay_buffer ds ∧
     BoxDeliveryLowdimDataset.obs_key vs
       = BoxDeliveryLowdimDataset.obs_key ds ∧
     BoxDeliveryLowdimDataset.state_key vs
       = BoxDeliveryLowdimDataset.state_key ds ∧
     BoxDeliveryLowdimDataset.action_key vs
       = BoxDeliveryLowdimDataset.action_key ds ∧
     BoxDeliveryLowdimDataset.horizon vs
       = BoxDeliveryLowdimDataset.horizon ds ∧
     BoxDeliveryLowdimDataset.pad_before vs
       = BoxDeliveryLowdimDataset.pad_before ds ∧
     BoxDeliveryLowdimDataset.pad_after vs
       = BoxDeliveryLowdimDataset.pad_after ds ∧
     new_sampler (BoxDeliveryLowdimDataset.replay_buffer ds)
       (BoxDeliveryLowdimDataset.horizon ds)
       (BoxDeliveryLowdimDataset.pad_before ds)
       (BoxDeliveryLowdimDataset.pad_after ds)
       (invert (BoxDeliveryLowdimDataset.train_mask ds))
       = Some (BoxDeliveryLowdimDataset.sampler vs) ∧
     BoxDeliveryLowdimDataset.sampler_consistent vs).
Proof.
  split; intros h self ds val_set h' vs Hself Hval Hvs.
  - rewrite (image_get_validation_dataset_run h self ds Hself) in Hval.
    destruct (new_sampler _ _ _ _ _) as [s|] eqn:Hs; [|done].
    injection Hval as <- <-. rewrite lookup_insert_eq in Hvs.
    injection Hvs as <-. by repeat split.
  - rewrite (lowdim_get_validation_dataset_run h self ds Hself) in Hval.
    destruct (new_sampler _ _ _ _ _) as [s|] eqn:Hs; [|done].
    injection Hval as <- <-. rewrite lookup_insert_eq in Hvs.
    injection Hvs as <-. by repeat split.
Qed.

(** X6. The sampler invariant holds for every dataset a program can build:
    in a heap reached from the empty heap by constructing datasets and
    deriving validation views, the sampler of every dataset is the one built
    over its own replay buffer, windowing parameters and train mask. *)
Theorem reachable_sampler_consistent `{SamplerLib} :
  (∀ h : gmap Heap.loc BoxDeliveryImageDataset.t,
     image_reachable h →
     ∀ l ds, h !! l = Some ds → BoxDeliveryImageDataset.sampler_consistent ds) ∧
  (∀ h : gmap Heap.loc BoxDeliveryLowdimDataset.t,
     lowdim_reachable h →
     ∀ l ds, h !! l = Some ds → BoxDeliveryLowdimDataset.sampler_consistent ds).
Proof.
  split.
  - induction 1 as [|h ? ? ? ? ? ? ? l0 h' _ IH Hinit
                    |h self val_set h' _ IH Hval]; intros l ds Hl.
    + by rewrite lookup_empty in Hl.
    + destruct (decide (l = l0)) as [->|Hne].
      * by eapply image_init_consistent.
      * apply image_init_Some in Hinit as (? & ? & ? & _ & _ & _ & _ & ->).
        rewrite lookup_insert_ne in Hl by done. by eapply IH.
    + destruct (h !! self) as [caller|] eqn:Hself.
      * destruct (decide (l = val_set)) as [->|Hne].
        -- by eapply image_validation_consistent.
        -- rewrite (image_get_validation_dataset_run h self caller Hself)
             in Hval.
           destruct (new_sampler _ _ _ _ _); [|done].
           injection Hval as <- <-.
           rewrite lookup_insert_ne in Hl by done. by eapply IH.
      * unfold BoxDeliveryImageDataset.get_validation_dataset, Heap.bind,
          Heap.copy in Hval. by rewrite Hself in Hval.
  - induction 1 as [|h ? ? ? ? ? ? ? ? ? ? ? l0 h' _ IH Hinit
                    |h self val_set h' _ IH Hval]; intros l ds Hl.
    + by rewrite lookup_empty in Hl.
    + destruct (decide (l = l0)) as [->|Hne].
      * by eapply lowdim_init_consistent.
      * apply lowdim_init_Some in Hinit as (? & ? & ? & _ & _ & _ & _ & ->).
        rewrite lookup_insert_ne in Hl by done. by eapply IH.
    + destruct (h !! self) as [caller|] eqn:Hself.
      * destruct (decide (l = val_set)) as [->|Hne].
        -- by eapply lowdim_validation_consistent.
        -- rewrite (lowdim_get_validation_dataset_run h self caller Hself)
             in Hval.
           destruct (new_sampler _ _ _ _ _); [|done].
           injection Hval as <- <-.
           rewrite lookup_insert_ne in Hl by done. by eapply IH.
      * unfold BoxDeliveryLowdimDataset.get_validation_dataset, Heap.bind,
          Heap.copy in Hval. by rewrite Hself in Hval.
Qed.

(** X7. Normalization does not see the split: [get_normalizer] of the
    validation view gives what [get_normalizer] of the dataset gives, for
    both adapters, and so does [get_all_actions] of the low-dimensional
    adapter. *)
Theorem validation_view_same_normalizer `{Rounding} `{SamplerLib}
    `{NormalizerLib} :
  (∀ (h : gmap Heap.loc BoxDeliveryImageDataset.t) self ds val_set h' vs
     mode kw,
     h !! self = Some ds →
     BoxDeliveryImageDataset.get_validation_dataset self h
       = Some (val_set, h') →
     h' !! val_set = Some vs →
     BoxDeliveryImageDataset.get_normalizer vs mode kw
       = BoxDeliveryImageDataset.get_normalizer ds mode kw) ∧
  (∀ (h : gmap Heap.loc BoxDeliveryLowdimDataset.t) self ds val_set h' vs
     mode kw,
     h !! self = Some ds →
     BoxDeliveryLowdimDataset.get_validation_dataset self h
       = Some (val_set, h') →
     h' !! val_set = Some vs →
     BoxDeliveryLowdimDataset.get_normalizer vs mode kw
       = BoxDeliveryLowdimDataset.get_normalizer ds mode kw ∧
     BoxDeliveryLowdimDataset.get_all_actions vs
       = BoxDeliveryLowdimDataset.get_all_actions ds).
Proof.
  split; intros h self ds val_set h' vs mode kw Hself Hval Hvs.
  - rewrite (image_get_validation_dataset_run h self ds Hself) in Hval.
    destruct (new_sampler _ _ _ _ _) as [s|]; [|done].
    injection Hval as <- <-. rewrite lookup_insert_eq in Hvs.
    by injection Hvs as <-.
  - rewrite (lowdim_get_validation_dataset_run h self ds Hself) in Hval.
    destruct (new_sampler _ _ _ _ _) as [s|]; [|done].
    injection Hval as <- <-. rewrite lookup_insert_eq in Hvs.
    by injection Hvs as <-.
Qed.

(** X8. For a dataset that satisfies the sampler invariant, deriving the
    validation view of its validation view cannot fail and gives a new
    object with exactly the attributes of the dataset, so that every method
    behaves on it as on the dataset. *)
Theorem validation_view_twice_is_copy `{SamplerLib} :
  (∀ (h : gmap Heap.loc BoxDeliveryImageDataset.t) self ds val_set h1,
     h !! self = Some ds →
     BoxDeliveryImageDataset.sampler_consistent ds →
     BoxDeliveryImageDataset.get_validation_dataset self h
       = Some (val_set, h1) →
     ∃ back h2,
       BoxDeliveryImageDataset.get_validation_dataset val_set h1
         = Some (back, h2) ∧
       back ≠ self ∧ back ≠ val_set ∧
       h2 !! back = Some ds ∧ h2 !! self = Some ds) ∧
  (∀ (h : gmap Heap.loc BoxDeliveryLowdimDataset.t) self ds val_set h1,
     h !! self = Some ds →
     BoxDeliveryLowdimDataset.sampler_consistent ds →
     BoxDeliveryLowdimDataset.get_validation_dataset self h
       = Some (val_set, h1) →
     ∃ back h2,
       BoxDeliveryLowdimDataset.get_validation_dataset val_set h1
         = Some (back, h2) ∧
       back ≠ self ∧ back ≠ val_set ∧
       h2 !! back = Some ds ∧ h2 !! self = Some ds).
Proof.
  split; intros h self ds val_set h1 Hself Hinv Hval.
  - rewrite (image_get_validation_dataset_run h self ds Hself) in Hval.
    destruct (new_sampler _ _ _ _ (invert _)) as [s|]; [|done].
    injection Hval as <- <-.
    pose proof (fresh_loc_ne _ _ _ Hself) as Hne.
    erewrite image_get_validation_dataset_run by apply lookup_insert_eq.
    cbn. rewrite invert_involutive, Hinv. cbn.
    set (h1 := <[fresh (dom h) := _]> h).
    assert (h1 !! self = Some ds) as Hself1
      by (unfold h1; by rewrite lookup_insert_ne).
    assert (h1 !! fresh (dom h) = Some
              (BoxDeliveryImageDataset.set_train_mask
                 (invert (BoxDeliveryImageDataset.train_mask ds))
                 (BoxDeliveryImageDataset.set_sampler s ds))) as Hval1
      by apply lookup_insert_eq.
    eexists _, _. split; [done|].
    split; [by eapply fresh_loc_ne|]. split; [by eapply fresh_loc_ne|].
    rewrite lookup_insert_eq.
    rewrite lookup_insert_ne by (by eapply fresh_loc_ne).
    split; [|done]. by destruct ds.
  - rewrite (lowdim_get_validation_dataset_run h self ds Hself) in Hval.
    destruct (new_sampler _ _ _ _ (invert _)) as [s|]; [|done].
    injection Hval as <- <-.
    pose proof (fresh_loc_ne _ _ _ Hself) as Hne.
    erewrite lowdim_get_validation_dataset_run by apply lookup_insert_eq.
    cbn. rewrite invert_involutive, Hinv. cbn.
    set (h1 := <[fresh (dom h) := _]> h).
    assert (h1 !! self = Some ds) as Hself1
      by (unfold h1; by rewrite lookup_insert_ne).
    assert (h1 !! fresh (dom h) = Some
              (BoxDeliveryLowdimDataset.set_train_mask
                 (invert (BoxDeliveryLowdimDataset.train_mask ds))
                 (BoxDeliveryLowdimDataset.set_sampler s ds))) as Hval1
      by apply lookup_insert_eq.
    eexists _, _. split; [done|].
    split; [by eapply fresh_loc_ne|]. split; [by eapply fresh_loc_ne|].
    rewrite lookup_insert_eq.
    rewrite lookup_insert_ne by (by eapply fresh_loc_ne).
    split; [|done]. by destruct ds.
Qed.

(** ** More on the records of the low-dimensional adapter *)

(** X9. Row [t] of the [obs] built by [_sample_to_data] of the
    low-dimensional adapter is the flattened timestep [t] of the observation
    field followed by row [t] of the goal field:
    [obs[t, ravel(i..)] = state[t, i..]] and [obs[t, F + j] = goal[t, j]],
    where [F] is the flattened observation dimension.  The elements are
    converted to the promoted type of the two fields, and left as they are
    when the fields have the same type. *)
Theorem lowdim_obs_elements `{Rounding} `{SamplerLib}
    (self : BoxDeliveryLowdimDataset.t) (sample : gmap string ndarray)
    out obs state goal time inner goal_dim :
  BoxDeliveryLowdimDataset.sample_to_data self sample = Some out →
  item "obs" out = Some (Leaf obs) →
  sample !! BoxDeliveryLowdimDataset.obs_key self = Some state →
  sample !! BoxDeliveryLowdimDataset.state_key self = Some goal →
  NumPy.wf state → NumPy.wf goal →
  arr_shape state = time :: inner →
  arr_shape goal = [time; goal_dim] →
  arr_dtype obs = NumPy.promote_types (arr_dtype state) (arr_dtype goal) ∧
  ∀ t, t < time →
    (∀ ridx, Indexing.in_bounds inner ridx →
       Indexing.array_at obs [t; Indexing.ravel inner ridx]
       = Indexing.cast (arr_dtype state) (arr_dtype obs)
           <$> Indexing.array_at state (t :: ridx)) ∧
    (∀ j, j < goal_dim →
       Indexing.array_at obs [t; NumPy.prod_list inner + j]
       = Indexing.cast (arr_dtype goal) (arr_dtype obs)
           <$> Indexing.array_at goal [t; j]).
Proof.
  intros Hout Hobs Hstate Hgoal Hws Hwg Hss Hsg.
  apply lowdim_sample_to_data_Some in Hout
    as (state' & goal' & flat & obs' & action
        & Hstate' & Hgoal' & Hflat & Hcat & _ & ->).
  rewrite Hstate in Hstate'. injection Hstate' as <-.
  rewrite Hgoal in Hgoal'. injection Hgoal' as <-.
  cbn in Hobs. rewrite lookup_insert_eq in Hobs. injection Hobs as ->.
  pose proof (reshape_rows_wf _ _ Hflat Hws) as Hwf.
  pose proof Hflat as (n & rest & Hs & Hflat_eq)%reshape_rows_Some.
  rewrite Hss in Hs. injection Hs as -> ->.
  assert (arr_dtype flat = arr_dtype state) as Hdt by (by rewrite Hflat_eq).
  assert (arr_shape flat = [S n] ++ [NumPy.prod_list rest]) as Hsf
    by (by rewrite Hflat_eq).
  pose proof (concatenate_last_Some _ _ _ Hcat) as (_ & _ & _ & _ & _ & _ & Hpt).
  rewrite Hdt in Hpt. split; [done|].
  intros t Ht.
  destruct (concatenate_last_at flat goal obs [S n] (NumPy.prod_list rest)
              goal_dim [t] Hcat Hwf Hwg Hsf Hsg) as [Hleft Hright].
  { constructor; [exact Ht | constructor]. }
  split.
  - intros ridx Hridx.
    specialize (Hleft _ (ravel_bound _ _ Hridx)). cbn in Hleft.
    rewrite Hleft, Hdt. f_equal.
    by apply (reshape_rows_at state flat (S n) rest).
  - intros j Hj. exact (Hright j Hj).
Qed.

(** X11. A record returned by [__getitem__] of the low-dimensional adapter
    is [{'obs', 'action'}] and nothing else.  The action is the window's
    action as it is, with its type, shape and elements: there is no
    conversion, unlike in the image adapter.  The observation has the
    promoted type of the observation and goal fields. *)
Theorem lowdim_getitem_record `{Rounding} `{SamplerLib}
    (self : BoxDeliveryLowdimDataset.t) idx out :
  BoxDeliveryLowdimDataset.getitem self idx = Some out →
  ∃ sample state goal action obs act,
    sample_sequence (BoxDeliveryLowdimDataset.sampler self) idx = Some sample ∧
    sample !! BoxDeliveryLowdimDataset.obs_key self = Some state ∧
    sample !! BoxDeliveryLowdimDataset.state_key self = Some goal ∧
    sample !! BoxDeliveryLowdimDataset.action_key self = Some action ∧
    out = Dict (<["obs" := Leaf obs]> (<["action" := Leaf act]> ∅)) ∧
    t_dtype act = arr_dtype action ∧
    t_shape act = arr_shape action ∧
    t_data act = arr_data action ∧
    t_dtype obs = NumPy.promote_types (arr_dtype state) (arr_dtype goal) ∧
    ∃ time inner goal_dim,
      arr_shape state = time :: inner ∧
      arr_shape goal = [time; goal_dim] ∧
      t_shape obs = [time; NumPy.prod_list inner + goal_dim].
Proof.
  unfold BoxDeliveryLowdimDataset.getitem.
  destruct (sample_sequence _ _) as [sample|] eqn:Hsample; [|done]. cbn.
  destruct (BoxDeliveryLowdimDataset.sample_to_data self sample)
    as [data|] eqn:Hdata; [|done]. cbn. intros [= <-].
  pose proof Hdata as (state & goal & flat & obs & action
    & Hstate & Hgoal & Hflat & Hcat & Haction & ->)%lowdim_sample_to_data_Some.
  cbn [dict_apply]. rewrite !fmap_insert, fmap_empty. cbn [dict_apply].
  eexists sample, state, goal, action, _, _.
  do 4 (split; [done|]). split; [reflexivity|]. cbn.
  do 3 (split; [done|]).
  pose proof (reshape_rows_Some state flat) as [Hr _].
  destruct (Hr Hflat) as (n & rest & Hs & ->).
  pose proof (concatenate_last_Some _ _ _ Hcat)
    as (lead & da & db & Hlead & Hg & Hshape & Hdt).
  cbn in Hlead, Hdt. symmetry in Hlead.
  apply shape_snoc_pair in Hlead as [-> ->].
  split; [done|]. by exists (S n), rest, db.
Qed.

(** ** Loading *)

(** X10. A constructed dataset holds exactly the fields that [__init__]
    names, with the arrays and the episodes of the store; construction fails
    when the store lacks one of them.  For the low-dimensional adapter this
    includes the field named by [mask_key]. *)
Theorem init_loads_named_fields `{SamplerLib} :
  (∀ store horizon pad_before pad_after seed val_ratio max_train_episodes
     (h : gmap Heap.loc BoxDeliveryImageDataset.t) l h',
     BoxDeliveryImageDataset.init store horizon pad_before pad_after seed
       val_ratio max_train_episodes h = Some (l, h') →
     ∃ ds, h' !! l = Some ds ∧
       episode_ends (BoxDeliveryImageDataset.replay_buffer ds)
         = episode_ends store ∧
       (∀ k, k ∈ ["img"; "state"; "action"] →
             is_Some (rb_data store !! k)) ∧
       ∀ k, rb_data (BoxDeliveryImageDataset.replay_buffer ds) !! k
            = if decide (k ∈ ["img"; "state"; "action"])
              then rb_data store !! k else None) ∧
  (∀ store horizon pad_before pad_after seed val_ratio max_train_episodes
     (h : gmap Heap.loc BoxDeliveryImageDataset.t) k,
     k ∈ ["img"; "state"; "action"] →
     rb_data store !! k = None →
     BoxDeliveryImageDataset.init store horizon pad_before pad_after seed
       val_ratio max_train_episodes h = None) ∧
  (∀ store horizon pad_before pad_after obs_key state_key action_key mask_key
     seed val_ratio max_train_episodes
     (h : gmap Heap.loc BoxDeliveryLowdimDataset.t) l h',
     BoxDeliveryLowdimDataset.init store horizon pad_before pad_after obs_key
       state_key action_key mask_key seed val_ratio max_train_episodes h
       = Some (l, h') →
     ∃ ds, h' !! l = Some ds ∧
       episode_ends (BoxDeliveryLowdimDataset.replay_buffer ds)
         = episode_ends store ∧
       (∀ k, k ∈ [obs_key; state_key; action_key; mask_key] →
             is_Some (rb_data store !! k)) ∧
       ∀ k, rb_data (BoxDeliveryLowdimDataset.replay_buffer ds) !! k
            = if decide (k ∈ [obs_key; state_key; action_key; mask_key])
              then rb_data store !! k else None) ∧
  (∀ store horizon pad_before pad_after obs_key state_key action_key mask_key
     seed val_ratio max_train_episodes
     (h : gmap Heap.loc BoxDeliveryLowdimDataset.t) k,
     k ∈ [obs_key; state_key; action_key; mask_key] →
     rb_data store !! k = None →
     BoxDeliveryLowdimDataset.init store horizon pad_before pad_after obs_key
       state_key action_key mask_key seed val_ratio max_train_episodes h
       = None).
Proof.
  assert (Hmissing : ∀ store keys k,
            k ∈ keys → rb_data store !! k = None →
            ReplayBuffer.copy_from_path store keys = None).
  { intros store keys k Hk Hnone.
    destruct (ReplayBuffer.copy_from_path store keys) as [rb|] eqn:Hrb; [|done].
    assert (is_Some (ReplayBuffer.copy_from_path store keys)) as Hs by eauto.
    apply copy_from_path_is_Some in Hs.
    rewrite Forall_forall in Hs. destruct (Hs k Hk) as [? ?]. congruence. }
  assert (Hpresent : ∀ store keys rb k,
            ReplayBuffer.copy_from_path store keys = Some rb →
            k ∈ keys → is_Some (rb_data store !! k)).
  { intros store keys rb k Hrb Hk.
    assert (is_Some (ReplayBuffer.copy_from_path store keys)) as Hs by eauto.
    apply copy_from_path_is_Some in Hs.
    rewrite Forall_forall in Hs. by apply Hs. }
  split; [|split; [|split]].
  - intros until h'.
    intros (rb & m & s & Hrb & _ & _ & _ & ->)%image_init_Some.
    eexists. rewrite lookup_insert_eq. split; [done|]. cbn.
    split; [by eapply copy_from_path_episode_ends|].
    split; [intros k; by eapply Hpresent|].
    intros k. by apply copy_from_path_lookup.
  - intros until k. intros Hk Hnone. rewrite image_init_run.
    by rewrite (Hmissing _ _ _ Hk Hnone).
  - intros until h'.
    intros (rb & m & s & Hrb & _ & _ & _ & ->)%lowdim_init_Some.
    eexists. rewrite lookup_insert_eq. split; [done|]. cbn.
    split; [by eapply copy_from_path_episode_ends|].
    split; [intros k; by eapply Hpresent|].
    intros k. by apply copy_from_path_lookup.
  - intros until k. intros Hk Hnone. rewrite lowdim_init_run.
    by rewrite (Hmissing _ _ _ Hk Hnone).
Qed.

(** X12. [get_all_actions] of a constructed low-dimensional dataset never
    fails: it returns the whole action array of the store, with its type,
    shape and elements. *)
Theorem constructed_get_all_actions `{SamplerLib}
    store horizon pad_before pad_after obs_key state_key action_key mask_key
    seed val_ratio max_train_episodes
    (h : gmap Heap.loc BoxDeliveryLowdimDataset.t) l h' ds :
  BoxDeliveryLowdimDataset.init store horizon pad_before pad_after obs_key
    state_key action_key mask_key seed val_ratio max_train_episodes h
    = Some (l, h') →
  h' !! l = Some ds →
  ∃ actions,
    rb_data store !! action_key = Some actions ∧
    BoxDeliveryLowdimDataset.get_all_actions ds
      = Some (mkTensor (arr_dtype actions) (arr_shape actions)
                (arr_data actions)).
Proof.
  intros (rb & m & s & Hrb & _ & _ & _ & ->)%lowdim_init_Some.
  rewrite lookup_insert_eq. intros [= <-].
  unfold BoxDeliveryLowdimDataset.get_all_actions, ReplayBuffer.get. cbn.
  rewrite (copy_from_path_lookup _ _ _ action_key Hrb).
  rewrite decide_True by (rewrite !elem_of_cons; tauto).
  assert (is_Some (ReplayBuffer.copy_from_path store
                     [obs_key; state_key; action_key; mask_key])) as Hs
    by eauto.
  apply copy_from_path_is_Some in Hs. rewrite Forall_forall in Hs.
  destruct (Hs action_key) as [actions Ha]; [rewrite !elem_of_cons; tauto|].
  exists actions. by rewrite Ha.
Qed.

(** X13. The transforms keep arrays well formed: when every array of the
    window has as many elements as its shape says, so has every array of
    the record, for both adapters. *)
Theorem sample_to_data_well_formed `{Rounding} `{SamplerLib} :
  (∀ (sample : gmap string ndarray) out,
     (∀ k a, sample !! k = Some a → NumPy.wf a) →
     BoxDeliveryImageDataset.sample_to_data sample = Some out →
     ∃ image agent_pos action,
       out = Dict (<["obs" := Dict (<["image" := Leaf image]>
                                    (<["agent_pos" := Leaf agent_pos]> ∅))]>
                  (<["action" := Leaf action]> ∅)) ∧
       NumPy.wf image ∧ NumPy.wf agent_pos ∧ NumPy.wf action) ∧
  (∀ (self : BoxDeliveryLowdimDataset.t) (sample : gmap string ndarray) out,
     (∀ k a, sample !! k = Some a → NumPy.wf a) →
     BoxDeliveryLowdimDataset.sample_to_data self sample = Some out →
     ∃ obs action,
       out = Dict (<["obs" := Leaf obs]> (<["action" := Leaf action]> ∅)) ∧
       NumPy.wf obs ∧ NumPy.wf action).
Proof.
  split.
  - intros sample out Hwf
      (state & sliced & img & moved & action & Hstate & Hsliced & Himg
       & Hmoved & Haction & ->)%image_sample_to_data_Some.
    eexists _, _, _. split; [reflexivity|]. repeat split.
    + apply divide_scalar_wf. eapply moveaxis_last_to_1_wf; eauto.
    + apply astype_wf. eapply slice_axis1_wf; eauto.
    + apply astype_wf. eauto.
  - intros self sample out Hwf
      (state & goal & flat & obs & action & Hstate & Hgoal & Hflat & Hcat
       & Haction & ->)%lowdim_sample_to_data_Some.
    eexists _, _. split; [reflexivity|]. split; [|eauto].
    eapply concatenate_last_wf; eauto. eapply reshape_rows_wf; eauto.
Qed.

(** X14. Every episode of the validation mask of [get_val_mask] is selected
    by the validation view of a constructed dataset.  (The view selects the
    complement of the train mask, which also holds the train episodes that
    downsampling dropped.)  What is used of [downsample_mask] is that it
    only drops episodes and returns a mask of the same length. *)
Theorem validation_view_covers_val_mask {S : SamplerLib}
    {DC : DownsampleContract} {DL : DownsampleLength} :
  (∀ store horizon pad_before pad_after seed val_ratio max_train_episodes
     (h : gmap Heap.loc BoxDeliveryImageDataset.t) self h1 val_set h2 vs
     val_mask i,
     BoxDeliveryImageDataset.init store horizon pad_before pad_after seed
       val_ratio max_train_episodes h = Some (self, h1) →
     BoxDeliveryImageDataset.get_validation_dataset self h1
       = Some (val_set, h2) →
     h2 !! val_set = Some vs →
     get_val_mask (ReplayBuffer.n_episodes store) val_ratio seed
       = Some val_mask →
     val_mask !! i = Some true →
     BoxDeliveryImageDataset.train_mask vs !! i = Some true) ∧
  (∀ store horizon pad_before pad_after obs_key state_key action_key mask_key
     seed val_ratio max_train_episodes
     (h : gmap Heap.loc BoxDeliveryLowdimDataset.t) self h1 val_set h2 vs
     val_mask i,
     BoxDeliveryLowdimDataset.init store horizon pad_before pad_after obs_key
       state_key action_key mask_key seed val_ratio max_train_episodes h
       = Some (self, h1) →
     BoxDeliveryLowdimDataset.get_validation_dataset self h1
       = Some (val_set, h2) →
     h2 !! val_set = Some vs →
     get_val_mask (ReplayBuffer.n_episodes store) val_ratio seed
       = Some val_mask →
     val_mask !! i = Some true →
     BoxDeliveryLowdimDataset.train_mask vs !! i = Some true).
Proof.
  assert (Hcover : ∀ val_mask max_n seed mask i,
            downsample_mask (invert val_mask) max_n seed = Some mask →
            val_mask !! i = Some true → invert mask !! i = Some true).
  { intros val_mask max_n seed mask i Hdown Hi.
    pose proof (downsample_length _ _ _ _ Hdown) as Hlen.
    rewrite invert_length in Hlen.
    destruct (mask !! i) as [[]|] eqn:Hm.
    - pose proof (downsample_subset _ _ _ _ _ Hdown Hm) as Hinv.
      rewrite invert_lookup, Hi in Hinv. done.
    - by rewrite invert_lookup, Hm.
    - apply lookup_ge_None in Hm. apply lookup_lt_Some in Hi. lia. }
  split; intros until i; intros Hinit Hval Hvs Hmask Hi.
  - apply image_init_Some in Hinit as (rb & m & s & Hrb & Hm & _ & _ & ->).
    erewrite image_get_validation_dataset_run in Hval
      by apply lookup_insert_eq.
    cbn in Hval. destruct (new_sampler _ _ _ _ _) as [s'|]; [|done].
    injection Hval as <- <-. rewrite lookup_insert_eq in Hvs.
    injection Hvs as <-. cbn.
    unfold BoxDeliveryImageDataset.init_train_mask in Hm.
    rewrite (copy_from_path_n_episodes _ _ _ Hrb), Hmask in Hm. cbn in Hm.
    by eapply Hcover.
  - apply lowdim_init_Some in Hinit as (rb & m & s & Hrb & Hm & _ & _ & ->).
    erewrite lowdim_get_validation_dataset_run in Hval
      by apply lookup_insert_eq.
    cbn in Hval. destruct (new_sampler _ _ _ _ _) as [s'|]; [|done].
    injection Hval as <- <-. rewrite lookup_insert_eq in Hvs.
    injection Hvs as <-. cbn.
    unfold BoxDeliveryLowdimDataset.init_train_mask in Hm.
    rewrite (copy_from_path_n_episodes _ _ _ Hrb), Hmask in Hm. cbn in Hm.
    by eapply Hcover.
Qed.


(** ** These statements on concrete stores *)

Section more_on_reference_stores.
Import Reference.
Local Existing Instances rounding sampler_lib normalizer_lib.

Lemma keep_first_length n mask : length (keep_first n mask) = length mask.
Proof.
  revert n. induction mask as [|[] mask IH]; intros n; cbn; [done| |].
  - destruct n; cbn; by rewrite IH.
  - by rewrite IH.
Qed.

Lemma downsample_length_ref : DownsampleLength.
Proof.
  intros mask max_n seed mask'. cbn. unfold ref_downsample_mask.
  destruct max_n as [n|]; [|by intros [= <-]].
  repeat case_decide; [by intros [= <-] | done |].
  intros [= <-]. apply keep_first_length.
Qed.

(** The validation view of the image dataset over [image_store]. *)
Lemma image_validation_eval :
  BoxDeliveryImageDataset.get_validation_dataset 1%positive
    {[1%positive := image_dataset image_store [false; true]]}
  = Some (2%positive,
          <[2%positive := image_dataset image_store [true; false]]>
            {[1%positive := image_dataset image_store [false; true]]}).
Proof. reflexivity. Qed.

Lemma lowdim_validation_eval valid :
  BoxDeliveryLowdimDataset.get_validation_dataset 1%positive
    {[1%positive := lowdim_dataset (lowdim_store valid) [false; true]]}
  = Some (2%positive,
          <[2%positive := lowdim_dataset (lowdim_store valid) [true; false]]>
            {[1%positive := lowdim_dataset (lowdim_store valid) [false; true]]}).
Proof. reflexivity. Qed.

(** The arrays of a concrete window are well formed. *)
Ltac fields_wf Hk :=
  repeat (rewrite lookup_insert in Hk; case_decide;
          [injection Hk as <-; reflexivity|]);
  rewrite lookup_empty in Hk; discriminate Hk.

Lemma image_getitem_layout_witness :
  let self := image_dataset image_store [false; true] in
  ∃ out,
    BoxDeliveryImageDataset.getitem self 0 = Some out ∧
    ∃ image, item "obs" out ≫= item "image" = Some (Leaf image) ∧
             t_shape image = [2; 3; 1; 1] ∧ t_dtype image = Float64.
Proof.
  intros self.
  destruct (BoxDeliveryImageDataset.getitem self 0) as [out|] eqn:Hout;
    [|discriminate Hout].
  exists out. split; [reflexivity|].
  destruct (image_getitem_layout self 0%Z out Hout)
    as (sample & img & state & action & image & agent_pos & act & Hsample
        & Himg & _ & _ & -> & (d0 & mid & c & Hs & Hshape) & Hdt & _).
  exists image. split; [reflexivity|].
  assert (sample_sequence (BoxDeliveryImageDataset.sampler self) 0
          = Some (cut (mkWindow 1 2 3) 2 <$> rb_data image_store)) as Heval
    by reflexivity.
  assert (sample = cut (mkWindow 1 2 3) 2 <$> rb_data image_store) as ->
    by congruence.
  assert ((cut (mkWindow 1 2 3) 2 <$> rb_data image_store) !! "img"
          = Some (cut (mkWindow 1 2 3) 2
                    (NDArray UInt8 [3; 1; 1; 3]
                       [0; 128; 255; 10; 20; 30; 255; 255; 0]%Q))) as Heval'
    by reflexivity.
  assert (img = cut (mkWindow 1 2 3) 2
                  (NDArray UInt8 [3; 1; 1; 3]
                     [0; 128; 255; 10; 20; 30; 255; 255; 0]%Q)) as ->
    by congruence.
  rewrite Hdt, Hshape. cbn in Hs.
  injection Hs as <- Hs. change [1; 1; 3] with ([1; 1] ++ [3]) in Hs.
  apply app_inj_tail in Hs as [<- <-]. done.
Defined.

(** Pixel [(t, h, w, c) = (1, 0, 0, 1)] of the window lands at
    [(t, c, h, w) = (1, 1, 0, 0)]. *)
Lemma image_getitem_pixels_witness :
  let self := image_dataset image_store [false; true] in
  let sample := cut (mkWindow 1 2 3) 2 <$> rb_data image_store in
  let img := cut (mkWindow 1 2 3) 2
               (NDArray UInt8 [3; 1; 1; 3]
                  [0; 128; 255; 10; 20; 30; 255; 255; 0]%Q) in
  ∃ out image,
    sample_sequence (BoxDeliveryImageDataset.sampler self) 0 = Some sample ∧
    sample !! "img" = Some img ∧
    NumPy.wf img ∧
    arr_shape img = 2 :: [1; 1] ++ [3] ∧
    BoxDeliveryImageDataset.getitem self 0 = Some out ∧
    item "obs" out ≫= item "image" = Some (Leaf image) ∧
    ∃ x, Indexing.array_at img (1 :: [0; 0] ++ [1]) = Some x ∧
         Indexing.tensor_at image (1 :: 1 :: [0; 0])
         = Some match arr_dtype img with
                | Float32 => round Float32 (x / 255)%Q
                | Float64 => round Float64 (x / 255)%Q
                | Bool | UInt8 | Int64 =>
                    if Qle_bool (Qabs x) (inject_Z (2 ^ 53))
                    then round Float64 (x / 255)%Q
                    else round Float64 (round Float64 x / 255)%Q
                end.
Proof.
  intros self sample img. eexists _, _.
  split; [reflexivity|]. split; [reflexivity|]. split; [reflexivity|].
  split; [reflexivity|]. split; [reflexivity|]. split; [reflexivity|].
  eapply (image_getitem_pixels self 0%Z sample img _ _ 2 [1; 1] 3);
    try reflexivity; try lia.
  by repeat constructor.
Defined.

(** The two kept state columns of the same window. *)
Lemma image_getitem_agent_pos_action_elements_witness :
  let self := image_dataset image_store [false; true] in
  let sample := cut (mkWindow 1 2 3) 2 <$> rb_data image_store in
  let state := cut (mkWindow 1 2 3) 2
                 (NDArray Float64 [3; 5]
                    [1; 2; 3; 4; 5; 6; 7; 8; 9; 10; 11; 12; 13; 14; 15]%Q) in
  let action := cut (mkWindow 1 2 3) 2
                  (NDArray Float64 [3; 2] [1 # 2; 1 # 3; 0; 1; 2; 3]%Q) in
  ∃ out agent_pos act,
    sample_sequence (BoxDeliveryImageDataset.sampler self) 0 = Some sample ∧
    sample !! "state" = Some state ∧
    sample !! "action" = Some action ∧
    NumPy.wf state ∧
    arr_shape state = [2; 5] ∧
    BoxDeliveryImageDataset.getitem self 0 = Some out ∧
    item "obs" out ≫= item "agent_pos" = Some (Leaf agent_pos) ∧
    item "action" out = Some (Leaf act) ∧
    ∃ x, Indexing.array_at state [1; 1] = Some x ∧
         Indexing.tensor_at agent_pos [1; 1]
         = Some (Indexing.cast (arr_dtype state) Float32 x).
Proof.
  intros self sample state action. eexists _, _, _.
  do 8 (split; [reflexivity|]).
  eapply (proj1 (image_getitem_agent_pos_action_elements self 0%Z sample state
                   action _ _ _ 2 5 [] eq_refl eq_refl eq_refl eq_refl eq_refl
                   eq_refl eq_refl eq_refl));
    [lia | cbn; lia | constructor].
Defined.

(** A window with a one-dimensional state is refused, the window of
    [image_store] is accepted. *)
Lemma image_sample_to_data_returns_witness :
  is_Some (BoxDeliveryImageDataset.sample_to_data
             (cut (mkWindow 1 2 3) 2 <$> rb_data image_store)) ∧
  BoxDeliveryImageDataset.sample_to_data
    (<["state" := NDArray Float64 [2] [1; 2]%Q]>
       (cut (mkWindow 1 2 3) 2 <$> rb_data image_store)) = None.
Proof.
  split.
  - apply (proj2 (image_sample_to_data_returns _)).
    eexists _, _, _. do 3 (split; [reflexivity|]). cbn. lia.
  - apply eq_None_not_Some.
    intros (state & img & action & Hstate & _ & _ & Hdim & _)
      %(proj1 (image_sample_to_data_returns _)).
    rewrite lookup_insert_eq in Hstate. injection Hstate as <-.
    cbn in Hdim. lia.
Defined.

Lemma validation_view_attributes_witness :
  let ds := image_dataset image_store [false; true] in
  let vs := image_dataset image_store [true; false] in
  let h : gmap Heap.loc BoxDeliveryImageDataset.t := {[1%positive := ds]} in
  let h' := <[2%positive := vs]> h in
  h !! 1%positive = Some ds ∧
  BoxDeliveryImageDataset.get_validation_dataset 1%positive h
    = Some (2%positive, h') ∧
  h' !! 2%positive = Some vs ∧
  BoxDeliveryImageDataset.replay_buffer vs
    = BoxDeliveryImageDataset.replay_buffer ds ∧
  BoxDeliveryImageDataset.sampler_consistent vs.
Proof.
  intros ds vs h h'.
  do 3 (split; [reflexivity|]).
  destruct (proj1 validation_view_attributes h 1%positive ds 2%positive h' vs
              eq_refl eq_refl eq_refl) as (Hrb & _ & _ & _ & _ & Hinv).
  by split.
Defined.

Lemma reachable_sampler_consistent_witness :
  let ds := image_dataset image_store [false; true] in
  let vs := image_dataset image_store [true; false] in
  let h : gmap Heap.loc BoxDeliveryImageDataset.t :=
    <[2%positive := vs]> {[1%positive := ds]} in
  image_reachable h ∧ h !! 2%positive = Some vs ∧
  BoxDeliveryImageDataset.sampler_consistent vs.
Proof.
  intros ds vs h.
  assert (image_reachable h) as Hreach.
  { eapply image_reach_validation; [|exact image_validation_eval].
    eapply image_reach_init; [constructor|exact image_init_eval]. }
  split; [exact Hreach|]. split; [reflexivity|].
  exact (proj1 reachable_sampler_consistent h Hreach 2%positive vs eq_refl).
Defined.

Lemma validation_view_same_normalizer_witness :
  let ds := lowdim_dataset (lowdim_store [1; 1; 1; 0; 0; 0]%Q) [false; true] in
  let vs := lowdim_dataset (lowdim_store [1; 1; 1; 0; 0; 0]%Q) [true; false] in
  let h : gmap Heap.loc BoxDeliveryLowdimDataset.t := {[1%positive := ds]} in
  let h' := <[2%positive := vs]> h in
  h !! 1%positive = Some ds ∧
  BoxDeliveryLowdimDataset.get_validation_dataset 1%positive h
    = Some (2%positive, h') ∧
  h' !! 2%positive = Some vs ∧
  BoxDeliveryLowdimDataset.get_normalizer vs "limits" no_kwargs
    = BoxDeliveryLowdimDataset.get_normalizer ds "limits" no_kwargs ∧
  BoxDeliveryLowdimDataset.get_all_actions vs
    = BoxDeliveryLowdimDataset.get_all_actions ds.
Proof.
  intros ds vs h h'.
  do 3 (split; [reflexivity|]).
  exact (proj2 (validation_view_same_normalizer (H := rounding)) h 1%positive
           ds 2%positive h' vs "limits" no_kwargs eq_refl eq_refl eq_refl).
Defined.

Lemma validation_view_twice_is_copy_witness :
  let ds := image_dataset image_store [false; true] in
  let vs := image_dataset image_store [true; false] in
  let h : gmap Heap.loc BoxDeliveryImageDataset.t := {[1%positive := ds]} in
  let h1 := <[2%positive := vs]> h in
  h !! 1%positive = Some ds ∧
  BoxDeliveryImageDataset.sampler_consistent ds ∧
  BoxDeliveryImageDataset.get_validation_dataset 1%positive h
    = Some (2%positive, h1) ∧
  ∃ back h2,
    BoxDeliveryImageDataset.get_validation_dataset 2%positive h1
      = Some (back, h2) ∧
    back ≠ 1%positive ∧ back ≠ 2%positive ∧
    h2 !! back = Some ds ∧ h2 !! 1%positive = Some ds.
Proof.
  intros ds vs h h1.
  do 3 (split; [reflexivity|]).
  exact (proj1 validation_view_twice_is_copy h 1%positive ds 2%positive h1
           eq_refl eq_refl eq_refl).
Defined.

(** Row 1 of the observation over the whole buffer of [lowdim_store]:
    entry [(1, 0)] of the second timestep and the goal entry [(1, 1)]. *)
Lemma lowdim_obs_elements_witness :
  let store := lowdim_store [1; 1; 1; 0; 0; 0]%Q in
  let self := lowdim_dataset store [false; true] in
  let state := NDArray Float64 [3; 2; 2]
                 [1; 2; 3; 4; 5; 6; 7; 8; 9; 10; 11; 12]%Q in
  let goal := NDArray Float64 [3; 3] [0; 0; 1; 0; 1; 0; 1; 0; 0]%Q in
  ∃ out obs,
    BoxDeliveryLowdimDataset.sample_to_data self (rb_data store) = Some out ∧
    item "obs" out = Some (Leaf obs) ∧
    rb_data store !! BoxDeliveryLowdimDataset.obs_key self = Some state ∧
    rb_data store !! BoxDeliveryLowdimDataset.state_key self = Some goal ∧
    NumPy.wf state ∧ NumPy.wf goal ∧
    Indexing.array_at obs [1; Indexing.ravel [2; 2] [1; 0]]
      = Indexing.cast (arr_dtype state) (arr_dtype obs)
          <$> Indexing.array_at state [1; 1; 0] ∧
    Indexing.array_at obs [1; NumPy.prod_list [2; 2] + 1]
      = Indexing.cast (arr_dtype goal) (arr_dtype obs)
          <$> Indexing.array_at goal [1; 1].
Proof.
  intros store self state goal. eexists _, _.
  do 6 (split; [reflexivity|]).
  destruct (lowdim_obs_elements self (rb_data store) _ _ state goal 3 [2; 2] 3
              eq_refl eq_refl eq_refl eq_refl eq_refl eq_refl eq_refl eq_refl)
    as [_ Hrows].
  destruct (Hrows 1 ltac:(lia)) as [Hstate Hgoal]. split.
  - apply (Hstate [1; 0]). repeat constructor.
  - apply (Hgoal 1). lia.
Defined.

(** Construction over [image_store] keeps its three fields; without the
    image field it fails. *)
Lemma init_loads_named_fields_witness :
  let h : gmap Heap.loc BoxDeliveryImageDataset.t :=
    {[1%positive := image_dataset image_store [false; true]]} in
  let no_img := mkReplayBuffer (delete "img" (rb_data image_store)) [2; 3] in
  BoxDeliveryImageDataset.init image_store 2 1 1 42 (1 # 2) None ∅
    = Some (1%positive, h) ∧
  (∃ ds, h !! 1%positive = Some ds ∧
     rb_data (BoxDeliveryImageDataset.replay_buffer ds) !! "img"
       = rb_data image_store !! "img") ∧
  "img" ∈ ["img"; "state"; "action"] ∧
  rb_data no_img !! "img" = None ∧
  BoxDeliveryImageDataset.init no_img 2 1 1 42 (1 # 2) None ∅ = None.
Proof.
  intros h no_img.
  destruct init_loads_named_fields as (Hloads & Hmissing & _).
  split; [exact image_init_eval|]. split; [|split; [by left|split; [reflexivity|]]].
  - destruct (Hloads image_store 2%Z 1%Z 1%Z 42%Z (1 # 2)%Q None ∅ 1%positive h
                image_init_eval) as (ds & Hds & _ & _ & Hfields).
    exists ds. split; [exact Hds|]. rewrite Hfields.
    by rewrite decide_True by (by left).
  - apply (Hmissing no_img 2%Z 1%Z 1%Z 42%Z (1 # 2)%Q None ∅ "img");
      [by left | reflexivity].
Defined.

Lemma lowdim_getitem_record_witness :
  let self := lowdim_dataset (lowdim_store [1; 1; 1; 0; 0; 0]%Q) [false; true] in
  ∃ out obs act,
    BoxDeliveryLowdimDataset.getitem self 0 = Some out ∧
    out = Dict (<["obs" := Leaf obs]> (<["action" := Leaf act]> ∅)) ∧
    t_dtype obs = Float64 ∧ t_dtype act = Float64.
Proof.
  intros self.
  destruct (BoxDeliveryLowdimDataset.getitem self 0) as [out|] eqn:Hout;
    [|discriminate Hout].
  destruct (lowdim_getitem_record (H := rounding) self 0%Z out Hout)
    as (sample & state & goal & action & obs & act & Hsample & Hstate & Hgoal
        & Haction & -> & Hdt & _ & _ & Hobs & _).
  eexists _, obs, act. split; [reflexivity|]. split; [reflexivity|].
  set (w := mkWindow 1 2 3).
  assert (sample_sequence (BoxDeliveryLowdimDataset.sampler self) 0
          = Some (cut w 2 <$> rb_data (lowdim_store [1; 1; 1; 0; 0; 0]%Q)))
    as Heval by reflexivity.
  assert (sample = cut w 2 <$> rb_data (lowdim_store [1; 1; 1; 0; 0; 0]%Q))
    as -> by congruence.
  assert (arr_dtype state = Float64) as Hs.
  { assert ((cut w 2 <$> rb_data (lowdim_store [1; 1; 1; 0; 0; 0]%Q))
              !! BoxDeliveryLowdimDataset.obs_key self
            = Some (cut w 2 (NDArray Float64 [3; 2; 2]
                               [1; 2; 3; 4; 5; 6; 7; 8; 9; 10; 11; 12]%Q)))
      as Heval' by reflexivity.
    assert (state = cut w 2 (NDArray Float64 [3; 2; 2]
                               [1; 2; 3; 4; 5; 6; 7; 8; 9; 10; 11; 12]%Q))
      as -> by congruence.
    reflexivity. }
  assert (arr_dtype goal = Float64) as Hg.
  { assert ((cut w 2 <$> rb_data (lowdim_store [1; 1; 1; 0; 0; 0]%Q))
              !! BoxDeliveryLowdimDataset.state_key self
            = Some (cut w 2 (NDArray Float64 [3; 3]
                               [0; 0; 1; 0; 1; 0; 1; 0; 0]%Q)))
      as Heval' by reflexivity.
    assert (goal = cut w 2 (NDArray Float64 [3; 3]
                              [0; 0; 1; 0; 1; 0; 1; 0; 0]%Q))
      as -> by congruence.
    reflexivity. }
  assert (arr_dtype action = Float64) as Ha.
  { assert ((cut w 2 <$> rb_data (lowdim_store [1; 1; 1; 0; 0; 0]%Q))
              !! BoxDeliveryLowdimDataset.action_key self
            = Some (cut w 2 (NDArray Float64 [3; 2]
                               [1 # 2; 1 # 3; 0; 1; 2; 3]%Q)))
      as Heval' by reflexivity.
    assert (action = cut w 2 (NDArray Float64 [3; 2]
                                [1 # 2; 1 # 3; 0; 1; 2; 3]%Q))
      as -> by congruence.
    reflexivity. }
  by rewrite Hobs, Hdt, Hs, Hg, Ha.
Defined.

Lemma constructed_get_all_actions_witness :
  let store := lowdim_store [1; 1; 1; 0; 0; 0]%Q in
  let ds := lowdim_dataset store [false; true] in
  let h : gmap Heap.loc BoxDeliveryLowdimDataset.t := {[1%positive := ds]} in
  BoxDeliveryLowdimDataset.init store 2 1 1 "state_positions" "goal" "action"
    "valid_obs_mask" 42 (1 # 2) None ∅ = Some (1%positive, h) ∧
  h !! 1%positive = Some ds ∧
  ∃ actions,
    rb_data store !! "action" = Some actions ∧
    BoxDeliveryLowdimDataset.get_all_actions ds
      = Some (mkTensor (arr_dtype actions) (arr_shape actions)
                (arr_data actions)).
Proof.
  intros store ds h. split; [exact (lowdim_init_eval _)|].
  split; [reflexivity|].
  exact (constructed_get_all_actions store 2%Z 1%Z 1%Z "state_positions"
           "goal" "action" "valid_obs_mask" 42%Z (1 # 2)%Q None ∅ 1%positive h
           ds (lowdim_init_eval _) eq_refl).
Defined.

Lemma sample_to_data_well_formed_witness :
  let sample : gmap string ndarray :=
    <["img" := NDArray UInt8 [1; 1; 1; 3] [255; 0; 51]%Q]>
      (<["state" := NDArray Float64 [1; 3] [1; 2; 3]%Q]>
         (<["action" := NDArray Float64 [1; 2] [0; 1]%Q]> ∅)) in
  (∀ k a, sample !! k = Some a → NumPy.wf a) ∧
  ∃ out image agent_pos action,
    BoxDeliveryImageDataset.sample_to_data sample = Some out ∧
    out = Dict (<["obs" := Dict (<["image" := Leaf image]>
                                 (<["agent_pos" := Leaf agent_pos]> ∅))]>
               (<["action" := Leaf action]> ∅)) ∧
    NumPy.wf image ∧ NumPy.wf agent_pos ∧ NumPy.wf action.
Proof.
  intros sample.
  assert (∀ k a, sample !! k = Some a → NumPy.wf a) as Hwf.
  { intros k a Hk. unfold sample in Hk. fields_wf Hk. }
  split; [exact Hwf|].
  destruct (BoxDeliveryImageDataset.sample_to_data sample) as [out|] eqn:Hout;
    [|discriminate Hout].
  destruct (proj1 (sample_to_data_well_formed (H := rounding)) sample out Hwf
              Hout) as (image & agent_pos & action & -> & ? & ? & ?).
  by eexists _, image, agent_pos, action.
Defined.

(** The validation episode of [image_store] is in the validation view. *)
Lemma validation_view_covers_val_mask_witness :
  let ds := image_dataset image_store [false; true] in
  let vs := image_dataset image_store [true; false] in
  let h1 : gmap Heap.loc BoxDeliveryImageDataset.t := {[1%positive := ds]} in
  let h2 := <[2%positive := vs]> h1 in
  BoxDeliveryImageDataset.init image_store 2 1 1 42 (1 # 2) (Some 1%Z) ∅
    = Some (1%positive, h1) ∧
  BoxDeliveryImageDataset.get_validation_dataset 1%positive h1
    = Some (2%positive, h2) ∧
  h2 !! 2%positive = Some vs ∧
  get_val_mask (ReplayBuffer.n_episodes image_store) (1 # 2) 42
    = Some [true; false] ∧
  [true; false] !! 0 = Some true ∧
  BoxDeliveryImageDataset.train_mask vs !! 0 = Some true.
Proof.
  intros ds vs h1 h2. do 5 (split; [reflexivity|]).
  exact (proj1 (validation_view_covers_val_mask (DC := downsample_contract)
                  (DL := downsample_length_ref))
           image_store 2%Z 1%Z 1%Z 42%Z (1 # 2)%Q (Some 1%Z) ∅ 1%positive h1
           2%positive h2 vs [true; false] 0 eq_refl eq_refl eq_refl eq_refl
           eq_refl).
Defined.
End more_on_reference_stores.
